(** * The watsonx adapter, the pass-through routes and the secret helpers of litellm

    A shallow embedding of
    - [litellm/llms/watsonx/completion/transformation.py] ([IBMWatsonXAIConfig]),
    - [litellm/proxy/pass_through_endpoints/llm_passthrough_endpoints.py],
    - [litellm/proxy/common_utils/encrypt_decrypt_utils.py],
    - [litellm/integrations/prompt_management_base.py] ([PromptManagementBase]),
    - [litellm/proxy/caching_routes.py],
    and the properties of these functions that the specification states.

    Python values are a small JSON-like datatype, dictionaries are insertion
    ordered association lists, and a call that may raise returns a [result]. *)

From Stdlib Require Import String Ascii List ZArith Lia Bool PrimFloat DecimalString.
Import ListNotations.
Open Scope string_scope.
Set Warnings "-register-all".

(** ** Python values *)

Inductive value : Type :=
| VNone
| VBool (b : bool)
| VInt (z : Z)
| VFloat (f : float)
| VStr (s : string)
| VList (l : list value)
| VDict (d : list (string * value)).

(** A [dict] with string keys, in insertion order. *)
Definition dict : Type := list (string * value).

(** Python's truth test, as used by [if x:] and by [x or y]. *)
Definition truthy (v : value) : bool :=
  match v with
  | VNone => false
  | VBool b => b
  | VInt z => negb (z =? 0)%Z
  | VFloat f => negb (PrimFloat.eqb f 0%float)
  | VStr s => negb (s =? "")
  | VList l => match l with [] => false | _ :: _ => true end
  | VDict d => match d with [] => false | _ :: _ => true end
  end.

(** ** Exceptions and results *)

Inductive exn : Type :=
| WatsonXAIError (status_code : Z) (message : string)
| JSONDecodeError
| AttributeError
| TypeError
| KeyError (key : string)
| UnicodeEncodeError
| UnicodeDecodeError
| ValueError
| BinasciiError
| CryptoError
| HTTPException (status_code : Z)
| Exception (message : string).

Inductive result (A : Type) : Type :=
| Ok (a : A)
| Raise (e : exn).
Arguments Ok {A} a.
Arguments Raise {A} e.

Definition bind {A B : Type} (r : result A) (k : A -> result B) : result B :=
  match r with
  | Ok a => k a
  | Raise e => Raise e
  end.

(** [try: body  except Exception as e: handler e]. *)
Definition try_except {A : Type} (body : result A) (handler : exn -> result A)
  : result A :=
  match body with
  | Ok a => Ok a
  | Raise e => handler e
  end.

Declare Scope py_scope.
Delimit Scope py_scope with py.
Notation "x <- c ;; k" := (bind c (fun x => k))
  (at level 61, c at next level, right associativity) : py_scope.
Notation "' p <- c ;; k" := (bind c (fun x => let p := x in k))
  (at level 61, p pattern, c at next level, right associativity) : py_scope.

Definition returns {A : Type} (r : result A) : bool :=
  match r with Ok _ => true | Raise _ => false end.

(** ** Dictionary operations *)

Module Dict.

(** [d.get(k)], [None] when the key is absent. *)
Fixpoint get (k : string) (d : dict) : option value :=
  match d with
  | [] => None
  | (k', v) :: d' => if k' =? k then Some v else get k d'
  end.

(** [d[k] = v]: an existing key keeps its position. *)
Fixpoint set (k : string) (v : value) (d : dict) : dict :=
  match d with
  | [] => [(k, v)]
  | (k', v') :: d' => if k' =? k then (k, v) :: d' else (k', v') :: set k v d'
  end.

(** The dictionary left by [del d[k]]. *)
Definition remove (k : string) (d : dict) : dict :=
  filter (fun kv => negb (fst kv =? k)) d.

(** [d.pop(k, default)]: the value and the dictionary left behind. *)
Definition pop (k : string) (default : value) (d : dict) : value * dict :=
  match get k d with
  | Some v => (v, remove k d)
  | None => (default, d)
  end.

(** [d.update(src)] for a dictionary [src]. *)
Definition update (d src : dict) : dict :=
  fold_left (fun acc kv => set (fst kv) (snd kv) acc) src d.

Definition keys (d : dict) : list string := map fst d.

Definition mem (k : string) (d : dict) : bool :=
  match get k d with Some _ => true | None => false end.

End Dict.

(** ** [IBMWatsonXAIConfig.map_openai_params] *)

(** One turn of the loop [for k, v in non_default_params.items()], on the pair
    of [optional_params] and the local [extra_body]. *)
Definition map_openai_param (st : dict * dict) (kv : string * value)
  : dict * dict :=
  let '(optional_params, extra_body) := st in
  let '(k, v) := kv in
  if k =? "max_tokens" then (Dict.set "max_new_tokens" v optional_params, extra_body)
  else if k =? "stream" then (Dict.set "stream" v optional_params, extra_body)
  else if k =? "temperature" then (Dict.set "temperature" v optional_params, extra_body)
  else if k =? "top_p" then (Dict.set "top_p" v optional_params, extra_body)
  else if k =? "frequency_penalty" then (Dict.set "repetition_penalty" v optional_params, extra_body)
  else if k =? "seed" then (Dict.set "random_seed" v optional_params, extra_body)
  else if k =? "stop" then (Dict.set "stop_sequences" v optional_params, extra_body)
  else if k =? "decoding_method" then (optional_params, Dict.set "decoding_method" v extra_body)
  else if k =? "min_tokens" then (optional_params, Dict.set "min_new_tokens" v extra_body)
  else if k =? "top_k" then (optional_params, Dict.set "top_k" v extra_body)
  else if k =? "truncate_input_tokens" then (optional_params, Dict.set "truncate_input_tokens" v extra_body)
  else if k =? "length_penalty" then (optional_params, Dict.set "length_penalty" v extra_body)
  else if k =? "time_limit" then (optional_params, Dict.set "time_limit" v extra_body)
  else if k =? "return_options" then (optional_params, Dict.set "return_options" v extra_body)
  else (optional_params, extra_body).

Definition map_openai_params_loop (non_default_params optional_params : dict)
  : dict * dict :=
  fold_left map_openai_param non_default_params (optional_params, []).

Definition map_openai_params (non_default_params optional_params : dict)
    (model : string) (drop_params : bool) : dict :=
  let '(optional_params, extra_body) :=
    map_openai_params_loop non_default_params optional_params in
  if truthy (VDict extra_body)
  then Dict.set "extra_body" (VDict extra_body) optional_params
  else optional_params.

(** The mapping table that the branches of the loop amount to: the
    top-level name, or the name inside [extra_body], that an OpenAI parameter
    is written to. *)
Definition top_level_name (k : string) : option string :=
  if k =? "max_tokens" then Some "max_new_tokens"
  else if k =? "stream" then Some "stream"
  else if k =? "temperature" then Some "temperature"
  else if k =? "top_p" then Some "top_p"
  else if k =? "frequency_penalty" then Some "repetition_penalty"
  else if k =? "seed" then Some "random_seed"
  else if k =? "stop" then Some "stop_sequences"
  else None.

Definition extra_body_name (k : string) : option string :=
  if k =? "decoding_method" then Some "decoding_method"
  else if k =? "min_tokens" then Some "min_new_tokens"
  else if k =? "top_k" then Some "top_k"
  else if k =? "truncate_input_tokens" then Some "truncate_input_tokens"
  else if k =? "length_penalty" then Some "length_penalty"
  else if k =? "time_limit" then Some "time_limit"
  else if k =? "return_options" then Some "return_options"
  else None.

(** ** String helpers: the [str] methods the code calls *)

Module Str.

(** [s.startswith(p)]. *)
Definition startswith (p s : string) : bool := String.prefix p s.

(** [needle in s]. *)
Fixpoint contains (needle s : string) : bool :=
  if String.prefix needle s then true
  else match s with
       | EmptyString => false
       | String _ s' => contains needle s'
       end.

(** [s.split("/")[0]]. *)
Fixpoint before_slash (s : string) : string :=
  match s with
  | EmptyString => EmptyString
  | String c s' => if Ascii.eqb c "/" then EmptyString else String c (before_slash s')
  end.

(** ["/".join(s.split("/")[1:])]: what follows the first slash. *)
Fixpoint after_slash (s : string) : string :=
  match s with
  | EmptyString => EmptyString
  | String c s' => if Ascii.eqb c "/" then s' else after_slash s'
  end.

(** [s.rstrip("/")]. *)
Fixpoint rstrip_slash (s : string) : string :=
  match s with
  | EmptyString => EmptyString
  | String c s' =>
      match rstrip_slash s' with
      | EmptyString => if Ascii.eqb c "/" then EmptyString else String c EmptyString
      | r => String c r
      end
  end.

Fixpoint replace_from (skip : nat) (field by_ s : string) : string :=
  match s with
  | EmptyString => EmptyString
  | String c s' =>
      match skip with
      | S n => replace_from n field by_ s'
      | O =>
          if String.prefix field s
          then by_ ++ replace_from (String.length field - 1) field by_ s'
          else String c (replace_from O field by_ s')
      end
  end.

(** [template.format(deployment_id=id)] for a template whose only
    replacement field is [{deployment_id}]. *)
Definition format_deployment_id (template id : string) : string :=
  replace_from O "{deployment_id}" id template.

(** Decimal digits of an integer, as [str(n)] prints them. *)
Definition of_Z (z : Z) : string := NilZero.string_of_int (Z.to_int z).

End Str.

(** ** Collaborators of the watsonx adapter

    The adapter imports these from modules of the package that are not part
    of the files embedded here ([litellm.secret_managers.main],
    [litellm.llms.watsonx.common_utils], [litellm.types.llms.watsonx],
    [litellm.constants]); they are the interface the adapter is verified
    against. A helper that mutates the dictionary it receives returns the
    dictionary it leaves. *)
Class SecretManager : Type := {
  (** [get_secret_str(name)]: an environment or secret-manager entry. *)
  get_secret_str : string -> option string
}.

Class WatsonxCollaborators : Type := {
  (** [_get_api_params(params=d)]: the credentials found in [d] or in the
      environment, as a [WatsonXAPIParams] dictionary, and [d] as left. *)
  _get_api_params : dict -> result (dict * dict);
  (** [convert_watsonx_messages_to_prompt(model, messages, provider, custom_prompt_dict)]. *)
  convert_watsonx_messages_to_prompt :
    string -> list value -> string -> dict -> result string;
  (** [_generate_watsonx_token(api_key, token)]: the token-issuance call. *)
  _generate_watsonx_token : option string -> value -> result string;
  (** [litellm.WATSONX_DEFAULT_API_VERSION]. *)
  WATSONX_DEFAULT_API_VERSION : string;
  (** The members of the [WatsonXAIEndpoint] enumeration that are used. *)
  TEXT_GENERATION : string;
  TEXT_GENERATION_STREAM : string;
  DEPLOYMENT_TEXT_GENERATION : string;
  DEPLOYMENT_TEXT_GENERATION_STREAM : string;
  (** [repr] of the values whose printed form is not needed here. *)
  py_repr : value -> string
}.

(** [str(v)], as an f-string or [format] prints [v]. *)
Definition py_str `{WatsonxCollaborators} (v : value) : string :=
  match v with
  | VNone => "None"
  | VBool true => "True"
  | VBool false => "False"
  | VInt z => Str.of_Z z
  | VStr s => s
  | _ => py_repr v
  end.

(** Truth of an [Optional[str]]. *)
Definition truthy_str (o : option string) : bool :=
  match o with
  | Some s => truthy (VStr s)
  | None => false
  end.

(** [a or b] on [Optional[str]] operands. *)
Definition or_ (a b : option string) : option string :=
  if truthy_str a then a else b.

(** [d.update(v)] for the value popped from [extra_body]. A dictionary is
    merged key by key. Any other value is iterated, and each of its items
    has to be a pair: an item that cannot be iterated makes [update] raise
    [TypeError], an item that has not two elements [ValueError], a key that
    is a list or a dictionary [TypeError]. The pairs that a [dict] can take
    are those whose key is a string; a pair whose key is a number, a boolean
    or [None] has no counterpart here and is refused like an unhashable
    key. *)
Fixpoint update_pairs (d : dict) (l : list value) : result dict :=
  match l with
  | [] => Ok d
  | VList [VStr k; v] :: l' => update_pairs (Dict.set k v d) l'
  | VStr (String a (String b EmptyString)) :: l' =>
      update_pairs
        (Dict.set (String a EmptyString) (VStr (String b EmptyString)) d) l'
  | VDict [(k, _); (v, _)] :: l' => update_pairs (Dict.set k (VStr v) d) l'
  | VList [_; _] :: _ => Raise TypeError
  | (VList _ | VStr _ | VDict _) :: _ => Raise ValueError
  | (VNone | VBool _ | VInt _ | VFloat _) :: _ => Raise TypeError
  end.

(** Iterating a string gives its characters, none of which is a pair, so
    only the empty string goes through. *)
Definition dict_update_value (d : dict) (v : value) : result dict :=
  match v with
  | VDict src => Ok (Dict.update d src)
  | VList l => update_pairs d l
  | VStr EmptyString => Ok d
  | VStr _ => Raise ValueError
  | VNone | VBool _ | VInt _ | VFloat _ => Raise TypeError
  end.

(** [d[k]], raising [KeyError] on a missing key. *)
Definition dict_item (d : dict) (k : string) : result value :=
  match Dict.get k d with
  | Some v => Ok v
  | None => Raise (KeyError k)
  end.

(** The environment names that [get_complete_url] reads the base URL from,
    in the order of its [or] chain. *)
Definition url_aliases : list string :=
  ["WATSONX_API_BASE"; "WATSONX_URL"; "WX_URL"; "WML_URL"].

Section Watsonx.
Context `{SecretManager} `{WatsonxCollaborators}.
Local Open Scope py_scope.

(** [IBMWatsonXAIConfig.transform_request]. The payload's ["parameters"]
    entry is the caller's [optional_params] object itself, so it holds the
    dictionary as the function leaves it. *)
Definition transform_request (model : string) (messages : list value)
    (optional_params litellm_params headers : dict) : result dict :=
  let provider := Str.before_slash model in
  prompt <- convert_watsonx_messages_to_prompt model messages provider [] ;;
  let '(extra_body_params, optional_params) :=
    Dict.pop "extra_body" (VDict []) optional_params in
  optional_params <- dict_update_value optional_params extra_body_params ;;
  '(watsonx_api_params, optional_params) <- _get_api_params optional_params ;;
  let '(moderations, optional_params) :=
    Dict.pop "moderations" (VDict []) optional_params in
  let payload :=
    [("input", VStr prompt);
     ("moderations", moderations);
     ("parameters", VDict optional_params)] in
  if negb (Str.startswith "deployment/" model)
  then
    let payload := Dict.set "model_id" (VStr model) payload in
    project_id <- dict_item watsonx_api_params "project_id" ;;
    Ok (Dict.set "project_id" project_id payload)
  else Ok payload.

(** [IBMWatsonXAIConfig.validate_environment]. *)
Definition validate_environment (headers : dict) (model : string)
    (messages : list value) (optional_params : dict)
    (api_key : option string) : result dict :=
  let headers :=
    [("Content-Type", VStr "application/json");
     ("Accept", VStr "application/json")] in
  let token :=
    match Dict.get "token" optional_params with
    | Some v => v
    | None => VNone
    end in
  if truthy token
  then Ok (Dict.set "Authorization" (VStr ("Bearer " ++ py_str token)) headers)
  else
    token <- _generate_watsonx_token api_key token ;;
    Ok (Dict.set "Authorization" (VStr ("Bearer " ++ token)) headers).

(** The base URL of [get_complete_url]: the [or] chain over the argument
    and the four environment names. *)
Definition resolve_url (api_base : option string) : option string :=
  or_ api_base
    (or_ (get_secret_str "WATSONX_API_BASE")
       (or_ (get_secret_str "WATSONX_URL")
          (or_ (get_secret_str "WX_URL")
             (get_secret_str "WML_URL")))).

Definition url_not_set : exn :=
  WatsonXAIError 401
    "Error: Watsonx URL not set. Set WATSONX_API_BASE in environment variables or pass in as parameter - 'api_base='.".

Definition space_id_required : exn :=
  WatsonXAIError 401
    "Error: space_id is required for models called using the 'deployment/' endpoint. Pass in the space_id as a parameter or set it in the WX_SPACE_ID environment variable.".

Definition is_none (o : option value) : bool :=
  match o with
  | None | Some VNone => true
  | Some _ => false
  end.

(** [IBMWatsonXAIConfig.get_complete_url]: the URL, and [optional_params]
    as the [pop] of ["api_version"] leaves it. *)
Definition get_complete_url (api_base : option string) (model : string)
    (optional_params : dict) (stream : value) : result (string * dict) :=
  match resolve_url api_base with
  | None => Raise url_not_set
  | Some url =>
      endpoint <-
        (if Str.startswith "deployment/" model
         then
           if is_none (Dict.get "space_id" optional_params)
           then Raise space_id_required
           else
             let deployment_id := Str.after_slash model in
             let endpoint :=
               if truthy stream
               then DEPLOYMENT_TEXT_GENERATION_STREAM
               else DEPLOYMENT_TEXT_GENERATION in
             Ok (Str.format_deployment_id endpoint deployment_id)
         else
           Ok (if truthy stream
               then TEXT_GENERATION_STREAM
               else TEXT_GENERATION)) ;;
      let url := Str.rstrip_slash url ++ endpoint in
      let '(api_version, optional_params) :=
        Dict.pop "api_version" (VStr WATSONX_DEFAULT_API_VERSION)
          optional_params in
      Ok (url ++ "?version=" ++ py_str api_version, optional_params)
  end.

End Watsonx.

(** The value of [optional_params.get("token")], and the three headers of
    [validate_environment] for a given [Authorization] value: the terms in
    which its properties are stated. *)
Definition token_of (optional_params : dict) : value :=
  match Dict.get "token" optional_params with
  | Some v => v
  | None => VNone
  end.

Definition json_headers (authorization : string) : dict :=
  [("Content-Type", VStr "application/json");
   ("Accept", VStr "application/json");
   ("Authorization", VStr authorization)].

(** ** The pass-through routes *)

(** What a route reads of the FastAPI [Request]: [request_json] is the
    outcome of [await request.json()], the parsed body or the exception that
    parsing an absent or malformed body raises. *)
Record Request : Type := {
  request_method : string;
  request_url : string;
  request_headers : list (string * string);
  request_query_params : list (string * string);
  request_json : result value
}.

(** What a route hands to [create_pass_through_route] and to the endpoint
    function it returns. *)
Record PassThroughCall : Type := {
  call_endpoint : string;
  call_target : string;
  call_custom_headers : dict;
  call_forward_headers : bool;
  call_stream : bool;
  call_query_params : option (list (string * string))
}.

(** The [httpx] URL operations and the credential lookup of
    [PassthroughEndpointRouter]. *)
Class PassThroughCollaborators : Type := {
  (** [httpx.URL(endpoint).path]. *)
  url_path : string -> string;
  (** [str(httpx.URL(base).copy_with(path=p))]. *)
  url_copy_with_path : string -> string -> string;
  (** [passthrough_endpoint_router.get_credentials(custom_llm_provider, region_name)]. *)
  get_credentials : string -> option string -> option string
}.

(** ["{}".format(x)] for an [Optional[str]]. *)
Definition format_opt (x : option string) : string :=
  match x with
  | Some s => s
  | None => "None"
  end.

(** [body.get(k)]: only a dictionary has the method. *)
Definition value_get (body : value) (k : string) : result value :=
  match body with
  | VDict d => Ok (match Dict.get k d with Some v => v | None => VNone end)
  | _ => Raise AttributeError
  end.

Section PassThrough.
Context `{SecretManager} `{PassThroughCollaborators}.
Local Open Scope py_scope.

(** The lines each route starts with: the path made to begin with a slash
    and put on the base URL. *)
Definition updated_url (base_target_url endpoint : string) : string :=
  let encoded_endpoint := url_path endpoint in
  let encoded_endpoint :=
    if negb (Str.startswith "/" encoded_endpoint)
    then "/" ++ encoded_endpoint
    else encoded_endpoint in
  url_copy_with_path base_target_url encoded_endpoint.

Definition anthropic_proxy_route (endpoint : string) (request : Request)
  : result PassThroughCall :=
  let base_target_url := "https://api.anthropic.com" in
  let updated_url := updated_url base_target_url endpoint in
  let anthropic_api_key := get_credentials "anthropic" None in
  is_streaming_request <-
    (if request_method request =? "POST"
     then
       _request_body <- request_json request ;;
       stream <- value_get _request_body "stream" ;;
       Ok (truthy stream)
     else Ok false) ;;
  Ok {| call_endpoint := endpoint;
        call_target := updated_url;
        call_custom_headers := [("x-api-key", VStr (format_opt anthropic_api_key))];
        call_forward_headers := true;
        call_stream := is_streaming_request;
        call_query_params := None |}.

Definition assemblyai_proxy_route (endpoint : string) (request : Request)
  : result PassThroughCall :=
  let is_eu_route := Str.contains "eu.assemblyai" (request_url request) in
  let base_target_url :=
    if is_eu_route
    then "https://api.eu.assemblyai.com"
    else "https://api.assemblyai.com" in
  let updated_url := updated_url base_target_url endpoint in
  let assemblyai_api_key :=
    get_credentials "assemblyai" (if is_eu_route then Some "eu" else None) in
  is_streaming_request <-
    (if request_method request =? "POST"
     then
       _request_body <- request_json request ;;
       stream <- value_get _request_body "stream" ;;
       Ok (truthy stream)
     else Ok false) ;;
  Ok {| call_endpoint := endpoint;
        call_target := updated_url;
        call_custom_headers := [("Authorization", VStr (format_opt assemblyai_api_key))];
        call_forward_headers := false;
        call_stream := is_streaming_request;
        call_query_params := None |}.

Definition _base_openai_pass_through_handler (endpoint : string)
    (request : Request) (base_target_url api_key : string)
  : result PassThroughCall :=
  let updated_url := updated_url base_target_url endpoint in
  let is_streaming_request := Str.contains "stream" updated_url in
  Ok {| call_endpoint := endpoint;
        call_target := updated_url;
        call_custom_headers :=
          [("authorization", VStr ("Bearer " ++ api_key));
           ("api-key", VStr api_key)];
        call_forward_headers := false;
        call_stream := is_streaming_request;
        call_query_params := Some (request_query_params request) |}.

Definition azure_proxy_route (endpoint : string) (request : Request)
  : result PassThroughCall :=
  match get_secret_str "AZURE_API_BASE" with
  | None =>
      Raise (Exception "Required 'AZURE_API_BASE' in environment to make pass-through calls to Azure.")
  | Some base_target_url =>
      match get_credentials "azure" None with
      | None =>
          Raise (Exception "Required 'AZURE_API_KEY' in environment to make pass-through calls to Azure.")
      | Some azure_api_key =>
          _base_openai_pass_through_handler endpoint request
            base_target_url azure_api_key
      end
  end.

Definition openai_proxy_route (endpoint : string) (request : Request)
  : result PassThroughCall :=
  let base_target_url := "https://api.openai.com" in
  match get_credentials "openai" None with
  | None =>
      Raise (Exception "Required 'OPENAI_API_KEY' in environment to make pass-through calls to OpenAI.")
  | Some openai_api_key =>
      _base_openai_pass_through_handler endpoint request
        base_target_url openai_api_key
  end.

(** The routes that read the [stream] flag in the body. *)
Definition body_flag_route
    (route : string -> Request -> result PassThroughCall) : Prop :=
  route = anthropic_proxy_route \/ route = assemblyai_proxy_route.

End PassThrough.

(** ** The secret helpers of [encrypt_decrypt_utils.py] *)

(** A Python [str] is a sequence of code points, each at most [0x10FFFF];
    [bytes] are a [string], a sequence of 8-bit characters. *)
Definition pystr : Type := list N.
Definition bytes : Type := string.

(** The [str] of a literal whose characters are ASCII. *)
Definition pystr_of_string (s : string) : pystr :=
  map N_of_ascii (list_ascii_of_string s).

Module Utf8.

Definition is_surrogate (c : N) : bool := ((55296 <=? c) && (c <=? 57343))%N.

(** The bytes of one code point; the strict codec refuses a surrogate. *)
Definition encode_point (c : N) : result bytes :=
  (if c <? 128 then Ok (String (ascii_of_N c) EmptyString)
   else if c <? 2048 then
     Ok (String (ascii_of_N (192 + c / 64))
          (String (ascii_of_N (128 + c mod 64)) EmptyString))
   else if c <? 65536 then
     if is_surrogate c then Raise UnicodeEncodeError
     else
       Ok (String (ascii_of_N (224 + c / 4096))
            (String (ascii_of_N (128 + (c / 64) mod 64))
               (String (ascii_of_N (128 + c mod 64)) EmptyString)))
   else if c <? 1114112 then
     Ok (String (ascii_of_N (240 + c / 262144))
          (String (ascii_of_N (128 + (c / 4096) mod 64))
             (String (ascii_of_N (128 + (c / 64) mod 64))
                (String (ascii_of_N (128 + c mod 64)) EmptyString))))
   else Raise UnicodeEncodeError)%N.

(** [s.encode("utf-8")]. *)
Fixpoint encode (s : pystr) : result bytes :=
  match s with
  | [] => Ok EmptyString
  | c :: s' =>
      match encode_point c, encode s' with
      | Ok b, Ok b' => Ok (b ++ b')
      | Raise e, _ => Raise e
      | _, Raise e => Raise e
      end
  end.

(** The payload of a continuation byte [10xxxxxx]. *)
Definition continuation (c : ascii) : option N :=
  let n := N_of_ascii c in
  (if (128 <=? n) && (n <? 192) then Some (n - 128) else None)%N.

Definition cons_point (c : N) (r : result pystr) : result pystr :=
  match r with
  | Ok s => Ok (c :: s)
  | Raise e => Raise e
  end.

(** [b.decode("utf-8")]: the strict decoder, which refuses overlong forms,
    surrogates and code points above [0x10FFFF]. *)
Fixpoint decode (b : bytes) : result pystr :=
  match b with
  | EmptyString => Ok []
  | String c0 r0 =>
      let n0 := N_of_ascii c0 in
      (if n0 <? 128 then cons_point n0 (decode r0)
       else if n0 <? 194 then Raise UnicodeDecodeError
       else if n0 <? 224 then
         match r0 with
         | String c1 r1 =>
             match continuation c1 with
             | Some x1 => cons_point ((n0 - 192) * 64 + x1) (decode r1)
             | None => Raise UnicodeDecodeError
             end
         | _ => Raise UnicodeDecodeError
         end
       else if n0 <? 240 then
         match r0 with
         | String c1 (String c2 r2) =>
             match continuation c1, continuation c2 with
             | Some x1, Some x2 =>
                 let c := (n0 - 224) * 4096 + x1 * 64 + x2 in
                 if (c <? 2048) || is_surrogate c
                 then Raise UnicodeDecodeError
                 else cons_point c (decode r2)
             | _, _ => Raise UnicodeDecodeError
             end
         | _ => Raise UnicodeDecodeError
         end
       else if n0 <? 245 then
         match r0 with
         | String c1 (String c2 (String c3 r3)) =>
             match continuation c1, continuation c2, continuation c3 with
             | Some x1, Some x2, Some x3 =>
                 let c := (n0 - 240) * 262144 + x1 * 4096 + x2 * 64 + x3 in
                 if (c <? 65536) || (1114111 <? c)
                 then Raise UnicodeDecodeError
                 else cons_point c (decode r3)
             | _, _, _ => Raise UnicodeDecodeError
             end
         | _ => Raise UnicodeDecodeError
         end
       else Raise UnicodeDecodeError)%N
  end.

(** The code points that UTF-8 can encode: the Unicode scalar values. *)
Definition is_scalar (c : N) : bool :=
  ((c <? 1114112) && negb (is_surrogate c))%N.

(** Bytes that are all ASCII characters. *)
Fixpoint ascii_only (b : bytes) : bool :=
  match b with
  | EmptyString => true
  | String c b' => (N_of_ascii c <? 128)%N && ascii_only b'
  end.

(** [s.encode("ascii")], as [base64.b64decode] does to a [str] argument. *)
Fixpoint encode_ascii (s : pystr) : result bytes :=
  match s with
  | [] => Ok EmptyString
  | c :: s' =>
      if (c <? 128)%N
      then match encode_ascii s' with
           | Ok b => Ok (String (ascii_of_N c) b)
           | Raise e => Raise e
           end
      else Raise ValueError
  end.

End Utf8.

Module Base64.

(** The character of a 6-bit group. *)
Definition char (n : N) : ascii :=
  (if n <? 26 then ascii_of_N (65 + n)
   else if n <? 52 then ascii_of_N (97 + (n - 26))
   else if n <? 62 then ascii_of_N (48 + (n - 52))
   else if n =? 62 then "+"%char
   else "/"%char)%N.

(** The 6-bit group of a character of the alphabet. *)
Definition index (c : ascii) : option N :=
  let n := N_of_ascii c in
  (if (65 <=? n) && (n <=? 90) then Some (n - 65)
   else if (97 <=? n) && (n <=? 122) then Some (n - 97 + 26)
   else if (48 <=? n) && (n <=? 57) then Some (n - 48 + 52)
   else if n =? 43 then Some 62
   else if n =? 47 then Some 63
   else None)%N.

(** [base64.b64encode(b)]. *)
Fixpoint b64encode (b : bytes) : bytes :=
  match b with
  | EmptyString => EmptyString
  | String a EmptyString =>
      let x := N_of_ascii a in
      (String (char (x / 4)) (String (char ((x mod 4) * 16)) "=="))%N
  | String a (String b EmptyString) =>
      let x := N_of_ascii a in
      let y := N_of_ascii b in
      (String (char (x / 4))
         (String (char ((x mod 4) * 16 + y / 16))
            (String (char ((y mod 16) * 4)) "=")))%N
  | String a (String b (String c r)) =>
      let x := N_of_ascii a in
      let y := N_of_ascii b in
      let z := N_of_ascii c in
      (String (char (x / 4))
         (String (char ((x mod 4) * 16 + y / 16))
            (String (char ((y mod 16) * 4 + z / 64))
               (String (char (z mod 64)) (b64encode r)))))%N
  end.

(** The state of [binascii.a2b_base64]: position in the group of four,
    bits left from the characters read, padding seen, bytes written
    (latest first). *)
Record state : Type := {
  quad_pos : N;
  leftchar : N;
  pads : N;
  bin_data : list ascii
}.

(** The decoding loop in its default, non-strict mode: a character outside
    the alphabet is skipped, and padding that completes a group ends the
    input ([goto done], the [true] below). *)
Fixpoint a2b_loop (st : state) (s : bytes) : bool * state :=
  match s with
  | EmptyString => (false, st)
  | String this_ch s' =>
      if Ascii.eqb this_ch "=" then
        if (2 <=? quad_pos st)%N then
          let st := {| quad_pos := quad_pos st; leftchar := leftchar st;
                       pads := pads st + 1; bin_data := bin_data st |} in
          if (4 <=? quad_pos st + pads st)%N
          then (true, st)
          else a2b_loop st s'
        else a2b_loop st s'
      else
        match index this_ch with
        | None => a2b_loop st s'
        | Some v =>
            (if quad_pos st =? 0 then
               a2b_loop {| quad_pos := 1; leftchar := v; pads := 0;
                           bin_data := bin_data st |} s'
             else if quad_pos st =? 1 then
               a2b_loop {| quad_pos := 2; leftchar := v mod 16; pads := 0;
                           bin_data :=
                             ascii_of_N (leftchar st * 4 + v / 16) :: bin_data st |} s'
             else if quad_pos st =? 2 then
               a2b_loop {| quad_pos := 3; leftchar := v mod 4; pads := 0;
                           bin_data :=
                             ascii_of_N (leftchar st * 16 + v / 4) :: bin_data st |} s'
             else
               a2b_loop {| quad_pos := 0; leftchar := 0; pads := 0;
                           bin_data :=
                             ascii_of_N (leftchar st * 64 + v) :: bin_data st |} s')%N
        end
  end.

(** [binascii.a2b_base64(s)]: input that ends inside a group is refused. *)
Definition a2b_base64 (s : bytes) : result bytes :=
  let '(done, st) :=
    a2b_loop {| quad_pos := 0; leftchar := 0; pads := 0; bin_data := [] |} s in
  if done || (quad_pos st =? 0)%N
  then Ok (string_of_list_ascii (rev (bin_data st)))
  else Raise BinasciiError.

(** [base64.b64decode(s)] for a [str] argument. *)
Definition b64decode (s : pystr) : result bytes :=
  match Utf8.encode_ascii s with
  | Ok b => a2b_base64 b
  | Raise e => Raise e
  end.

End Base64.

(** The cryptographic primitives: [hashlib.sha256(b).digest()] and the
    [encrypt] and [decrypt] methods of [nacl.secret.SecretBox(key)].
    [box_encrypt] takes the nonce that the library draws at random. *)
Class Crypto : Type := {
  sha256 : bytes -> bytes;
  box_encrypt : bytes -> bytes -> bytes -> bytes;
  box_decrypt : bytes -> bytes -> result bytes
}.

(** The process state read by [_get_salt_key]. *)
Class ProxyState : Type := {
  LITELLM_SALT_KEY : option pystr;
  master_key : option pystr
}.

(** The objects the helpers may be called with. *)
Inductive obj : Type :=
| OStr (s : pystr)
| OBytes (b : bytes)
| OInt (z : Z)
| ONone.

Section EncryptDecrypt.
Context `{Crypto} `{ProxyState}.
Local Open Scope py_scope.

Definition _get_salt_key : option pystr :=
  let salt_key := LITELLM_SALT_KEY in
  match salt_key with
  | None => master_key
  | Some _ => salt_key
  end.

(** [signing_key.encode()]: [None] has no such method. *)
Definition encode_key (signing_key : option pystr) : result bytes :=
  match signing_key with
  | Some k => Utf8.encode k
  | None => Raise AttributeError
  end.

Definition encrypt_value (value : pystr) (signing_key : option pystr)
    (nonce : bytes) : result bytes :=
  key_bytes <- encode_key signing_key ;;
  let hash_bytes := sha256 key_bytes in
  value_bytes <- Utf8.encode value ;;
  let encrypted := box_encrypt hash_bytes nonce value_bytes in
  Ok encrypted.

Definition decrypt_value (value : bytes) (signing_key : option pystr)
  : result pystr :=
  key_bytes <- encode_key signing_key ;;
  let hash_bytes := sha256 key_bytes in
  plaintext <- box_decrypt hash_bytes value ;;
  Utf8.decode plaintext.

Definition encrypt_value_helper (value : obj) (nonce : bytes) : result obj :=
  let signing_key := _get_salt_key in
  try_except
    (match value with
     | OStr value =>
         encrypted_value <- encrypt_value value signing_key nonce ;;
         encrypted_value <- Utf8.decode (Base64.b64encode encrypted_value) ;;
         Ok (OStr encrypted_value)
     | _ => Ok value
     end)
    (fun e => Raise e).

Definition decrypt_value_helper (value : obj) : result obj :=
  let signing_key := _get_salt_key in
  try_except
    (match value with
     | OStr value =>
         decoded_b64 <- Base64.b64decode value ;;
         value <- decrypt_value decoded_b64 signing_key ;;
         Ok (OStr value)
     | _ => Ok value
     end)
    (fun e => Ok ONone).

End EncryptDecrypt.

(** ** Sample collaborators

    Concrete collaborators on which the scenarios of the specification are
    run: an environment given as a list of entries, the endpoint paths of
    watsonx.ai, and a cipher that is no cipher at all. *)
Module Sample.

Fixpoint lookup (k : string) (env : list (string * string)) : option string :=
  match env with
  | [] => None
  | (k', v) :: env' => if k' =? k then Some v else lookup k env'
  end.

Definition secrets (env : list (string * string)) : SecretManager :=
  {| get_secret_str := fun name => lookup name env |}.

(** Credentials read from the parameters only: [project_id] is required. *)
Definition api_params (d : dict) : result (dict * dict) :=
  let '(project_id, d) := Dict.pop "project_id" VNone d in
  let '(space_id, d) := Dict.pop "space_id" VNone d in
  match project_id with
  | VNone => Raise (WatsonXAIError 401 "Error: Watsonx project_id not set.")
  | _ => Ok ([("project_id", project_id); ("space_id", space_id)], d)
  end.

(** The prompt is the content of the messages, one after the other. *)
Fixpoint prompt_of (messages : list value) : string :=
  match messages with
  | [] => ""
  | VDict m :: rest =>
      match Dict.get "content" m with
      | Some (VStr c) => c ++ prompt_of rest
      | _ => prompt_of rest
      end
  | _ :: rest => prompt_of rest
  end.

Definition issue_token (api_key : option string) (token : value) : result string :=
  match api_key with
  | Some k => Ok ("token-for-" ++ k)
  | None => Raise (WatsonXAIError 401 "Error: API key not set.")
  end.

Definition watsonx : WatsonxCollaborators :=
  {| _get_api_params := api_params;
     convert_watsonx_messages_to_prompt :=
       fun _ messages _ _ => Ok (prompt_of messages);
     _generate_watsonx_token := issue_token;
     WATSONX_DEFAULT_API_VERSION := "2024-03-13";
     TEXT_GENERATION := "/ml/v1/text/generation";
     TEXT_GENERATION_STREAM := "/ml/v1/text/generation_stream";
     DEPLOYMENT_TEXT_GENERATION :=
       "/ml/v1/deployments/{deployment_id}/text/generation";
     DEPLOYMENT_TEXT_GENERATION_STREAM :=
       "/ml/v1/deployments/{deployment_id}/text/generation_stream";
     py_repr := fun _ => "<object>" |}.

Definition pass_through (credentials : list (string * string))
  : PassThroughCollaborators :=
  {| url_path := fun endpoint => endpoint;
     url_copy_with_path := fun base path => base ++ path;
     get_credentials := fun provider _ => lookup provider credentials |}.

Definition post (body : result value) : Request :=
  {| request_method := "POST";
     request_url := "http://localhost:4000/anthropic/v1/messages";
     request_headers := [];
     request_query_params := [];
     request_json := body |}.

Definition get_ (body : result value) : Request :=
  {| request_method := "GET";
     request_url := "http://localhost:4000/anthropic/v1/models";
     request_headers := [];
     request_query_params := [];
     request_json := body |}.

(** The secret box that leaves the message as it is. *)
Definition plain_box : Crypto :=
  {| sha256 := fun b => b;
     box_encrypt := fun _ _ message => message;
     box_decrypt := fun _ message => Ok message |}.

Definition proxy (salt master : option pystr) : ProxyState :=
  {| LITELLM_SALT_KEY := salt; master_key := master |}.

End Sample.

(** ** The rest of [IBMWatsonXAIConfig] *)

(** [IBMWatsonXAIConfig.is_watsonx_text_param]. *)
Definition is_watsonx_text_param (param : string) : bool :=
  let text_generation_params :=
    ["decoding_method"; "max_new_tokens"; "min_new_tokens"; "length_penalty";
     "stop_sequences"; "top_k"; "repetition_penalty"; "truncate_input_tokens";
     "include_stop_sequences"; "return_options"; "random_seed"; "moderations";
     "decoding_method"; "min_tokens"] in
  existsb (String.eqb param) text_generation_params.


(** [IBMWatsonXAIConfig.get_mapped_special_auth_params]. *)
Definition get_mapped_special_auth_params : list (string * string) :=
  [("project", "watsonx_project");
   ("region_name", "watsonx_region_name");
   ("token", "watsonx_token")].

(** [mapped_params[param]], when [param in mapped_params]. *)
Fixpoint mapped_name (param : string) (mapped_params : list (string * string))
  : option string :=
  match mapped_params with
  | [] => None
  | (k, n) :: rest => if k =? param then Some n else mapped_name param rest
  end.

(** [IBMWatsonXAIConfig.map_special_auth_params]. *)
Definition map_special_auth_params (non_default_params optional_params : dict)
  : dict :=
  let mapped_params := get_mapped_special_auth_params in
  fold_left
    (fun optional_params kv =>
       match mapped_name (fst kv) mapped_params with
       | Some name => Dict.set name (snd kv) optional_params
       | None => optional_params
       end)
    non_default_params optional_params.

(** [IBMWatsonXAIConfig.get_eu_regions] and [get_us_regions]. *)
Definition get_eu_regions : list string := ["eu-de"; "eu-gb"].

Definition get_us_regions : list string := ["us-south"].

(** ** The other pass-through routes *)

(** A mapping from strings to strings, as [dict(request.query_params)] and
    the lower-cased [request.headers] are. *)
Module Query.

Fixpoint get (k : string) (q : list (string * string)) : option string :=
  match q with
  | [] => None
  | (k', v) :: q' => if k' =? k then Some v else get k q'
  end.

(** [q.update({k: v})]. *)
Fixpoint set (k v : string) (q : list (string * string))
  : list (string * string) :=
  match q with
  | [] => [(k, v)]
  | (k', v') :: q' => if k' =? k then (k, v) :: q' else (k', v') :: set k v q'
  end.

End Query.

(** [user_api_key_auth(request=..., api_key=...)]: the authentication of the
    gateway's own caller, which raises when it refuses the key. *)
Class GatewayAuth : Type := {
  user_api_key_auth : Request -> string -> result unit
}.

Section MoreRoutes.
Context `{SecretManager} `{PassThroughCollaborators} `{GatewayAuth}.
Local Open Scope py_scope.

(** [gemini_proxy_route]. The route passes no custom headers. *)
Definition gemini_proxy_route (endpoint : string) (request : Request)
  : result PassThroughCall :=
  let google_ai_studio_api_key :=
    or_ (Query.get "key" (request_query_params request))
        (Query.get "x-goog-api-key" (request_headers request)) in
  user_api_key_dict <-
    user_api_key_auth request ("Bearer " ++ format_opt google_ai_studio_api_key) ;;
  let base_target_url := "https://generativelanguage.googleapis.com" in
  let updated_url := updated_url base_target_url endpoint in
  match get_credentials "gemini" None with
  | None =>
      Raise (Exception "Required 'GEMINI_API_KEY' in environment to make pass-through calls to Google AI Studio.")
  | Some gemini_api_key =>
      let merged_params :=
        Query.set "key" gemini_api_key (request_query_params request) in
      let is_streaming_request := Str.contains "stream" updated_url in
      Ok {| call_endpoint := endpoint;
            call_target := updated_url;
            call_custom_headers := [];
            call_forward_headers := false;
            call_stream := is_streaming_request;
            call_query_params := Some merged_params |}
  end.

(** [cohere_proxy_route]. *)
Definition cohere_proxy_route (endpoint : string) (request : Request)
  : result PassThroughCall :=
  let base_target_url := "https://api.cohere.com" in
  let updated_url := updated_url base_target_url endpoint in
  let cohere_api_key := get_credentials "cohere" None in
  let is_streaming_request := Str.contains "stream" updated_url in
  Ok {| call_endpoint := endpoint;
        call_target := updated_url;
        call_custom_headers :=
          [("Authorization", VStr ("Bearer " ++ format_opt cohere_api_key))];
        call_forward_headers := false;
        call_stream := is_streaming_request;
        call_query_params := None |}.

End MoreRoutes.

(** [_is_bedrock_agent_runtime_route], on the routes of
    [BEDROCK_AGENT_RUNTIME_PASS_THROUGH_ROUTES]. *)
Definition _is_bedrock_agent_runtime_route (routes : list string)
    (endpoint : string) : bool :=
  existsb (fun _route => Str.contains _route endpoint) routes.

(** Sample authentication of the gateway's caller: every key is let in,
    or one key only. *)
Module Fixture.

Definition allow_all : GatewayAuth :=
  {| user_api_key_auth := fun _ _ => Ok tt |}.

Definition only (key : string) : GatewayAuth :=
  {| user_api_key_auth :=
       fun _ k => if k =? key then Ok tt
                  else Raise (Exception "Invalid proxy server token passed") |}.

Definition request_with (method : string)
    (query headers : list (string * string)) : Request :=
  {| request_method := method;
     request_url := "http://localhost:4000/gemini/v1beta/models";
     request_headers := headers;
     request_query_params := query;
     request_json := Raise JSONDecodeError |}.

End Fixture.

(** ** [PromptManagementBase] (integrations/prompt_management_base.py) *)

(** The abstract members of [PromptManagementBase], which an integration
    provides. *)
Class PromptManagement : Type := {
  integration_name : string;
  should_run_prompt_management : string -> dict -> bool;
  _compile_prompt_helper : string -> option dict -> result dict
}.

(** [a or b] on values. *)
Definition or_value (a b : value) : value := if truthy a then a else b.

(** [x + l] for a list [l]: concatenation when [x] is a list, [TypeError]
    for every other value. *)
Definition list_add (x : value) (l : list value) : result (list value) :=
  match x with
  | VList t => Ok (t ++ l)%list
  | _ => Raise TypeError
  end.

(** The dictionary display [{**a, **b}]: a new dictionary filled from [a] and
    then from [b]; [b] has to be a mapping. *)
Definition dict_display (a : dict) (b : value) : result dict :=
  match b with
  | VDict src => Ok (Dict.update (Dict.update [] a) src)
  | _ => Raise TypeError
  end.

Section PromptManagementBase.
Context `{PromptManagement}.

Definition compile_prompt (prompt_id : string) (prompt_variables : option dict)
    (client_messages : list value) : result dict :=
  (compiled_prompt_client <- _compile_prompt_helper prompt_id prompt_variables ;;
   prompt_template <- dict_item compiled_prompt_client "prompt_template" ;;
   messages <- list_add prompt_template client_messages ;;
   Ok (Dict.set "completed_messages" (VList messages) compiled_prompt_client))%py.

Definition _get_model_from_prompt (prompt_management_client : dict)
    (model : string) : result value :=
  (client_model <- dict_item prompt_management_client "model" ;;
   match client_model with
   | VNone => Ok (VStr (Str.replace_from O (integration_name ++ "/") "" model))
   | _ => Ok client_model
   end)%py.

Definition get_chat_completion_prompt (model : string) (messages : list value)
    (non_default_params : dict) (prompt_id : string)
    (prompt_variables : option dict) (dynamic_callback_params : dict)
  : result (value * value * dict) :=
  if negb (should_run_prompt_management prompt_id dynamic_callback_params)
  then Ok (VStr model, VList messages, non_default_params)
  else
    (prompt_template <- compile_prompt prompt_id prompt_variables messages ;;
     completed <- dict_item prompt_template "completed_messages" ;;
     let completed_messages := or_value completed (VList messages) in
     optional <- dict_item prompt_template "optional_params" ;;
     let prompt_template_optional_params := or_value optional (VDict []) in
     updated_non_default_params <-
       dict_display non_default_params prompt_template_optional_params ;;
     model <- _get_model_from_prompt prompt_template model ;;
     Ok (model, completed_messages, updated_non_default_params))%py.

End PromptManagementBase.

(** A sample integration named [langfuse] whose helper returns [client]. *)
Module PromptFixture.

Definition langfuse (run : bool) (client : result dict) : PromptManagement :=
  {| integration_name := "langfuse";
     should_run_prompt_management := fun _ _ => run;
     _compile_prompt_helper := fun _ _ => client |}.

Definition user_message (content : string) : value :=
  VDict [("role", VStr "user"); ("content", VStr content)].

Definition system_message (content : string) : value :=
  VDict [("role", VStr "system"); ("content", VStr content)].

End PromptFixture.

(** ** The cache routes (proxy/caching_routes.py) *)

(** What a cache route raises: FastAPI's [HTTPException] with its detail, the
    proxy's [ProxyException], or the exception of a call it makes. *)
Inductive route_exn : Type :=
| HTTPError (status_code : Z) (detail : string)
| ProxyException (message type_ param : string) (code : Z)
| Foreign (e : exn).

Inductive outcome (A : Type) : Type :=
| Returned (a : A)
| Raised (e : route_exn).
Arguments Returned {A} a.
Arguments Raised {A} e.

(** The calls that a route makes on [litellm.cache], which reach the cache
    server. *)
Inductive cache_call : Type :=
| ping_call
| async_add_cache_call (result_ model : string) (messages : list value)
| delete_cache_keys_call (keys : value)
| client_list_call
| info_call
| flushall_call.

(** A route computes the calls it made, in order, and its outcome. *)
Definition route (A : Type) : Type := list cache_call * outcome A.

Definition route_ret {A : Type} (a : A) : route A := ([], Returned a).

Definition route_raise {A : Type} (e : route_exn) : route A := ([], Raised e).

Definition route_bind {A B : Type} (m : route A) (k : A -> route B) : route B :=
  match m with
  | (made, Returned a) => let (more, r) := k a in ((made ++ more)%list, r)
  | (made, Raised e) => (made, Raised e)
  end.

(** [try: body  except Exception as e: handler e] in a route. *)
Definition route_try {A : Type} (body : route A)
    (handler : route_exn -> route A) : route A :=
  match body with
  | (made, Returned a) => (made, Returned a)
  | (made, Raised e) => let (more, r) := handler e in ((made ++ more)%list, r)
  end.

(** A computation that makes no call on the cache. *)
Definition lift {A : Type} (r : result A) : route A :=
  match r with
  | Ok a => route_ret a
  | Raise e => route_raise (Foreign e)
  end.

(** The call [c], with the result that the cache gives it. *)
Definition call {A : Type} (c : cache_call) (r : result A) : route A :=
  ([c], snd (lift r)).

Declare Scope route_scope.
Delimit Scope route_scope with route.
Notation "x <- c ;; k" := (route_bind c (fun x => k))
  (at level 61, c at next level, right associativity) : route_scope.

(** What the routes use of [litellm.cache]: its [type], compared with
    ["redis"] and printed by [str] and in an f-string, whether its inner
    [cache] is a [RedisCache], its truth value, the masked [vars] of both
    objects, and the result of each call on it. *)
Record Cache : Type := {
  type_ : string;
  type_str : string;
  type_format : string;
  is_redis_cache : bool;
  cache_truthy : bool;
  masked_vars : result dict;
  masked_inner_vars : result dict;
  ping : result value;
  async_add_cache : result unit;
  delete_cache_keys : value -> result unit;
  client_list : result (list value);
  info : result value;
  flushall : result unit
}.

(** The keyword arguments that [cache_ping] gives to [CachePingResponse]. *)
Record CachePingResponse : Type := {
  status : string;
  cache_type : string;
  ping_response : option bool;
  set_cache_response : option string;
  litellm_cache_params : option string;
  redis_cache_params : option string
}.

(** Printing, outside of this file: [str(e)] of an exception, [str(d)] and
    [json.dumps(d, default=str)] of a dictionary, [traceback.format_exc()]
    and [ProxyErrorTypes.cache_ping_error]. *)
Class RoutePrinting : Type := {
  str_exn : route_exn -> string;
  str_dict : dict -> string;
  json_dumps : dict -> string;
  format_exc : route_exn -> string;
  cache_ping_error : string
}.

Definition not_initialized : route_exn :=
  HTTPError 503 "Cache not initialized. litellm.cache is None".

Definition test_messages : list value :=
  [VDict [("role", VStr "user"); ("content", VStr "test from litellm")]].

Section CacheRoutes.
Context `{RoutePrinting}.

(** The [except] clause of [cache_ping], with the two dictionaries as they
    are when the exception is caught. *)
Definition cache_ping_failure (e : route_exn)
    (litellm_cache_params specific_cache_params : dict) : route_exn :=
  let error_message :=
    [("message", VStr ("Service Unhealthy (" ++ str_exn e ++ ")"));
     ("litellm_cache_params", VStr (str_dict litellm_cache_params));
     ("specific_cache_params", VStr (str_dict specific_cache_params));
     ("traceback", VStr (format_exc e))] in
  ProxyException (json_dumps error_message) cache_ping_error "cache_ping" 503.

Definition cache_ping (cache : option Cache) : route CachePingResponse :=
  match cache with
  | None => route_raise (cache_ping_failure not_initialized [] [])
  | Some c =>
      match masked_vars c with
      | Raise e => route_raise (cache_ping_failure (Foreign e) [] [])
      | Ok masked =>
          let litellm_cache_params := snd (Dict.pop "cache" VNone masked) in
          match (if cache_truthy c then masked_inner_vars c else Ok []) with
          | Raise e =>
              route_raise
                (cache_ping_failure (Foreign e) litellm_cache_params [])
          | Ok specific_cache_params =>
              route_try
                (if type_ c =? "redis"
                 then
                   (ping_response <- call ping_call (ping c) ;;
                    _ <- call (async_add_cache_call "test_key" "test-model"
                                 test_messages)
                           (async_add_cache c) ;;
                    route_ret
                      {| status := "healthy";
                         cache_type := type_str c;
                         ping_response := Some true;
                         set_cache_response := Some "success";
                         litellm_cache_params :=
                           Some (json_dumps litellm_cache_params);
                         redis_cache_params :=
                           Some (json_dumps specific_cache_params) |})%route
                 else
                   route_ret
                     {| status := "healthy";
                        cache_type := type_str c;
                        ping_response := None;
                        set_cache_response := None;
                        litellm_cache_params :=
                          Some (json_dumps litellm_cache_params);
                        redis_cache_params := None |})
                (fun e =>
                   route_raise
                     (cache_ping_failure e litellm_cache_params
                        specific_cache_params))
          end
      end
  end.

Definition cache_delete (cache : option Cache) (request : Request)
  : route value :=
  route_try
    (match cache with
     | None => route_raise not_initialized
     | Some c =>
         (request_data <- lift (request_json request) ;;
          keys <- lift (value_get request_data "keys") ;;
          if type_ c =? "redis"
          then
            _ <- call (delete_cache_keys_call keys) (delete_cache_keys c keys) ;;
            route_ret (VDict [("status", VStr "success")])
          else
            route_raise
              (HTTPError 500
                 ("Cache type " ++ type_format c
                  ++ " does not support deleting a key. only `redis` is supported")))%route
     end)
    (fun e =>
       route_raise
         (HTTPError 500 ("Cache Delete Failed(" ++ str_exn e ++ ")"))).

Definition cache_redis_info (cache : option Cache) : route value :=
  route_try
    (match cache with
     | None => route_raise not_initialized
     | Some c =>
         if (type_ c =? "redis") && is_redis_cache c
         then
           (client_list <- call client_list_call (client_list c) ;;
            redis_info <- call info_call (info c) ;;
            let num_clients := Z.of_nat (List.length client_list) in
            route_ret
              (VDict [("num_clients", VInt num_clients);
                      ("clients", VList client_list);
                      ("info", redis_info)]))%route
         else
           route_raise
             (HTTPError 500
                ("Cache type " ++ type_format c ++ " does not support flushing"))
     end)
    (fun e =>
       route_raise (HTTPError 503 ("Service Unhealthy (" ++ str_exn e ++ ")"))).

Definition cache_flushall (cache : option Cache) : route value :=
  route_try
    (match cache with
     | None => route_raise not_initialized
     | Some c =>
         if (type_ c =? "redis") && is_redis_cache c
         then
           (_ <- call flushall_call (flushall c) ;;
            route_ret (VDict [("status", VStr "success")]))%route
         else
           route_raise
             (HTTPError 500
                ("Cache type " ++ type_format c ++ " does not support flushing"))
     end)
    (fun e =>
       route_raise (HTTPError 503 ("Service Unhealthy (" ++ str_exn e ++ ")"))).

End CacheRoutes.

(** A sample of the printing functions and of a cache on which every call
    succeeds. *)
Module CacheFixture.

Definition printing : RoutePrinting :=
  {| str_exn := fun e =>
       match e with
       | HTTPError code detail => Str.of_Z code ++ ": " ++ detail
       | ProxyException message _ _ _ => message
       | Foreign _ => "error"
       end;
     str_dict := fun _ => "{}";
     json_dumps := fun _ => "{}";
     format_exc := fun _ => "Traceback (most recent call last)";
     cache_ping_error := "cache_ping_error" |}.

Definition cache (kind : string) (redis : bool) : Cache :=
  {| type_ := kind;
     type_str := kind;
     type_format := kind;
     is_redis_cache := redis;
     cache_truthy := true;
     masked_vars := Ok [("type", VStr kind); ("cache", VStr "<cache>")];
     masked_inner_vars := Ok [];
     ping := Ok (VBool true);
     async_add_cache := Ok tt;
     delete_cache_keys := fun _ => Ok tt;
     client_list := Ok [];
     info := Ok (VDict []);
     flushall := Ok tt |}.

Definition body (data : result value) : Request :=
  {| request_method := "POST";
     request_url := "http://0.0.0.0:4000/cache/delete";
     request_headers := [];
     request_query_params := [];
     request_json := data |}.

End CacheFixture.

(** * Properties *)

(** ** Dictionaries *)

Module DictFacts.

Lemma get_set_same k v d : Dict.get k (Dict.set k v d) = Some v.
Proof.
  induction d as [|[k' v'] d IH]; simpl.
  - now rewrite String.eqb_refl.
  - destruct (k' =? k) eqn:E; simpl.
    + now rewrite String.eqb_refl.
    + now rewrite E.
Qed.

Lemma get_set_other k k' v d :
  k <> k' -> Dict.get k' (Dict.set k v d) = Dict.get k' d.
Proof.
  intros Hne. induction d as [|[k0 v0] d IH]; simpl.
  - apply String.eqb_neq in Hne. now rewrite Hne.
  - destruct (k0 =? k) eqn:E; simpl.
    + apply String.eqb_eq in E. subst k0.
      apply String.eqb_neq in Hne. now rewrite Hne.
    + now rewrite IH.
Qed.

Lemma get_remove_same k d : Dict.get k (Dict.remove k d) = None.
Proof.
  unfold Dict.remove. induction d as [|[k' v'] d IH]; simpl; trivial.
  destruct (k' =? k) eqn:E; simpl; trivial. now rewrite E.
Qed.

Lemma get_remove_other k k' d :
  k <> k' -> Dict.get k' (Dict.remove k d) = Dict.get k' d.
Proof.
  intros Hne. unfold Dict.remove.
  induction d as [|[k0 v0] d IH]; simpl; trivial.
  destruct (k0 =? k) eqn:E; simpl.
  - apply String.eqb_eq in E. subst k0.
    apply String.eqb_neq in Hne. now rewrite Hne.
  - now rewrite IH.
Qed.

Lemma get_pop_other k k' default d :
  k <> k' -> Dict.get k' (snd (Dict.pop k default d)) = Dict.get k' d.
Proof.
  intros Hne. unfold Dict.pop.
  destruct (Dict.get k d); simpl; trivial. now apply get_remove_other.
Qed.

Lemma get_pop_same k default d :
  Dict.get k (snd (Dict.pop k default d)) = None.
Proof.
  unfold Dict.pop. destruct (Dict.get k d) eqn:E; simpl; trivial.
  apply get_remove_same.
Qed.

Lemma get_update_absent k d src :
  Dict.get k src = None -> Dict.get k (Dict.update d src) = Dict.get k d.
Proof.
  unfold Dict.update. revert d.
  induction src as [|[k0 v0] src IH]; intros d Hk; simpl in *; trivial.
  destruct (k0 =? k) eqn:E; [discriminate|].
  rewrite IH by assumption. apply get_set_other. now apply String.eqb_neq.
Qed.

Lemma get_In k v d : Dict.get k d = Some v -> In (k, v) d.
Proof.
  induction d as [|[k0 v0] d IH]; simpl; [discriminate|].
  destruct (k0 =? k) eqn:E.
  - apply String.eqb_eq in E. intros [= ->]. left. now subst.
  - intros Hg. right. auto.
Qed.

End DictFacts.

(** ** Results and strings *)

Lemma Ok_inj {A : Type} (a b : A) : Ok a = Ok b -> a = b.
Proof. now intros [= ->]. Qed.

Lemma append_assoc_l (a b c : string) : a ++ b ++ c = (a ++ b) ++ c.
Proof.
  induction a as [|x a IH]; [reflexivity|]. cbn [append]. now rewrite IH.
Qed.

(** ** The parameter mapping *)

Lemma map_openai_param_table st k v :
  map_openai_param st (k, v) =
    match top_level_name k, extra_body_name k with
    | Some n, _ => (Dict.set n v (fst st), snd st)
    | None, Some n => (fst st, Dict.set n v (snd st))
    | None, None => st
    end.
Proof.
  destruct st as [op eb]. unfold map_openai_param, top_level_name, extra_body_name.
  repeat match goal with
         | |- context [String.eqb k ?b] =>
             destruct (String.eqb k b) eqn:?; [reflexivity|]
         end.
  reflexivity.
Qed.

Lemma top_level_name_inj k1 k2 n :
  top_level_name k1 = Some n -> top_level_name k2 = Some n -> k1 = k2.
Proof.
  unfold top_level_name.
  repeat match goal with
         | |- context [String.eqb k1 ?b] =>
             let E := fresh "E" in
             destruct (String.eqb k1 b) eqn:E; [apply String.eqb_eq in E|]
         end;
  repeat match goal with
         | |- context [String.eqb k2 ?b] =>
             let E := fresh "E" in
             destruct (String.eqb k2 b) eqn:E; [apply String.eqb_eq in E|]
         end;
  intros H1 H2; try discriminate; try congruence.
Qed.

Lemma extra_body_name_inj k1 k2 n :
  extra_body_name k1 = Some n -> extra_body_name k2 = Some n -> k1 = k2.
Proof.
  unfold extra_body_name.
  repeat match goal with
         | |- context [String.eqb k1 ?b] =>
             let E := fresh "E" in
             destruct (String.eqb k1 b) eqn:E; [apply String.eqb_eq in E|]
         end;
  repeat match goal with
         | |- context [String.eqb k2 ?b] =>
             let E := fresh "E" in
             destruct (String.eqb k2 b) eqn:E; [apply String.eqb_eq in E|]
         end;
  intros H1 H2; try discriminate; try congruence.
Qed.

Section MappingLoop.

Implicit Types (l : dict) (st : dict * dict) (k n : string) (v : value).

Lemma loop_top_frame l st n :
  (forall k v, In (k, v) l -> top_level_name k <> Some n) ->
  Dict.get n (fst (fold_left map_openai_param l st)) = Dict.get n (fst st).
Proof.
  revert st. induction l as [|[k v] l IH]; intros st Hl; simpl; trivial.
  rewrite IH by (intros; eapply Hl; right; eassumption).
  rewrite map_openai_param_table.
  destruct (top_level_name k) as [m|] eqn:Et.
  - simpl. apply DictFacts.get_set_other. intros ->.
    now apply (Hl k v); [left|].
  - now destruct (extra_body_name k).
Qed.

Lemma loop_extra_frame l st n :
  (forall k v, In (k, v) l -> extra_body_name k <> Some n) ->
  Dict.get n (snd (fold_left map_openai_param l st)) = Dict.get n (snd st).
Proof.
  revert st. induction l as [|[k v] l IH]; intros st Hl; simpl; trivial.
  rewrite IH by (intros; eapply Hl; right; eassumption).
  rewrite map_openai_param_table.
  destruct (top_level_name k) as [m|] eqn:Et; trivial.
  destruct (extra_body_name k) as [m|] eqn:Ee; trivial.
  simpl. apply DictFacts.get_set_other. intros ->.
  now apply (Hl k v); [left|].
Qed.

Lemma top_extra_disjoint k n :
  top_level_name k = Some n -> extra_body_name k = None.
Proof.
  unfold top_level_name, extra_body_name.
  repeat match goal with
         | |- context [String.eqb k ?b] =>
             let E := fresh "E" in
             destruct (String.eqb k b) eqn:E; [apply String.eqb_eq in E; subst k|]
         end; simpl; congruence.
Qed.

Lemma loop_top_written l st k v n :
  NoDup (Dict.keys l) -> In (k, v) l -> top_level_name k = Some n ->
  Dict.get n (fst (fold_left map_openai_param l st)) = Some v.
Proof.
  revert st. induction l as [|[k0 v0] l IH]; intros st Hnd Hin Hn; [easy|].
  simpl in Hnd. inversion Hnd as [|? ? Hnotin Hnd']; subst.
  destruct Hin as [[= -> ->]|Hin]; simpl.
  - rewrite loop_top_frame.
    + rewrite map_openai_param_table, Hn. simpl. apply DictFacts.get_set_same.
    + intros k' v' Hin' Hk'. apply Hnotin.
      rewrite (top_level_name_inj k k' n Hn Hk').
      now apply (in_map fst) in Hin'.
  - now apply IH.
Qed.

Lemma loop_extra_written l st k v n :
  NoDup (Dict.keys l) -> In (k, v) l -> extra_body_name k = Some n ->
  Dict.get n (snd (fold_left map_openai_param l st)) = Some v.
Proof.
  revert st. induction l as [|[k0 v0] l IH]; intros st Hnd Hin Hn; [easy|].
  simpl in Hnd. inversion Hnd as [|? ? Hnotin Hnd']; subst.
  destruct Hin as [[= -> ->]|Hin]; simpl.
  - rewrite loop_extra_frame.
    + rewrite map_openai_param_table, Hn.
      destruct (top_level_name k) as [m|] eqn:Et.
      * apply top_extra_disjoint in Et. congruence.
      * simpl. apply DictFacts.get_set_same.
    + intros k' v' Hin' Hk'. apply Hnotin.
      rewrite (extra_body_name_inj k k' n Hn Hk').
      now apply (in_map fst) in Hin'.
  - now apply IH.
Qed.

Lemma loop_extra_untouched l st :
  (forall k, In k (Dict.keys l) -> extra_body_name k = None) ->
  snd (fold_left map_openai_param l st) = snd st.
Proof.
  revert st. induction l as [|[k v] l IH]; intros st Hl; simpl; trivial.
  rewrite IH by (intros; apply Hl; now right).
  rewrite map_openai_param_table, (Hl k) by now left.
  now destruct (top_level_name k).
Qed.

Lemma top_level_name_not_extra_body k : top_level_name k <> Some "extra_body".
Proof.
  unfold top_level_name.
  repeat match goal with
         | |- context [String.eqb k ?b] => destruct (String.eqb k b)
         end; discriminate.
Qed.

Lemma top_level_name_not_extra k k' n :
  extra_body_name k' = Some n -> top_level_name k <> Some n.
Proof.
  unfold top_level_name, extra_body_name.
  repeat match goal with
         | |- context [String.eqb k' ?b] => destruct (String.eqb k' b)
         end; try discriminate; intros [= <-];
  repeat match goal with
         | |- context [String.eqb k ?b] => destruct (String.eqb k b)
         end; discriminate.
Qed.

Lemma extra_body_name_not_extra_body k n :
  extra_body_name k = Some n -> n <> "extra_body".
Proof.
  unfold extra_body_name.
  repeat match goal with
         | |- context [String.eqb k ?b] => destruct (String.eqb k b)
         end; try discriminate; intros [= <-]; discriminate.
Qed.

Lemma loop_extra_origin l st n v :
  Dict.get n (snd (fold_left map_openai_param l st)) = Some v ->
  Dict.get n (snd st) = Some v \/
  exists k, In (k, v) l /\ extra_body_name k = Some n.
Proof.
  revert st. induction l as [|[k0 v0] l IH]; intros st Hg; simpl in *; auto.
  apply IH in Hg. destruct Hg as [Hg|(k & Hin & Hk)]; [|right; eauto].
  rewrite map_openai_param_table in Hg.
  destruct (top_level_name k0) as [m|]; auto.
  destruct (extra_body_name k0) as [m|] eqn:Ee; auto.
  simpl in Hg. destruct (String.eqb m n) eqn:E.
  - apply String.eqb_eq in E. subst m.
    rewrite DictFacts.get_set_same in Hg. injection Hg as ->.
    right. exists k0. auto.
  - apply String.eqb_neq in E.
    rewrite DictFacts.get_set_other in Hg by assumption. auto.
Qed.

(** What [map_openai_params] returns, in terms of the two dictionaries
    the loop leaves. *)
Lemma map_openai_params_unfold ndp op model drop :
  map_openai_params ndp op model drop =
    let st := fold_left map_openai_param ndp (op, []) in
    match snd st with
    | [] => fst st
    | _ :: _ => Dict.set "extra_body" (VDict (snd st)) (fst st)
    end.
Proof.
  unfold map_openai_params, map_openai_params_loop.
  destruct (fold_left map_openai_param ndp (op, [])) as [op' eb]. simpl.
  now destruct eb.
Qed.

End MappingLoop.

(** C8. Whatever value [frequency_penalty] is passed with, the mapped
    parameters hold exactly that value under [repetition_penalty]: the value is
    copied, not converted or rescaled. *)
Theorem frequency_penalty_copied (v : value) (non_default_params optional_params : dict)
    (model : string) (drop_params : bool) :
  NoDup (Dict.keys non_default_params) ->
  In ("frequency_penalty", v) non_default_params ->
  Dict.get "repetition_penalty"
    (map_openai_params non_default_params optional_params model drop_params)
  = Some v.
Proof.
  intros Hnd Hin. rewrite map_openai_params_unfold. cbv zeta.
  assert (Hw : Dict.get "repetition_penalty"
                 (fst (fold_left map_openai_param non_default_params
                         (optional_params, []))) = Some v)
    by (eapply loop_top_written; eauto).
  destruct (snd _); trivial.
  rewrite DictFacts.get_set_other by discriminate. exact Hw.
Qed.

Lemma frequency_penalty_copied_witness :
  Dict.get "repetition_penalty"
    (map_openai_params
       [("temperature", VFloat 0.5); ("frequency_penalty", VFloat 1.5);
        ("top_k", VInt 40)]
       [("repetition_penalty", VInt 1)] "ibm/granite-13b" false)
  = Some (VFloat 1.5).
Proof.
  apply frequency_penalty_copied.
  - repeat constructor; simpl; intuition discriminate.
  - simpl. tauto.
Defined.

(** C3, as the code has it. The parameters whose destination is the extra
    body are gathered in one object, stored under the one key [extra_body]
    and not at the top level, and that object holds nothing else. When no
    passed key maps to an extra-body field the function attaches nothing: the
    [extra_body] entry of the result is the one [optional_params] came with,
    if it came with one. The function itself never attaches an empty
    object. *)
Theorem extra_body_single_object (non_default_params optional_params : dict)
    (model : string) (drop_params : bool) :
  NoDup (Dict.keys non_default_params) ->
  let mapped :=
    map_openai_params non_default_params optional_params model drop_params in
  (forall k v n,
      In (k, v) non_default_params -> extra_body_name k = Some n ->
      (exists extra_body,
          Dict.get "extra_body" mapped = Some (VDict extra_body) /\
          Dict.get n extra_body = Some v /\
          (forall n' v', Dict.get n' extra_body = Some v' ->
             exists k', In (k', v') non_default_params /\
                        extra_body_name k' = Some n')) /\
      Dict.get n mapped = Dict.get n optional_params)
  /\ ((forall k, In k (Dict.keys non_default_params) -> extra_body_name k = None) ->
      mapped = fst (map_openai_params_loop non_default_params optional_params)
      /\ Dict.get "extra_body" mapped = Dict.get "extra_body" optional_params)
  /\ (Dict.get "extra_body" optional_params = None ->
      (forall k, In k (Dict.keys non_default_params) -> extra_body_name k = None) ->
      Dict.get "extra_body" mapped = None)
  /\ (Dict.get "extra_body" mapped = Some (VDict []) ->
      Dict.get "extra_body" optional_params = Some (VDict [])
      /\ forall k, In k (Dict.keys non_default_params) -> extra_body_name k = None).
Proof.
  intros Hnd mapped. subst mapped. rewrite map_openai_params_unfold. cbv zeta.
  unfold map_openai_params_loop.
  set (st := fold_left map_openai_param non_default_params (optional_params, [])).
  assert (Hframe : forall n, (forall k, top_level_name k <> Some n) ->
                        Dict.get n (fst st) = Dict.get n optional_params).
  { intros n Hn. unfold st. now rewrite loop_top_frame by (intros; apply Hn). }
  assert (Hkeep : (forall k, In k (Dict.keys non_default_params) ->
                             extra_body_name k = None) -> snd st = []).
  { intros Hnone. unfold st. now rewrite loop_extra_untouched. }
  split; [|split; [|split]].
  - intros k v n Hin Hk. split.
    + pose proof (loop_extra_written non_default_params (optional_params, [])
                    k v n Hnd Hin Hk) as Hw.
      fold st in Hw.
      destruct (snd st) as [|kv eb] eqn:Es; [discriminate|].
      exists (kv :: eb). rewrite DictFacts.get_set_same.
      split; [reflexivity|]. split; [exact Hw|].
      intros n' v' Hg. rewrite <- Es in Hg. unfold st in Hg.
      apply loop_extra_origin in Hg.
      destruct Hg as [Hg|Hg]; [discriminate|exact Hg].
    + assert (Hn : Dict.get n (fst st) = Dict.get n optional_params)
        by (apply Hframe; intros k0; now apply (top_level_name_not_extra k0 k n)).
      destruct (snd st); trivial.
      rewrite DictFacts.get_set_other; trivial.
      intros E. symmetry in E. revert E.
      now apply (extra_body_name_not_extra_body k).
  - intros Hnone. rewrite (Hkeep Hnone). split; [reflexivity|].
    apply Hframe, top_level_name_not_extra_body.
  - intros Hop Hnone. rewrite (Hkeep Hnone).
    rewrite Hframe by apply top_level_name_not_extra_body. exact Hop.
  - destruct (snd st) as [|kv eb] eqn:Es.
    + rewrite Hframe by apply top_level_name_not_extra_body.
      intros Hop. split; [exact Hop|].
      intros k Hk. destruct (extra_body_name k) as [n|] eqn:Ek; trivial.
      apply in_map_iff in Hk. destruct Hk as ([k0 v] & Hfst & Hin).
      simpl in Hfst. subst k0.
      pose proof (loop_extra_written non_default_params (optional_params, [])
                    k v n Hnd Hin Ek) as Hw.
      fold st in Hw. rewrite Es in Hw. discriminate.
    + rewrite DictFacts.get_set_same. discriminate.
Qed.

Lemma extra_body_single_object_witness :
  let mapped :=
    map_openai_params
      [("temperature", VFloat 0.5); ("top_k", VInt 40); ("min_tokens", VInt 2)]
      [] "ibm/granite-13b" false in
  (exists extra_body,
      Dict.get "extra_body" mapped = Some (VDict extra_body) /\
      Dict.get "top_k" extra_body = Some (VInt 40)) /\
  Dict.get "top_k" mapped = None /\
  Dict.get "extra_body"
    (map_openai_params [("temperature", VFloat 0.5)] [] "ibm/granite-13b" false)
  = None.
Proof.
  pose proof (extra_body_single_object
                [("temperature", VFloat 0.5); ("top_k", VInt 40); ("min_tokens", VInt 2)]
                [] "ibm/granite-13b" false) as H1.
  pose proof (extra_body_single_object
                [("temperature", VFloat 0.5)] [] "ibm/granite-13b" false) as H2.
  cbv zeta in *.
  destruct H1 as (Hin & _).
  { repeat constructor; simpl; intuition discriminate. }
  destruct H2 as (_ & _ & Hnone & _).
  { repeat constructor; simpl; intuition discriminate. }
  destruct (Hin "top_k" (VInt 40) "top_k") as ((eb & Heb & Hk & _) & Htop).
  { simpl. tauto. }
  { reflexivity. }
  split; [exists eb; split; assumption|].
  split; [exact Htop|].
  apply Hnone; [reflexivity|]. simpl. intros k [<-|[]]. reflexivity.
Defined.

(** Counterexample to C3 as stated: no passed key maps to an extra-body
    field, and yet the result has an extra-body object, an empty one: the one
    that [optional_params] came with. *)
Lemma stale_extra_body_kept :
  let non_default_params := [("temperature", VFloat 0.5)] in
  let mapped :=
    map_openai_params non_default_params [("extra_body", VDict [])]
      "ibm/granite-13b" false in
  (forall k, In k (Dict.keys non_default_params) -> extra_body_name k = None)
  /\ Dict.get "extra_body" mapped = Some (VDict []).
Proof.
  split; [|reflexivity].
  intros k [<-|[]]. reflexivity.
Qed.

(** ** The watsonx adapter *)

Section WatsonxFacts.
Context `{SecretManager} `{WatsonxCollaborators}.


Lemma or_falsy a b : truthy_str a = false -> or_ a b = b.
Proof. unfold or_. now intros ->. Qed.


Lemma resolve_url_none api_base :
  truthy_str api_base = false ->
  (forall n, In n url_aliases -> get_secret_str n = None) ->
  resolve_url api_base = None.
Proof.
  intros Hbase Hnone. unfold resolve_url.
  rewrite (or_falsy api_base) by assumption.
  repeat (rewrite or_falsy by (rewrite Hnone by (simpl; tauto); reflexivity)).
  apply Hnone. simpl. tauto.
Qed.

End WatsonxFacts.



Section BaseUrl.
Context {env : SecretManager} `{WatsonxCollaborators}.


End BaseUrl.



Section Endpoints.
Context `{SecretManager} `{WatsonxCollaborators}.

Lemma startswith_deployment id :
  Str.startswith "deployment/" ("deployment/" ++ id) = true.
Proof. unfold Str.startswith. simpl. now destruct id. Qed.

Lemma after_slash_deployment id : Str.after_slash ("deployment/" ++ id) = id.
Proof. reflexivity. Qed.

(** What [transform_request] returns when its collaborators return. *)
Lemma transform_request_returns model messages optional_params litellm_params
    headers prompt merged api_params left :
  convert_watsonx_messages_to_prompt model messages (Str.before_slash model) []
  = Ok prompt ->
  dict_update_value
    (snd (Dict.pop "extra_body" (VDict []) optional_params))
    (fst (Dict.pop "extra_body" (VDict []) optional_params)) = Ok merged ->
  _get_api_params merged = Ok (api_params, left) ->
  let payload :=
    [("input", VStr prompt);
     ("moderations", fst (Dict.pop "moderations" (VDict []) left));
     ("parameters", VDict (snd (Dict.pop "moderations" (VDict []) left)))] in
  transform_request model messages optional_params litellm_params headers
  = if Str.startswith "deployment/" model
    then Ok payload
    else match Dict.get "project_id" api_params with
         | Some project_id =>
             Ok (payload ++ [("model_id", VStr model); ("project_id", project_id)])%list
         | None => Raise (KeyError "project_id")
         end.
Proof.
  intros Hprompt Hmerge Hparams payload. subst payload.
  unfold transform_request. rewrite Hprompt. simpl.
  destruct (Dict.pop "extra_body" (VDict []) optional_params) as [eb op1].
  simpl in Hmerge. rewrite Hmerge. simpl. rewrite Hparams. simpl.
  destruct (Dict.pop "moderations" (VDict []) left) as [moderations op2]. simpl.
  destruct (Str.startswith "deployment/" model); simpl; trivial.
  unfold dict_item. now destruct (Dict.get "project_id" api_params).
Qed.

(** C5, as the code has it. On a resolved base URL: a model that is not a
    deployment gets the text-generation endpoint, or its streaming variant
    when [stream] is truthy; a model ["deployment/<id>"] gets the deployment
    endpoint for [<id>], streaming or not by the same flag, provided
    [optional_params] carries a [space_id], and the 401 [WatsonXAIError]
    otherwise; the payload of a deployment model has neither [model_id] nor
    [project_id]. *)
Theorem endpoint_selection (api_base : option string) (url : string)
    (optional_params : dict) (stream : value) :
  resolve_url api_base = Some url ->
  let version :=
    py_str (fst (Dict.pop "api_version" (VStr WATSONX_DEFAULT_API_VERSION)
                   optional_params)) in
  let left :=
    snd (Dict.pop "api_version" (VStr WATSONX_DEFAULT_API_VERSION)
           optional_params) in
  (forall model,
      Str.startswith "deployment/" model = false ->
      get_complete_url api_base model optional_params stream
      = Ok ((Str.rstrip_slash url
             ++ (if truthy stream then TEXT_GENERATION_STREAM else TEXT_GENERATION))
            ++ "?version=" ++ version, left))
  /\ (forall deployment_id,
         is_none (Dict.get "space_id" optional_params) = false ->
         get_complete_url api_base ("deployment/" ++ deployment_id)
           optional_params stream
         = Ok ((Str.rstrip_slash url
                ++ Str.format_deployment_id
                     (if truthy stream
                      then DEPLOYMENT_TEXT_GENERATION_STREAM
                      else DEPLOYMENT_TEXT_GENERATION) deployment_id)
               ++ "?version=" ++ version, left))
  /\ (forall deployment_id,
         is_none (Dict.get "space_id" optional_params) = true ->
         get_complete_url api_base ("deployment/" ++ deployment_id)
           optional_params stream
         = Raise space_id_required)
  /\ (forall deployment_id messages params litellm_params headers
             prompt merged api_params rest,
         convert_watsonx_messages_to_prompt ("deployment/" ++ deployment_id)
           messages "deployment" [] = Ok prompt ->
         dict_update_value
           (snd (Dict.pop "extra_body" (VDict []) params))
           (fst (Dict.pop "extra_body" (VDict []) params)) = Ok merged ->
         _get_api_params merged = Ok (api_params, rest) ->
         exists payload,
           transform_request ("deployment/" ++ deployment_id) messages params
             litellm_params headers = Ok payload
           /\ Dict.get "model_id" payload = None
           /\ Dict.get "project_id" payload = None
           /\ Dict.get "input" payload = Some (VStr prompt)).
Proof.
  intros Hurl version left. subst version left.
  split; [|split; [|split]].
  - intros model Hmodel. unfold get_complete_url. rewrite Hurl, Hmodel. simpl.
    destruct (Dict.pop "api_version" _ optional_params) as [v op'].
    reflexivity.
  - intros id Hspace. unfold get_complete_url.
    rewrite Hurl, startswith_deployment, Hspace, after_slash_deployment. simpl bind.
    destruct (Dict.pop "api_version" _ optional_params) as [v op'].
    reflexivity.
  - intros id Hspace. unfold get_complete_url.
    now rewrite Hurl, startswith_deployment, Hspace.
  - intros id messages params litellm_params headers prompt merged api_params
      rest Hprompt Hmerge Hparams.
    eexists. split.
    + rewrite (transform_request_returns _ _ _ _ _ prompt merged api_params rest);
        trivial.
      now rewrite startswith_deployment.
    + repeat split.
Qed.

End Endpoints.

Lemma endpoint_selection_witness :
  let env := Sample.secrets [] in
  let params := [("space_id", VStr "space-1")] in
  @get_complete_url env Sample.watsonx (Some "https://wx.example/") "foo"
    params (VBool true)
  = Ok ("https://wx.example/ml/v1/text/generation_stream?version=2024-03-13", params)
  /\ @get_complete_url env Sample.watsonx (Some "https://wx.example/")
       "deployment/abc123" params (VBool true)
     = Ok ("https://wx.example/ml/v1/deployments/abc123/text/generation_stream?version=2024-03-13",
           params)
  /\ exists payload,
       @transform_request Sample.watsonx "deployment/abc123"
         [VDict [("role", VStr "user"); ("content", VStr "hi")]]
         [("project_id", VStr "p1"); ("temperature", VFloat 0.5)] [] []
       = Ok payload
       /\ Dict.get "model_id" payload = None.
Proof.
  intros env params.
  destruct (@endpoint_selection env Sample.watsonx (Some "https://wx.example/")
              "https://wx.example/" params (VBool true) eq_refl)
    as (Hnamed & Hdeployment & _ & Hpayload).
  split; [|split].
  - exact (Hnamed "foo" eq_refl).
  - exact (Hdeployment "abc123" eq_refl).
  - destruct (Hpayload "abc123"
                [VDict [("role", VStr "user"); ("content", VStr "hi")]]
                [("project_id", VStr "p1"); ("temperature", VFloat 0.5)] [] []
                "hi"
                [("project_id", VStr "p1"); ("temperature", VFloat 0.5)]
                [("project_id", VStr "p1"); ("space_id", VNone)]
                [("temperature", VFloat 0.5)]
                eq_refl eq_refl eq_refl)
      as (payload & Hp & Hm & _).
    exists payload. split; assumption.
Defined.

(** Counterexample to C5 as stated: with no [space_id] in [optional_params],
    a deployment model gets no URL at all. *)
Lemma deployment_without_space_id_raises :
  @get_complete_url (Sample.secrets []) Sample.watsonx
    (Some "https://us-south.ml.cloud.ibm.com") "deployment/abc123" []
    (VBool false)
  = Raise space_id_required.
Proof. reflexivity. Qed.

Section Headers.
Context `{SecretManager} `{WatsonxCollaborators}.

(** C6. Whenever [validate_environment] returns, the headers are
    [Content-Type] and [Accept] [application/json] and an [Authorization]
    bearer: of the explicit token, as it is, when [optional_params] has one,
    else of the token the issuing collaborator returns; when that
    collaborator fails the call fails with it and returns no headers; and
    the headers the caller passes play no part in the result. *)
Theorem validate_environment_headers (headers : dict) (model : string)
    (messages : list value) (optional_params : dict)
    (api_key : option string) :
  (forall result_headers,
      validate_environment headers model messages optional_params api_key
      = Ok result_headers ->
      Dict.get "Content-Type" result_headers = Some (VStr "application/json")
      /\ Dict.get "Accept" result_headers = Some (VStr "application/json")
      /\ exists token,
          Dict.get "Authorization" result_headers
          = Some (VStr ("Bearer " ++ token)))
  /\ (forall token,
         Dict.get "token" optional_params = Some (VStr token) ->
         token <> "" ->
         validate_environment headers model messages optional_params api_key
         = Ok (json_headers ("Bearer " ++ token)))
  /\ (truthy (token_of optional_params) = false ->
      forall issued,
        _generate_watsonx_token api_key (token_of optional_params) = Ok issued ->
        validate_environment headers model messages optional_params api_key
        = Ok (json_headers ("Bearer " ++ issued)))
  /\ (truthy (token_of optional_params) = false ->
      forall e,
        _generate_watsonx_token api_key (token_of optional_params) = Raise e ->
        validate_environment headers model messages optional_params api_key
        = Raise e)
  /\ (forall caller_headers,
         validate_environment caller_headers model messages optional_params api_key
         = validate_environment headers model messages optional_params api_key).
Proof.
  unfold validate_environment. fold (token_of optional_params).
  split; [|split; [|split; [|split]]].
  - intros h. destruct (truthy (token_of optional_params)).
    + intros [= <-]. simpl. eauto.
    + destruct (_generate_watsonx_token api_key (token_of optional_params));
        simpl; [|discriminate].
      intros [= <-]. simpl. eauto.
  - intros token Htoken Hne. unfold token_of. rewrite Htoken. simpl.
    apply String.eqb_neq in Hne. now rewrite Hne.
  - intros Hfalsy issued Hissued. now rewrite Hfalsy, Hissued.
  - intros Hfalsy e He. now rewrite Hfalsy, He.
  - reflexivity.
Qed.

End Headers.

Lemma validate_environment_headers_witness :
  @validate_environment Sample.watsonx
    [("Authorization", VStr "Basic caller"); ("X-Extra", VStr "1")]
    "ibm/granite-13b" [] [("token", VStr "abc")] None
  = Ok [("Content-Type", VStr "application/json");
        ("Accept", VStr "application/json");
        ("Authorization", VStr "Bearer abc")]
  /\ @validate_environment Sample.watsonx [] "ibm/granite-13b" [] [] (Some "key")
     = Ok [("Content-Type", VStr "application/json");
           ("Accept", VStr "application/json");
           ("Authorization", VStr "Bearer token-for-key")]
  /\ returns (@validate_environment Sample.watsonx [] "ibm/granite-13b" [] [] None)
     = false.
Proof.
  split; [|split].
  - destruct (@validate_environment_headers Sample.watsonx
                [("Authorization", VStr "Basic caller"); ("X-Extra", VStr "1")]
                "ibm/granite-13b" [] [("token", VStr "abc")] None)
      as (_ & Hexplicit & _).
    apply (Hexplicit "abc"); [reflexivity|discriminate].
  - destruct (@validate_environment_headers Sample.watsonx
                [] "ibm/granite-13b" [] [] (Some "key"))
      as (_ & _ & Hissued & _).
    apply (Hissued eq_refl "token-for-key"). reflexivity.
  - destruct (@validate_environment_headers Sample.watsonx
                [] "ibm/granite-13b" [] [] None)
      as (_ & _ & _ & Hfail & _).
    rewrite (Hfail eq_refl _ eq_refl). reflexivity.
Defined.

Lemma no_extra_body_name_temperature k :
  extra_body_name k <> Some "temperature".
Proof.
  intros Hk.
  now apply (top_level_name_not_extra "temperature" k "temperature" Hk).
Qed.

(** What [map_openai_params] leaves for [transform_request] when
    [temperature] is passed: once the [extra_body] it attached is merged
    back, the parameters hold the temperature passed. *)
Lemma mapped_temperature_merged non_default_params optional_params model
    drop_params t :
  NoDup (Dict.keys non_default_params) ->
  In ("temperature", t) non_default_params ->
  Dict.get "extra_body" optional_params = None ->
  let mapped :=
    map_openai_params non_default_params optional_params model drop_params in
  exists merged,
    dict_update_value
      (snd (Dict.pop "extra_body" (VDict []) mapped))
      (fst (Dict.pop "extra_body" (VDict []) mapped)) = Ok merged
    /\ Dict.get "temperature" merged = Some t.
Proof.
  intros Hnd Hin Hop mapped. subst mapped.
  rewrite map_openai_params_unfold. cbv zeta.
  set (st := fold_left map_openai_param non_default_params (optional_params, [])).
  assert (Ht : Dict.get "temperature" (fst st) = Some t)
    by (eapply loop_top_written; eauto).
  assert (He : Dict.get "extra_body" (fst st) = None).
  { unfold st. rewrite loop_top_frame; [exact Hop|].
    intros k v _. apply top_level_name_not_extra_body. }
  assert (Heb : Dict.get "temperature" (snd st) = None).
  { destruct (Dict.get "temperature" (snd st)) as [v|] eqn:Hv; trivial.
    unfold st in Hv. apply loop_extra_origin in Hv.
    destruct Hv as [Hv|(k & _ & Hk)]; [discriminate|].
    now destruct (no_extra_body_name_temperature k). }
  destruct (snd st) as [|kv eb] eqn:Es.
  - exists (fst st). unfold Dict.pop. rewrite He. cbn [fst snd].
    split; [reflexivity|exact Ht].
  - exists (Dict.update
              (Dict.remove "extra_body"
                 (Dict.set "extra_body" (VDict (kv :: eb)) (fst st)))
              (kv :: eb)).
    unfold Dict.pop. rewrite DictFacts.get_set_same. cbn [fst snd].
    split; [reflexivity|].
    rewrite DictFacts.get_update_absent by exact Heb.
    rewrite DictFacts.get_remove_other by discriminate.
    rewrite DictFacts.get_set_other by discriminate. exact Ht.
Qed.

Section Payload.
Context `{SecretManager} `{WatsonxCollaborators}.

(** C1, as the code has it. For a model that is not a deployment, the
    payload that [transform_request] returns has five entries and no other:
    [input], [moderations], [parameters], [model_id] and [project_id]; its
    [model_id] is the [model] argument exactly as it was passed, nothing
    stripped from it, and nothing in it names a deployment. When the
    parameters are those that [map_openai_params] makes of a request with a
    [temperature], and the credential lookup leaves the temperature where it
    is, the call returns as soon as the prompt conversion and the credential
    lookup do, and the [parameters] object holds the temperature passed. *)
Theorem named_model_payload (model : string) (messages : list value)
    (litellm_params headers : dict) :
  Str.startswith "deployment/" model = false ->
  (forall optional_params payload,
      transform_request model messages optional_params litellm_params headers
      = Ok payload ->
      Dict.keys payload
      = ["input"; "moderations"; "parameters"; "model_id"; "project_id"]
      /\ Dict.get "model_id" payload = Some (VStr model))
  /\ (forall non_default_params optional_params drop_params t,
        NoDup (Dict.keys non_default_params) ->
        In ("temperature", t) non_default_params ->
        Dict.get "extra_body" optional_params = None ->
        (forall params api_params left,
            _get_api_params params = Ok (api_params, left) ->
            Dict.get "temperature" left = Dict.get "temperature" params) ->
        let mapped :=
          map_openai_params non_default_params optional_params model
            drop_params in
        exists merged,
          dict_update_value
            (snd (Dict.pop "extra_body" (VDict []) mapped))
            (fst (Dict.pop "extra_body" (VDict []) mapped)) = Ok merged
          /\ forall prompt api_params left project_id,
              convert_watsonx_messages_to_prompt model messages
                (Str.before_slash model) [] = Ok prompt ->
              _get_api_params merged = Ok (api_params, left) ->
              Dict.get "project_id" api_params = Some project_id ->
              exists moderations parameters,
                transform_request model messages mapped litellm_params headers
                = Ok [("input", VStr prompt);
                      ("moderations", moderations);
                      ("parameters", VDict parameters);
                      ("model_id", VStr model);
                      ("project_id", project_id)]
                /\ Dict.get "temperature" parameters = Some t).
Proof.
  intros Hmodel. split.
  - intros optional_params payload. unfold transform_request.
    destruct (convert_watsonx_messages_to_prompt _ _ _ _) as [prompt|e];
      [|discriminate].
    cbn [bind].
    destruct (Dict.pop "extra_body" (VDict []) optional_params) as [eb op1].
    destruct (dict_update_value op1 eb) as [merged|e]; [|discriminate].
    cbn [bind].
    destruct (_get_api_params merged) as [[api_params left]|e]; [|discriminate].
    cbn [bind].
    destruct (Dict.pop "moderations" (VDict []) left) as [moderations op2].
    rewrite Hmodel. cbn [negb].
    destruct (dict_item api_params "project_id") as [project_id|e];
      [|discriminate].
    cbn [bind]. intros Hok. apply Ok_inj in Hok. subst payload.
    split; reflexivity.
  - intros non_default_params optional_params drop_params t Hnd Hin Hop Hlaw
      mapped.
    destruct (mapped_temperature_merged non_default_params optional_params
                model drop_params t Hnd Hin Hop) as (merged & Hmerge & Ht).
    fold mapped in Hmerge.
    exists merged. split; [exact Hmerge|].
    intros prompt api_params left project_id Hprompt Hparams Hproject.
    exists (fst (Dict.pop "moderations" (VDict []) left)),
           (snd (Dict.pop "moderations" (VDict []) left)).
    split.
    + rewrite (transform_request_returns _ _ _ _ _ prompt merged api_params left)
        by assumption.
      rewrite Hmodel, Hproject. reflexivity.
    + rewrite DictFacts.get_pop_other by discriminate.
      rewrite (Hlaw merged api_params left Hparams). exact Ht.
Qed.

End Payload.

Lemma sample_api_params_frame params api_params left k :
  Sample.api_params params = Ok (api_params, left) ->
  k <> "project_id" -> k <> "space_id" ->
  Dict.get k left = Dict.get k params.
Proof.
  unfold Sample.api_params. intros Hok Hp Hs.
  pose proof (DictFacts.get_pop_other "project_id" k VNone params) as H1.
  destruct (Dict.pop "project_id" VNone params) as [project_id d1].
  pose proof (DictFacts.get_pop_other "space_id" k VNone d1) as H2.
  destruct (Dict.pop "space_id" VNone d1) as [space_id d2].
  cbn [snd] in H1, H2.
  destruct project_id; try discriminate;
    apply Ok_inj in Hok; injection Hok as _ <-;
    rewrite H2, H1; congruence.
Qed.

Lemma named_model_payload_witness :
  exists moderations parameters,
    @transform_request Sample.watsonx "ibm/granite-13b"
      [VDict [("role", VStr "user"); ("content", VStr "hi")]]
      (map_openai_params [("temperature", VFloat 0.5)]
         [("project_id", VStr "p1")] "ibm/granite-13b" false)
      [] []
    = Ok [("input", VStr "hi");
          ("moderations", moderations);
          ("parameters", VDict parameters);
          ("model_id", VStr "ibm/granite-13b");
          ("project_id", VStr "p1")]
    /\ Dict.get "temperature" parameters = Some (VFloat 0.5).
Proof.
  destruct (@named_model_payload Sample.watsonx "ibm/granite-13b"
              [VDict [("role", VStr "user"); ("content", VStr "hi")]]
              [] [] eq_refl) as [_ Hscenario].
  destruct (Hscenario [("temperature", VFloat 0.5)] [("project_id", VStr "p1")]
              false (VFloat 0.5))
    as (merged & Hmerged & Hpayload).
  - repeat constructor; simpl; intuition discriminate.
  - simpl. tauto.
  - reflexivity.
  - intros params api_params left Hok.
    apply (sample_api_params_frame params api_params left); trivial;
      discriminate.
  - apply Ok_inj in Hmerged. subst merged.
    apply (Hpayload "hi" [("project_id", VStr "p1"); ("space_id", VNone)]
             [("temperature", VFloat 0.5)] (VStr "p1"));
      reflexivity.
Defined.

(** Counterexample to C1 as stated: the scenario's payload has the model
    identifier with its [ibm/] prefix, not [granite-13b]. *)
Lemma model_id_keeps_provider_prefix :
  exists payload,
    @transform_request Sample.watsonx "ibm/granite-13b"
      [VDict [("role", VStr "user"); ("content", VStr "hi")]]
      (map_openai_params [("temperature", VFloat 0.5)]
         [("project_id", VStr "p1")] "ibm/granite-13b" false)
      [] []
    = Ok payload
    /\ Dict.get "model_id" payload = Some (VStr "ibm/granite-13b")
    /\ Dict.get "model_id" payload <> Some (VStr "granite-13b").
Proof.
  eexists. split; [reflexivity|]. split; [reflexivity|discriminate].
Qed.

(** ** The pass-through routes *)

Section Routes.
Context `{SecretManager} `{PassThroughCollaborators}.

(** C2, as the code has it. On the anthropic and assemblyai routes a POST
    whose JSON body is an object with a truthy [stream] is a streaming call,
    whatever the URL; a request of any other method is not, and its body is
    never read; a POST whose body is an object without a truthy [stream] is
    not; and a POST whose body cannot be parsed, or is not an object, makes
    the route raise the error of the parser, or [AttributeError]. *)
Theorem body_stream_detection
    (route : string -> Request -> result PassThroughCall)
    (endpoint : string) (request : Request) :
  body_flag_route route ->
  (forall body flag,
      request_method request = "POST" ->
      request_json request = Ok (VDict body) ->
      Dict.get "stream" body = Some flag ->
      truthy flag = true ->
      exists call, route endpoint request = Ok call /\ call_stream call = true)
  /\ (request_method request <> "POST" ->
      exists call, route endpoint request = Ok call /\ call_stream call = false)
  /\ (forall body,
         request_method request = "POST" ->
         request_json request = Ok (VDict body) ->
         truthy (match Dict.get "stream" body with Some v => v | None => VNone end)
         = false ->
         exists call, route endpoint request = Ok call /\ call_stream call = false)
  /\ (forall e,
         request_method request = "POST" ->
         request_json request = Raise e ->
         route endpoint request = Raise e)
  /\ (forall body,
         request_method request = "POST" ->
         request_json request = Ok body ->
         (forall d, body <> VDict d) ->
         route endpoint request = Raise AttributeError).
Proof.
  intros Hroute.
  assert (Hpost : request_method request = "POST" ->
                  (request_method request =? "POST") = true)
    by (intros ->; reflexivity).
  destruct Hroute as [-> | ->];
    unfold anthropic_proxy_route, assemblyai_proxy_route;
    (split; [|split; [|split; [|split]]]).
  all: try (intros body flag Hm Hj Hs Ht; rewrite (Hpost Hm), Hj; simpl;
            rewrite Hs, Ht; simpl; eexists; split; reflexivity).
  all: try (intros Hm; apply String.eqb_neq in Hm; rewrite Hm; simpl;
            eexists; split; reflexivity).
  all: try (intros body Hm Hj Hs; rewrite (Hpost Hm), Hj; simpl;
            rewrite Hs; simpl; eexists; split; reflexivity).
  all: try (intros e Hm Hj; rewrite (Hpost Hm), Hj; reflexivity).
  all: intros body Hm Hj Hd; rewrite (Hpost Hm), Hj;
    destruct body; try reflexivity; now destruct (Hd d).
Qed.

(** C7. The handler shared by the openai and azure routes always hands over
    the custom headers [authorization: Bearer <key>] and [api-key: <key>],
    for the key the route resolved; so for the path [/v1/chat/completions]
    and the key [abc]. *)
Theorem dual_header_strategy (endpoint : string) (request : Request) :
  (forall base_target_url api_key,
      exists call,
        _base_openai_pass_through_handler endpoint request base_target_url api_key
        = Ok call
        /\ Dict.get "authorization" (call_custom_headers call)
           = Some (VStr ("Bearer " ++ api_key))
        /\ Dict.get "api-key" (call_custom_headers call) = Some (VStr api_key))
  /\ (forall api_key,
         get_credentials "openai" None = Some api_key ->
         openai_proxy_route endpoint request
         = _base_openai_pass_through_handler endpoint request
             "https://api.openai.com" api_key)
  /\ (forall base_target_url api_key,
         get_secret_str "AZURE_API_BASE" = Some base_target_url ->
         get_credentials "azure" None = Some api_key ->
         azure_proxy_route endpoint request
         = _base_openai_pass_through_handler endpoint request
             base_target_url api_key)
  /\ (forall base_target_url,
         exists call,
           _base_openai_pass_through_handler "/v1/chat/completions" request
             base_target_url "abc" = Ok call
           /\ Dict.get "authorization" (call_custom_headers call)
              = Some (VStr "Bearer abc")
           /\ Dict.get "api-key" (call_custom_headers call) = Some (VStr "abc")).
Proof.
  split; [|split; [|split]].
  - intros base api_key. eexists. split; [reflexivity|]. split; reflexivity.
  - intros api_key Hkey. unfold openai_proxy_route. now rewrite Hkey.
  - intros base api_key Hbase Hkey. unfold azure_proxy_route.
    now rewrite Hbase, Hkey.
  - intros base. eexists. split; [reflexivity|]. split; reflexivity.
Qed.

End Routes.

Lemma body_stream_detection_witness :
  let pt := Sample.pass_through [("anthropic", "sk-ant")] in
  (exists call,
      @anthropic_proxy_route pt "v1/messages"
        (Sample.post (Ok (VDict [("model", VStr "claude"); ("stream", VBool true)])))
      = Ok call
      /\ call_stream call = true)
  /\ (exists call,
         @assemblyai_proxy_route pt "v2/transcript"
           (Sample.get_ (Raise JSONDecodeError)) = Ok call
         /\ call_stream call = false)
  /\ @anthropic_proxy_route pt "v1/messages" (Sample.post (Raise JSONDecodeError))
     = Raise JSONDecodeError.
Proof.
  intros pt. split; [|split].
  - destruct (@body_stream_detection pt anthropic_proxy_route "v1/messages"
                (Sample.post (Ok (VDict [("model", VStr "claude"); ("stream", VBool true)])))
                (or_introl eq_refl))
      as (Hstream & _).
    apply (Hstream [("model", VStr "claude"); ("stream", VBool true)] (VBool true));
      reflexivity.
  - destruct (@body_stream_detection pt assemblyai_proxy_route "v2/transcript"
                (Sample.get_ (Raise JSONDecodeError)) (or_intror eq_refl))
      as (_ & Hget & _).
    apply Hget. discriminate.
  - destruct (@body_stream_detection pt anthropic_proxy_route "v1/messages"
                (Sample.post (Raise JSONDecodeError)) (or_introl eq_refl))
      as (_ & _ & _ & Hraise & _).
    apply Hraise; reflexivity.
Defined.

(** Counterexample to C2 as stated: a POST with no JSON body makes the
    anthropic route raise; the failure is not taken as "not streaming". *)
Lemma unparsable_body_raises :
  returns
    (@anthropic_proxy_route (Sample.pass_through [("anthropic", "sk-ant")])
       "v1/messages" (Sample.post (Raise JSONDecodeError)))
  = false
  /\ returns
       (@assemblyai_proxy_route (Sample.pass_through [("assemblyai", "key")])
          "v2/transcript" (Sample.post (Raise JSONDecodeError)))
     = false.
Proof. split; reflexivity. Qed.

Lemma dual_header_strategy_witness :
  let env := Sample.secrets [] in
  let pt := Sample.pass_through [("openai", "abc")] in
  exists call,
    @openai_proxy_route pt "/v1/chat/completions" (Sample.post (Ok (VDict [])))
    = Ok call
    /\ Dict.get "authorization" (call_custom_headers call) = Some (VStr "Bearer abc")
    /\ Dict.get "api-key" (call_custom_headers call) = Some (VStr "abc").
Proof.
  intros env pt.
  destruct (@dual_header_strategy env pt "/v1/chat/completions"
              (Sample.post (Ok (VDict []))))
    as (_ & Hopenai & _ & Hscenario).
  destruct (Hscenario "https://api.openai.com") as (call & Hcall & Hauth & Hkey).
  exists call. rewrite (Hopenai "abc" eq_refl). repeat split; assumption.
Defined.

(** ** The secret helpers *)

(** Facts on the codecs: UTF-8 and base64 decode what they encode. *)

Ltac Zify.zify_post_hook ::= Z.to_euclidean_division_equations.

Ltac decide_ltb :=
  repeat match goal with
         | |- context [N.ltb ?a ?b] =>
             first [ rewrite (proj2 (N.ltb_lt a b)) by lia
                   | rewrite (proj2 (N.ltb_ge a b)) by lia ]
         | |- context [N.leb ?a ?b] =>
             first [ rewrite (proj2 (N.leb_le a b)) by lia
                   | rewrite (proj2 (N.leb_gt a b)) by lia ]
         end.

Lemma decode_cons c0 r0 :
  Utf8.decode (String c0 r0) =
    let n0 := N_of_ascii c0 in
    (if n0 <? 128 then Utf8.cons_point n0 (Utf8.decode r0)
     else if n0 <? 194 then Raise UnicodeDecodeError
     else if n0 <? 224 then
       match r0 with
       | String c1 r1 =>
           match Utf8.continuation c1 with
           | Some x1 => Utf8.cons_point ((n0 - 192) * 64 + x1) (Utf8.decode r1)
           | None => Raise UnicodeDecodeError
           end
       | _ => Raise UnicodeDecodeError
       end
     else if n0 <? 240 then
       match r0 with
       | String c1 (String c2 r2) =>
           match Utf8.continuation c1, Utf8.continuation c2 with
           | Some x1, Some x2 =>
               let c := (n0 - 224) * 4096 + x1 * 64 + x2 in
               if (c <? 2048) || Utf8.is_surrogate c
               then Raise UnicodeDecodeError
               else Utf8.cons_point c (Utf8.decode r2)
           | _, _ => Raise UnicodeDecodeError
           end
       | _ => Raise UnicodeDecodeError
       end
     else if n0 <? 245 then
       match r0 with
       | String c1 (String c2 (String c3 r3)) =>
           match Utf8.continuation c1, Utf8.continuation c2, Utf8.continuation c3 with
           | Some x1, Some x2, Some x3 =>
               let c := (n0 - 240) * 262144 + x1 * 4096 + x2 * 64 + x3 in
               if (c <? 65536) || (1114111 <? c)
               then Raise UnicodeDecodeError
               else Utf8.cons_point c (Utf8.decode r3)
           | _, _, _ => Raise UnicodeDecodeError
           end
       | _ => Raise UnicodeDecodeError
       end
     else Raise UnicodeDecodeError)%N.
Proof. reflexivity. Qed.

Lemma continuation_of x :
  (x < 64)%N -> Utf8.continuation (ascii_of_N (128 + x)) = Some x.
Proof.
  intros Hx. unfold Utf8.continuation.
  rewrite N_ascii_embedding by lia. cbv zeta. decide_ltb. cbn [andb].
  f_equal. lia.
Qed.

Lemma decode_encode_point c b rest :
  Utf8.encode_point c = Ok b ->
  Utf8.decode (b ++ rest) = Utf8.cons_point c (Utf8.decode rest).
Proof.
  unfold Utf8.encode_point.
  destruct (N.ltb_spec c 128) as [H1|H1].
  { intros Hb; apply Ok_inj in Hb; subst b. cbn [append]. rewrite decode_cons.
    rewrite N_ascii_embedding by lia. cbv zeta. now decide_ltb. }
  destruct (N.ltb_spec c 2048) as [H2|H2].
  { intros Hb; apply Ok_inj in Hb; subst b. cbn [append]. rewrite decode_cons.
    rewrite N_ascii_embedding by lia. cbv zeta. decide_ltb.
    rewrite continuation_of by lia. f_equal. lia. }
  destruct (N.ltb_spec c 65536) as [H3|H3].
  { destruct (Utf8.is_surrogate c) eqn:Hs; [discriminate|].
    intros Hb; apply Ok_inj in Hb; subst b. cbn [append]. rewrite decode_cons.
    rewrite N_ascii_embedding by lia. cbv zeta. decide_ltb.
    rewrite !continuation_of by lia.
    replace ((224 + c / 4096 - 224) * 4096 + (c / 64) mod 64 * 64 + c mod 64)%N
      with c by lia.
    rewrite Hs. now decide_ltb. }
  destruct (N.ltb_spec c 1114112) as [H4|H4]; [|discriminate].
  intros Hb; apply Ok_inj in Hb; subst b. cbn [append]. rewrite decode_cons.
  rewrite N_ascii_embedding by lia. cbv zeta. decide_ltb.
  rewrite !continuation_of by lia.
  replace ((240 + c / 262144 - 240) * 262144 + (c / 4096) mod 64 * 4096
           + (c / 64) mod 64 * 64 + c mod 64)%N with c by lia.
  now decide_ltb.
Qed.

Lemma decode_encode s : forall b, Utf8.encode s = Ok b -> Utf8.decode b = Ok s.
Proof.
  induction s as [|c s IH]; intros b; cbn [Utf8.encode].
  - intros Hb; apply Ok_inj in Hb; now subst b.
  - destruct (Utf8.encode_point c) as [b1|e] eqn:Hc; [|discriminate].
    destruct (Utf8.encode s) as [b2|e]; [|discriminate].
    intros Hb; apply Ok_inj in Hb; subst b.
    rewrite (decode_encode_point c b1 b2 Hc), (IH b2 eq_refl). reflexivity.
Qed.

Lemma encode_point_scalar c :
  Utf8.is_scalar c = true -> exists b, Utf8.encode_point c = Ok b.
Proof.
  unfold Utf8.is_scalar, Utf8.encode_point. intros Hc.
  apply andb_prop in Hc. destruct Hc as [Hlt Hs].
  apply negb_true_iff in Hs. rewrite Hs, Hlt.
  repeat match goal with
         | |- context [N.ltb ?a ?b] => destruct (N.ltb a b)
         end; eauto.
Qed.

Lemma encode_scalars s :
  forallb Utf8.is_scalar s = true -> exists b, Utf8.encode s = Ok b.
Proof.
  induction s as [|c s IH]; cbn [forallb Utf8.encode]; [eauto|].
  intros Hs. apply andb_prop in Hs. destruct Hs as [Hc Hs].
  destruct (encode_point_scalar c Hc) as [b1 ->].
  destruct (IH Hs) as [b2 ->]. eauto.
Qed.

Lemma decode_ascii b :
  Utf8.ascii_only b = true -> Utf8.decode b = Ok (pystr_of_string b).
Proof.
  induction b as [|c b IH]; [reflexivity|].
  cbn [Utf8.ascii_only]. intros Hb. apply andb_prop in Hb. destruct Hb as [Hc Hb].
  rewrite decode_cons. cbv zeta. rewrite Hc, (IH Hb). reflexivity.
Qed.

Lemma encode_ascii_codes b :
  Utf8.ascii_only b = true -> Utf8.encode_ascii (pystr_of_string b) = Ok b.
Proof.
  induction b as [|c b IH]; [reflexivity|].
  cbn [Utf8.ascii_only]. intros Hb. apply andb_prop in Hb. destruct Hb as [Hc Hb].
  unfold pystr_of_string. cbn [list_ascii_of_string map Utf8.encode_ascii].
  fold (pystr_of_string b). rewrite Hc, (IH Hb), ascii_N_embedding. reflexivity.
Qed.

Lemma bytes_ind3 (P : string -> Prop) :
  P EmptyString ->
  (forall a, P (String a EmptyString)) ->
  (forall a b, P (String a (String b EmptyString))) ->
  (forall a b c r, P r -> P (String a (String b (String c r)))) ->
  forall s, P s.
Proof.
  intros H0 H1 H2 H3 s.
  assert (Hall : P s /\ (forall a, P (String a s))
                 /\ (forall a b, P (String a (String b s)))).
  { induction s as [|c r (IHr & IH1 & IH2)].
    - auto.
    - repeat split; auto. }
  apply Hall.
Qed.

Lemma N_of_ascii_char n :
  N_of_ascii (Base64.char n) =
    (if n <? 26 then 65 + n
     else if n <? 52 then 97 + (n - 26)
     else if n <? 62 then 48 + (n - 52)
     else if n =? 62 then 43 else 47)%N.
Proof.
  unfold Base64.char.
  destruct (N.ltb_spec n 26); [now rewrite N_ascii_embedding by lia|].
  destruct (N.ltb_spec n 52); [now rewrite N_ascii_embedding by lia|].
  destruct (N.ltb_spec n 62); [now rewrite N_ascii_embedding by lia|].
  now destruct (n =? 62)%N.
Qed.

Lemma char_ascii n : (N_of_ascii (Base64.char n) <? 128)%N = true.
Proof.
  rewrite N_of_ascii_char. apply N.ltb_lt.
  destruct (N.ltb_spec n 26); [lia|].
  destruct (N.ltb_spec n 52); [lia|].
  destruct (N.ltb_spec n 62); [lia|].
  destruct (n =? 62)%N; lia.
Qed.

Lemma index_char n : (n < 64)%N -> Base64.index (Base64.char n) = Some n.
Proof.
  intros Hn. unfold Base64.index. rewrite N_of_ascii_char. cbv zeta.
  destruct (N.ltb_spec n 26).
  { decide_ltb. cbn [andb]. f_equal. lia. }
  destruct (N.ltb_spec n 52).
  { decide_ltb. cbn [andb]. f_equal. lia. }
  destruct (N.ltb_spec n 62).
  { decide_ltb. cbn [andb]. f_equal. lia. }
  destruct (N.eqb_spec n 62).
  { subst n. reflexivity. }
  replace n with 63%N by lia. reflexivity.
Qed.

Lemma char_not_pad n : Ascii.eqb (Base64.char n) "=" = false.
Proof.
  apply Ascii.eqb_neq. intros Heq.
  apply (f_equal N_of_ascii) in Heq. rewrite N_of_ascii_char in Heq.
  change (N_of_ascii "=") with 61%N in Heq.
  destruct (N.ltb_spec n 26); [lia|].
  destruct (N.ltb_spec n 52); [lia|].
  destruct (N.ltb_spec n 62); [lia|].
  destruct (n =? 62)%N; lia.
Qed.

Lemma a2b_loop_char st n s :
  (n < 64)%N ->
  Base64.a2b_loop st (String (Base64.char n) s) =
    (if Base64.quad_pos st =? 0 then
       Base64.a2b_loop (Base64.Build_state 1 n 0 (Base64.bin_data st)) s
     else if Base64.quad_pos st =? 1 then
       Base64.a2b_loop
         (Base64.Build_state 2 (n mod 16) 0
            (ascii_of_N (Base64.leftchar st * 4 + n / 16) :: Base64.bin_data st)) s
     else if Base64.quad_pos st =? 2 then
       Base64.a2b_loop
         (Base64.Build_state 3 (n mod 4) 0
            (ascii_of_N (Base64.leftchar st * 16 + n / 4) :: Base64.bin_data st)) s
     else
       Base64.a2b_loop
         (Base64.Build_state 0 0 0
            (ascii_of_N (Base64.leftchar st * 64 + n) :: Base64.bin_data st)) s)%N.
Proof.
  intros Hn. cbn [Base64.a2b_loop].
  now rewrite char_not_pad, index_char.
Qed.

Lemma a2b_loop_group l p d a b c r :
  let x := N_of_ascii a in
  let y := N_of_ascii b in
  let z := N_of_ascii c in
  Base64.a2b_loop (Base64.Build_state 0 l p d)
    (String (Base64.char (x / 4))
       (String (Base64.char ((x mod 4) * 16 + y / 16))
          (String (Base64.char ((y mod 16) * 4 + z / 64))
             (String (Base64.char (z mod 64)) r))))%N
  = Base64.a2b_loop (Base64.Build_state 0 0 0 (c :: b :: a :: d)) r.
Proof.
  intros x y z.
  pose proof (N_ascii_bounded a) as Hx. pose proof (N_ascii_bounded b) as Hy.
  pose proof (N_ascii_bounded c) as Hz. fold x in Hx. fold y in Hy. fold z in Hz.
  rewrite !a2b_loop_char by lia. cbn [Base64.quad_pos Base64.leftchar Base64.bin_data N.eqb Pos.eqb].
  replace (x / 4 * 4 + (x mod 4 * 16 + y / 16) / 16)%N with x by lia.
  replace ((x mod 4 * 16 + y / 16) mod 16 * 16 + (y mod 16 * 4 + z / 64) / 4)%N
    with y by lia.
  replace ((y mod 16 * 4 + z / 64) mod 4 * 64 + z mod 64)%N with z by lia.
  unfold x, y, z. now rewrite !ascii_N_embedding.
Qed.

Lemma a2b_loop_b64encode b :
  forall l p d,
  exists done st,
    Base64.a2b_loop (Base64.Build_state 0 l p d) (Base64.b64encode b) = (done, st)
    /\ (done = true \/ Base64.quad_pos st = 0%N)
    /\ Base64.bin_data st = (rev (list_ascii_of_string b) ++ d)%list.
Proof.
  induction b as [|a|a b|a b c r IH] using bytes_ind3; intros l p d.
  - exists false, (Base64.Build_state 0 l p d). cbn. auto.
  - cbn [Base64.b64encode]. cbv zeta.
    pose proof (N_ascii_bounded a) as Hx.
    rewrite !a2b_loop_char by lia.
    cbn [Base64.quad_pos Base64.leftchar Base64.bin_data N.eqb Pos.eqb].
    replace (N_of_ascii a / 4 * 4 + N_of_ascii a mod 4 * 16 / 16)%N
      with (N_of_ascii a) by lia.
    rewrite ascii_N_embedding.
    eexists. eexists. split; [reflexivity|]. split; [now left|reflexivity].
  - cbn [Base64.b64encode]. cbv zeta.
    pose proof (N_ascii_bounded a) as Hx. pose proof (N_ascii_bounded b) as Hy.
    rewrite !a2b_loop_char by lia.
    cbn [Base64.quad_pos Base64.leftchar Base64.bin_data N.eqb Pos.eqb].
    replace (N_of_ascii a / 4 * 4 + (N_of_ascii a mod 4 * 16 + N_of_ascii b / 16) / 16)%N
      with (N_of_ascii a) by lia.
    replace ((N_of_ascii a mod 4 * 16 + N_of_ascii b / 16) mod 16 * 16
             + N_of_ascii b mod 16 * 4 / 4)%N
      with (N_of_ascii b) by lia.
    rewrite !ascii_N_embedding.
    eexists. eexists. split; [reflexivity|]. split; [now left|reflexivity].
  - cbn [Base64.b64encode]. cbv zeta. rewrite a2b_loop_group.
    destruct (IH 0%N 0%N (c :: b :: a :: d)) as (done & st & Hloop & Hdone & Hdata).
    exists done, st. split; [exact Hloop|]. split; [exact Hdone|].
    rewrite Hdata. cbn [list_ascii_of_string rev]. now rewrite <- !app_assoc.
Qed.

Lemma a2b_base64_b64encode b : Base64.a2b_base64 (Base64.b64encode b) = Ok b.
Proof.
  unfold Base64.a2b_base64.
  destruct (a2b_loop_b64encode b 0%N 0%N []) as (done & st & -> & Hdone & Hdata).
  rewrite Hdata, app_nil_r, rev_involutive, string_of_list_ascii_of_string.
  destruct Hdone as [-> | ->]; [reflexivity|]. now rewrite orb_true_r.
Qed.

Lemma b64encode_ascii b : Utf8.ascii_only (Base64.b64encode b) = true.
Proof.
  induction b as [|a|a b|a b c r IH] using bytes_ind3;
    cbn [Base64.b64encode Utf8.ascii_only]; cbv zeta;
    rewrite ?char_ascii, ?IH; reflexivity.
Qed.

Section Secrets.
Context `{Crypto} `{ProxyState}.

(** C9. [decrypt_value_helper] returns on every input: a value that is not
    base64, or that the secret box or the UTF-8 decoder refuses, or a missing
    signing key, gives [None] and no exception; so decrypting a list of
    stored values one by one never stops at one of them. *)
Theorem decrypt_value_helper_never_raises (value : obj) :
  (exists r, decrypt_value_helper value = Ok r)
  /\ (forall s e,
         value = OStr s -> Base64.b64decode s = Raise e ->
         decrypt_value_helper value = Ok ONone)
  /\ (forall s decoded e,
         value = OStr s -> Base64.b64decode s = Ok decoded ->
         decrypt_value decoded _get_salt_key = Raise e ->
         decrypt_value_helper value = Ok ONone)
  /\ (forall values,
         forallb (fun v => returns (decrypt_value_helper v)) values = true).
Proof.
  assert (Hreturns : forall v, exists r, decrypt_value_helper v = Ok r).
  { intros v. unfold decrypt_value_helper, try_except. cbv zeta.
    destruct v as [s| | |]; eauto.
    destruct (Base64.b64decode s) as [decoded|e]; cbn [bind]; eauto.
    destruct (decrypt_value decoded _get_salt_key); cbn [bind]; eauto. }
  split; [apply Hreturns|]. split; [|split].
  - intros s e -> Hdecode. unfold decrypt_value_helper. cbv zeta.
    now rewrite Hdecode.
  - intros s decoded e -> Hdecode Hdecrypt. unfold decrypt_value_helper.
    cbv zeta. now rewrite Hdecode; cbn [bind]; rewrite Hdecrypt.
  - intros values. apply forallb_forall. intros v _.
    destruct (Hreturns v) as [r ->]. reflexivity.
Qed.

Lemma encrypt_decrypt_value (s key : pystr) (nonce : bytes) :
  (forall k n m, box_decrypt k (box_encrypt k n m) = Ok m) ->
  forallb Utf8.is_scalar s = true ->
  forallb Utf8.is_scalar key = true ->
  exists encrypted,
    encrypt_value s (Some key) nonce = Ok encrypted
    /\ decrypt_value encrypted (Some key) = Ok s.
Proof.
  intros Hbox Hs Hkey.
  destruct (encode_scalars s Hs) as [sb Hsb].
  destruct (encode_scalars key Hkey) as [kb Hkb].
  unfold encrypt_value, decrypt_value, encode_key.
  rewrite Hkb, Hsb. cbn [bind]. eexists. split; [reflexivity|].
  rewrite Hbox. cbn [bind]. now apply decode_encode.
Qed.

(** C10, as the code has it. Under the law of the secret box (decrypting
    with a key what was encrypted with it gives the message back), for every
    string and every signing key that UTF-8 can encode, and whatever nonce
    the box draws, [decrypt_value] undoes [encrypt_value]; and with that key
    as the salt or master key in effect, [decrypt_value_helper] undoes
    [encrypt_value_helper]. *)
Theorem secret_round_trip (s key : pystr) (nonce : bytes) :
  (forall k n m, box_decrypt k (box_encrypt k n m) = Ok m) ->
  forallb Utf8.is_scalar s = true ->
  forallb Utf8.is_scalar key = true ->
  (exists encrypted,
      encrypt_value s (Some key) nonce = Ok encrypted
      /\ decrypt_value encrypted (Some key) = Ok s)
  /\ (_get_salt_key = Some key ->
      exists stored,
        encrypt_value_helper (OStr s) nonce = Ok (OStr stored)
        /\ decrypt_value_helper (OStr stored) = Ok (OStr s)).
Proof.
  intros Hbox Hs Hkey.
  destruct (encrypt_decrypt_value s key nonce Hbox Hs Hkey)
    as (encrypted & Henc & Hdec).
  split; [eauto|].
  intros Hsalt. exists (pystr_of_string (Base64.b64encode encrypted)). split.
  - unfold encrypt_value_helper. cbv zeta. rewrite Hsalt, Henc. cbn [bind].
    now rewrite decode_ascii by apply b64encode_ascii.
  - unfold decrypt_value_helper, Base64.b64decode. cbv zeta.
    rewrite Hsalt, encode_ascii_codes by apply b64encode_ascii.
    rewrite a2b_base64_b64encode. cbn [bind]. now rewrite Hdec.
Qed.

End Secrets.

Lemma decrypt_value_helper_never_raises_witness :
  let state := Sample.proxy None (Some (pystr_of_string "sk-1234")) in
  @decrypt_value_helper Sample.plain_box state (OStr (pystr_of_string "a"))
  = Ok ONone
  /\ @decrypt_value_helper Sample.plain_box (Sample.proxy None None)
       (OStr (pystr_of_string "aGk=")) = Ok ONone.
Proof.
  intros state. split.
  - destruct (@decrypt_value_helper_never_raises Sample.plain_box state
                (OStr (pystr_of_string "a"))) as (_ & Hb64 & _).
    apply (Hb64 (pystr_of_string "a") BinasciiError); reflexivity.
  - destruct (@decrypt_value_helper_never_raises Sample.plain_box
                (Sample.proxy None None) (OStr (pystr_of_string "aGk=")))
      as (_ & _ & Hkey & _).
    apply (Hkey (pystr_of_string "aGk=") "hi" AttributeError); reflexivity.
Defined.

Lemma secret_round_trip_witness :
  let key := pystr_of_string "sk-1234" in
  let secret := [115; 233; 8364; 128512]%N in
  exists stored,
    @encrypt_value_helper Sample.plain_box (Sample.proxy None (Some key))
      (OStr secret) "nonce" = Ok (OStr stored)
    /\ @decrypt_value_helper Sample.plain_box (Sample.proxy None (Some key))
         (OStr stored) = Ok (OStr secret).
Proof.
  intros key secret.
  destruct (@secret_round_trip Sample.plain_box (Sample.proxy None (Some key))
              secret key "nonce" (fun _ _ _ => eq_refl) eq_refl eq_refl)
    as (_ & Hhelper).
  exact (Hhelper eq_refl).
Defined.

(** Counterexample to C10 as stated: a string that holds a lone surrogate
    is not encrypted at all, [encode] refuses it. *)
Lemma lone_surrogate_not_encrypted :
  let key := pystr_of_string "sk-1234" in
  @encrypt_value Sample.plain_box [55296%N] (Some key) "nonce"
  = Raise UnicodeEncodeError
  /\ @encrypt_value_helper Sample.plain_box (Sample.proxy None (Some key))
       (OStr [55296%N]) "nonce" = Raise UnicodeEncodeError.
Proof. split; reflexivity. Qed.

(** * More properties of the code *)

(** ** [map_openai_params] and its neighbours *)




Lemma loop_unknown_untouched l st :
  (forall k, In k (Dict.keys l) ->
             top_level_name k = None /\ extra_body_name k = None) ->
  fold_left map_openai_param l st = st.
Proof.
  revert st. induction l as [|[k v] l IH]; intros st Hl; simpl; trivial.
  rewrite map_openai_param_table.
  destruct (Hl k) as [-> ->]; [now left|].
  apply IH. intros k' Hk'. apply Hl. now right.
Qed.

(** X2. A parameter that is neither a supported OpenAI parameter nor one of
    the seven extra-body parameters is dropped without a trace: when no
    passed key has a destination, [map_openai_params] returns
    [optional_params] as it received it. *)
Theorem unknown_params_dropped (non_default_params optional_params : dict)
    (model : string) (drop_params : bool) :
  (forall k, In k (Dict.keys non_default_params) ->
             top_level_name k = None /\ extra_body_name k = None) ->
  map_openai_params non_default_params optional_params model drop_params
  = optional_params.
Proof.
  intros Hunknown. rewrite map_openai_params_unfold. cbv zeta.
  now rewrite loop_unknown_untouched.
Qed.

Lemma unknown_params_dropped_witness :
  map_openai_params
    [("presence_penalty", VFloat 0.5); ("n", VInt 2); ("extra_body", VDict [])]
    [("temperature", VFloat 0.25)] "ibm/granite-13b" true
  = [("temperature", VFloat 0.25)].
Proof.
  apply unknown_params_dropped. simpl.
  intros k [<-|[<-|[<-|[]]]]; split; reflexivity.
Defined.

(** X3. [map_openai_params] leaves alone every entry of [optional_params]
    that it does not write: an entry whose name is not [extra_body] and is
    the top-level destination of no passed key keeps its value. *)
Theorem other_entries_kept (non_default_params optional_params : dict)
    (model : string) (drop_params : bool) (name : string) :
  name <> "extra_body" ->
  (forall k, In k (Dict.keys non_default_params) ->
             top_level_name k <> Some name) ->
  Dict.get name
    (map_openai_params non_default_params optional_params model drop_params)
  = Dict.get name optional_params.
Proof.
  intros Hname Hkeys. rewrite map_openai_params_unfold. cbv zeta.
  assert (Hframe : Dict.get name
                     (fst (fold_left map_openai_param non_default_params
                             (optional_params, [])))
                   = Dict.get name optional_params).
  { rewrite loop_top_frame; trivial.
    intros k v Hin. apply Hkeys. now apply (in_map fst) in Hin. }
  destruct (snd _); [exact Hframe|].
  rewrite DictFacts.get_set_other; [exact Hframe|congruence].
Qed.

Lemma other_entries_kept_witness :
  Dict.get "project_id"
    (map_openai_params [("temperature", VFloat 0.5); ("top_k", VInt 3)]
       [("project_id", VStr "p1")] "ibm/granite-13b" false)
  = Some (VStr "p1").
Proof.
  apply (other_entries_kept [("temperature", VFloat 0.5); ("top_k", VInt 3)]
           [("project_id", VStr "p1")] "ibm/granite-13b" false "project_id").
  - discriminate.
  - simpl. intros k [<-|[<-|[]]]; discriminate.
Defined.

(** X4. An [extra_body] that [optional_params] already holds is replaced,
    not merged: as soon as one extra-body parameter is passed, the object
    under [extra_body] holds the passed extra-body parameters and nothing of
    the old object. *)
Theorem extra_body_replaced (non_default_params optional_params : dict)
    (model : string) (drop_params : bool) (k : string) (v : value)
    (n : string) :
  NoDup (Dict.keys non_default_params) ->
  In (k, v) non_default_params ->
  extra_body_name k = Some n ->
  exists extra_body,
    Dict.get "extra_body"
      (map_openai_params non_default_params optional_params model drop_params)
    = Some (VDict extra_body)
    /\ Dict.get n extra_body = Some v
    /\ (forall n' v',
           Dict.get n' extra_body = Some v' ->
           exists k', In (k', v') non_default_params
                      /\ extra_body_name k' = Some n').
Proof.
  intros Hnd Hin Hk. rewrite map_openai_params_unfold. cbv zeta.
  pose proof (loop_extra_written non_default_params (optional_params, [])
                k v n Hnd Hin Hk) as Hw.
  destruct (snd (fold_left map_openai_param non_default_params
                   (optional_params, []))) as [|kv eb] eqn:Es;
    [discriminate|].
  exists (kv :: eb). rewrite DictFacts.get_set_same.
  split; [reflexivity|]. split; [exact Hw|].
  intros n' v' Hg. rewrite <- Es in Hg.
  apply loop_extra_origin in Hg.
  destruct Hg as [Hg|Hg]; [discriminate|exact Hg].
Qed.

Lemma extra_body_replaced_witness :
  Dict.get "extra_body"
    (map_openai_params [("top_k", VInt 3)]
       [("extra_body", VDict [("time_limit", VInt 100)])]
       "ibm/granite-13b" false)
  = Some (VDict [("top_k", VInt 3)]).
Proof.
  destruct (extra_body_replaced [("top_k", VInt 3)]
              [("extra_body", VDict [("time_limit", VInt 100)])]
              "ibm/granite-13b" false "top_k" (VInt 3) "top_k")
    as (eb & Heb & _).
  - repeat constructor; simpl; intuition discriminate.
  - simpl. tauto.
  - reflexivity.
  - reflexivity.
Defined.

(** ** [map_special_auth_params] *)

Lemma special_auth_name_inj k1 k2 n :
  mapped_name k1 get_mapped_special_auth_params = Some n ->
  mapped_name k2 get_mapped_special_auth_params = Some n -> k1 = k2.
Proof.
  unfold get_mapped_special_auth_params. cbn [mapped_name].
  repeat match goal with
         | |- context [String.eqb ?b k1] =>
             let E := fresh "E" in
             destruct (String.eqb b k1) eqn:E; [apply String.eqb_eq in E|]
         end;
  repeat match goal with
         | |- context [String.eqb ?b k2] =>
             let E := fresh "E" in
             destruct (String.eqb b k2) eqn:E; [apply String.eqb_eq in E|]
         end;
  intros H1 H2; try discriminate;
    try (rewrite <- H2 in H1; discriminate H1); congruence.
Qed.

Lemma special_auth_cons k v l d :
  map_special_auth_params ((k, v) :: l) d =
    map_special_auth_params l
      (match mapped_name k get_mapped_special_auth_params with
       | Some name => Dict.set name v d
       | None => d
       end).
Proof. reflexivity. Qed.

Lemma special_auth_frame l d n :
  (forall k, In k (Dict.keys l) ->
             mapped_name k get_mapped_special_auth_params <> Some n) ->
  Dict.get n (map_special_auth_params l d) = Dict.get n d.
Proof.
  revert d. induction l as [|[k v] l IH]; intros d Hl; [reflexivity|].
  rewrite special_auth_cons, IH by (intros; apply Hl; now right).
  destruct (mapped_name k get_mapped_special_auth_params) as [m|] eqn:Ek; trivial.
  apply DictFacts.get_set_other. intros ->. now apply (Hl k); [left|].
Qed.

Lemma special_auth_written l d k v n :
  NoDup (Dict.keys l) -> In (k, v) l ->
  mapped_name k get_mapped_special_auth_params = Some n ->
  Dict.get n (map_special_auth_params l d) = Some v.
Proof.
  revert d. induction l as [|[k0 v0] l IH]; intros d Hnd Hin Hn; [easy|].
  simpl in Hnd. inversion Hnd as [|? ? Hnotin Hnd']; subst.
  rewrite special_auth_cons.
  destruct Hin as [[= -> ->]|Hin].
  - rewrite special_auth_frame.
    + rewrite Hn. apply DictFacts.get_set_same.
    + intros k' Hin' Hk'. apply Hnotin.
      now rewrite (special_auth_name_inj k k' n Hn Hk').
  - now apply IH.
Qed.

Lemma special_auth_untouched l d :
  (forall k, In k (Dict.keys l) ->
             mapped_name k get_mapped_special_auth_params = None) ->
  map_special_auth_params l d = d.
Proof.
  revert d. induction l as [|[k v] l IH]; intros d Hl; [reflexivity|].
  rewrite special_auth_cons, (Hl k) by now left.
  apply IH. intros; apply Hl; now right.
Qed.

(** X5. [map_special_auth_params] stores [project], [region_name] and
    [token] under [watsonx_project], [watsonx_region_name] and
    [watsonx_token], each with the value passed. It writes nothing else: a
    name keeps the value it has in [optional_params] unless it is the
    destination of a key that is passed, so [watsonx_token] is untouched
    when [token] is not passed, and when none of the three keys is passed
    [optional_params] is returned as it is. *)
Theorem special_auth_params_mapped (non_default_params optional_params : dict) :
  NoDup (Dict.keys non_default_params) ->
  let mapped := map_special_auth_params non_default_params optional_params in
  (forall k v n,
      In (k, v) non_default_params ->
      In (k, n) get_mapped_special_auth_params ->
      Dict.get n mapped = Some v)
  /\ (forall n,
         (forall k, In k (Dict.keys non_default_params) ->
                    ~ In (k, n) get_mapped_special_auth_params) ->
         Dict.get n mapped = Dict.get n optional_params)
  /\ (forall n,
         ~ In n ["watsonx_project"; "watsonx_region_name"; "watsonx_token"] ->
         Dict.get n mapped = Dict.get n optional_params)
  /\ ((forall k, In k (Dict.keys non_default_params) ->
                 ~ In k ["project"; "region_name"; "token"]) ->
      mapped = optional_params).
Proof.
  intros Hnd mapped. subst mapped.
  assert (Htable : forall k n,
             mapped_name k get_mapped_special_auth_params = Some n ->
             In (k, n) get_mapped_special_auth_params).
  { intros k n. unfold get_mapped_special_auth_params. cbn [mapped_name].
    repeat match goal with
           | |- context [String.eqb ?b k] =>
               let E := fresh "E" in
               destruct (String.eqb b k) eqn:E;
               [apply String.eqb_eq in E; subst k|]
           end; intros Hk; try discriminate; injection Hk as <-;
      simpl; tauto. }
  split; [|split; [|split]].
  - intros k v n Hin Hk.
    apply (special_auth_written _ _ k v n Hnd Hin).
    simpl in Hk. destruct Hk as [[= <- <-]|[[= <- <-]|[[= <- <-]|[]]]];
      reflexivity.
  - intros n Hn. apply special_auth_frame. intros k Hin Hk.
    exact (Hn k Hin (Htable k n Hk)).
  - intros n Hn. apply special_auth_frame. intros k _ Hk. apply Hn.
    apply Htable in Hk. simpl in Hk.
    destruct Hk as [[= _ <-]|[[= _ <-]|[[= _ <-]|[]]]]; simpl; tauto.
  - intros Hkeys. apply special_auth_untouched. intros k Hk.
    specialize (Hkeys k Hk).
    destruct (mapped_name k get_mapped_special_auth_params) as [n|] eqn:En;
      trivial.
    apply Htable in En. exfalso. apply Hkeys. simpl in En.
    destruct En as [[= <- _]|[[= <- _]|[[= <- _]|[]]]]; simpl; tauto.
Qed.

Lemma special_auth_params_mapped_witness :
  let mapped :=
    map_special_auth_params
      [("project", VStr "p1"); ("temperature", VFloat 0.5)]
      [("space_id", VStr "s1"); ("watsonx_token", VStr "kept")] in
  Dict.get "watsonx_project" mapped = Some (VStr "p1")
  /\ Dict.get "watsonx_token" mapped = Some (VStr "kept")
  /\ Dict.get "space_id" mapped = Some (VStr "s1")
  /\ Dict.get "project" mapped = None.
Proof.
  intros mapped.
  destruct (special_auth_params_mapped
              [("project", VStr "p1"); ("temperature", VFloat 0.5)]
              [("space_id", VStr "s1"); ("watsonx_token", VStr "kept")])
    as (Hwritten & Hframe & Hkept & _).
  { repeat constructor; simpl; intuition discriminate. }
  split; [|split; [|split]].
  - apply (Hwritten "project" (VStr "p1") "watsonx_project"); simpl; tauto.
  - apply (Hframe "watsonx_token"). simpl.
    intros k [<-|[<-|[]]] [Hk|[Hk|[Hk|[]]]]; discriminate.
  - apply (Hkept "space_id"). simpl. intuition discriminate.
  - apply (Hkept "project"). simpl. intuition discriminate.
Defined.

(** ** [transform_request] and [get_complete_url] *)

Lemma get_notin k d : ~ In k (Dict.keys d) -> Dict.get k d = None.
Proof.
  induction d as [|[k0 v0] d IH]; simpl; trivial.
  intros Hn. destruct (k0 =? k) eqn:E.
  - apply String.eqb_eq in E. tauto.
  - apply IH. tauto.
Qed.

Lemma keys_set k v d k' :
  In k' (Dict.keys (Dict.set k v d)) -> k' = k \/ In k' (Dict.keys d).
Proof.
  induction d as [|[k0 v0] d IH]; simpl.
  - intros [<-|[]]. now left.
  - destruct (k0 =? k) eqn:E; simpl.
    + intros [<-|Hin]; auto.
    + intros [<-|Hin]; auto. destruct (IH Hin); auto.
Qed.

Lemma nodup_set k v d :
  NoDup (Dict.keys d) -> NoDup (Dict.keys (Dict.set k v d)).
Proof.
  induction d as [|[k0 v0] d IH]; simpl; intros Hnd.
  - repeat constructor. simpl. tauto.
  - inversion Hnd as [|? ? Hnotin Hnd']; subst.
    destruct (k0 =? k) eqn:E; simpl.
    + apply String.eqb_eq in E. subst k0. now constructor.
    + constructor; [|now apply IH].
      intros Hin. apply keys_set in Hin. destruct Hin as [->|Hin]; [|tauto].
      now rewrite String.eqb_refl in E.
Qed.

Lemma get_update_present k v d src :
  NoDup (Dict.keys src) -> Dict.get k src = Some v ->
  Dict.get k (Dict.update d src) = Some v.
Proof.
  unfold Dict.update. revert d.
  induction src as [|[k0 v0] src IH]; intros d Hnd Hk; [discriminate|].
  simpl in *. inversion Hnd as [|? ? Hnotin Hnd']; subst.
  destruct (k0 =? k) eqn:E.
  - apply String.eqb_eq in E. subst k0. injection Hk as ->.
    fold (Dict.update (Dict.set k v d) src).
    rewrite DictFacts.get_update_absent by now apply get_notin.
    apply DictFacts.get_set_same.
  - now apply IH.
Qed.

Lemma loop_extra_nodup l st :
  NoDup (Dict.keys (snd st)) ->
  NoDup (Dict.keys (snd (fold_left map_openai_param l st))).
Proof.
  revert st. induction l as [|[k v] l IH]; intros st Hst; simpl; trivial.
  apply IH. rewrite map_openai_param_table.
  destruct (top_level_name k); trivial.
  destruct (extra_body_name k); trivial. simpl. now apply nodup_set.
Qed.

Lemma extra_body_name_not_moderations k n :
  extra_body_name k = Some n -> n <> "moderations".
Proof.
  unfold extra_body_name.
  repeat match goal with
         | |- context [String.eqb k ?b] => destruct (String.eqb k b)
         end; try discriminate; intros [= <-]; discriminate.
Qed.

Section Flattening.
Context `{SecretManager} `{WatsonxCollaborators}.

(** X6. What [map_openai_params] nests, [transform_request] unnests: an
    extra-body parameter passed by the caller is merged back into
    [optional_params] before the credential lookup, and, if that lookup
    leaves it there, it is a top-level entry of the payload's [parameters],
    which holds no [extra_body]. *)
Theorem extra_body_flattened (non_default_params optional_params : dict)
    (model : string) (drop_params : bool) (messages : list value)
    (litellm_params headers : dict) (k : string) (v : value) (n : string) :
  NoDup (Dict.keys non_default_params) ->
  In (k, v) non_default_params ->
  extra_body_name k = Some n ->
  let mapped :=
    map_openai_params non_default_params optional_params model drop_params in
  exists merged,
    dict_update_value
      (snd (Dict.pop "extra_body" (VDict []) mapped))
      (fst (Dict.pop "extra_body" (VDict []) mapped)) = Ok merged
    /\ Dict.get n merged = Some v
    /\ Dict.get "extra_body" merged = None
    /\ (forall prompt api_params left project_id,
           convert_watsonx_messages_to_prompt model messages
             (Str.before_slash model) [] = Ok prompt ->
           _get_api_params merged = Ok (api_params, left) ->
           Dict.get n left = Dict.get n merged ->
           Dict.get "extra_body" left = Dict.get "extra_body" merged ->
           Dict.get "project_id" api_params = Some project_id ->
           exists payload parameters,
             transform_request model messages mapped litellm_params headers
             = Ok payload
             /\ Dict.get "parameters" payload = Some (VDict parameters)
             /\ Dict.get n parameters = Some v
             /\ Dict.get "extra_body" parameters = None).
Proof.
  intros Hnd Hin Hk mapped.
  assert (Hmapped : exists extra_body,
             Dict.get "extra_body" mapped = Some (VDict extra_body)
             /\ Dict.get n extra_body = Some v
             /\ Dict.get "extra_body" extra_body = None
             /\ NoDup (Dict.keys extra_body)).
  { subst mapped. rewrite map_openai_params_unfold. cbv zeta.
    pose proof (loop_extra_written non_default_params (optional_params, [])
                  k v n Hnd Hin Hk) as Hw.
    pose proof (loop_extra_nodup non_default_params (optional_params, [])
                  (NoDup_nil _)) as Hnodup.
    pose proof (loop_extra_origin non_default_params (optional_params, [])
                  "extra_body") as Horigin.
    destruct (snd (fold_left map_openai_param non_default_params
                     (optional_params, []))) as [|kv eb]; [discriminate|].
    exists (kv :: eb). rewrite DictFacts.get_set_same.
    repeat split; trivial.
    destruct (Dict.get "extra_body" (kv :: eb)) as [x|] eqn:Ex; trivial.
    destruct (Horigin x eq_refl) as [Hx|(k' & _ & Hk')]; [discriminate|].
    now destruct (extra_body_name_not_extra_body k' "extra_body" Hk'). }
  destruct Hmapped as (eb & Heb & Hn & Hnone & Hnodup).
  exists (Dict.update (Dict.remove "extra_body" mapped) eb).
  assert (Hmerge : dict_update_value
                     (snd (Dict.pop "extra_body" (VDict []) mapped))
                     (fst (Dict.pop "extra_body" (VDict []) mapped))
                   = Ok (Dict.update (Dict.remove "extra_body" mapped) eb)).
  { unfold Dict.pop. rewrite Heb. reflexivity. }
  assert (Hgetn : Dict.get n (Dict.update (Dict.remove "extra_body" mapped) eb)
                  = Some v)
    by now apply get_update_present.
  assert (Hgete : Dict.get "extra_body"
                    (Dict.update (Dict.remove "extra_body" mapped) eb) = None)
    by (rewrite DictFacts.get_update_absent by assumption;
        apply DictFacts.get_remove_same).
  repeat split; trivial.
  intros prompt api_params left project_id Hprompt Hparams Hleftn Hlefte Hproject.
  pose proof (transform_request_returns model messages mapped litellm_params
                headers prompt _ api_params left Hprompt Hmerge Hparams) as Hret.
  cbv zeta in Hret. rewrite Hproject in Hret.
  destruct (Str.startswith "deployment/" model);
    eexists; eexists; (split; [exact Hret|]); simpl; repeat split.
  all: rewrite DictFacts.get_pop_other by
      (try discriminate; intros E; symmetry in E; revert E;
       now apply (extra_body_name_not_moderations k)).
  all: congruence.
Qed.

(** X7. [transform_request] moves [moderations] out of the parameters: the
    payload's [moderations] is the value found among the parameters after the
    credential lookup, or an empty object, and [parameters] holds no
    [moderations]. *)
Theorem moderations_lifted (model : string) (messages : list value)
    (optional_params litellm_params headers : dict) (prompt : string)
    (merged api_params left : dict) (project_id : value) :
  convert_watsonx_messages_to_prompt model messages (Str.before_slash model) []
  = Ok prompt ->
  dict_update_value
    (snd (Dict.pop "extra_body" (VDict []) optional_params))
    (fst (Dict.pop "extra_body" (VDict []) optional_params)) = Ok merged ->
  _get_api_params merged = Ok (api_params, left) ->
  Dict.get "project_id" api_params = Some project_id ->
  exists payload parameters,
    transform_request model messages optional_params litellm_params headers
    = Ok payload
    /\ Dict.get "moderations" payload
       = Some (match Dict.get "moderations" left with
               | Some m => m
               | None => VDict []
               end)
    /\ Dict.get "parameters" payload = Some (VDict parameters)
    /\ Dict.get "moderations" parameters = None.
Proof.
  intros Hprompt Hmerge Hparams Hproject.
  pose proof (transform_request_returns model messages optional_params
                litellm_params headers prompt merged api_params left
                Hprompt Hmerge Hparams) as Hret.
  cbv zeta in Hret. rewrite Hproject in Hret.
  destruct (Str.startswith "deployment/" model);
    eexists; eexists; (split; [exact Hret|]); simpl; repeat split.
  all: try apply DictFacts.get_pop_same.
  all: unfold Dict.pop; now destruct (Dict.get "moderations" left).
Qed.

End Flattening.

Lemma extra_body_flattened_witness :
  exists payload,
    @transform_request Sample.watsonx "ibm/granite-13b" []
      (map_openai_params [("top_k", VInt 3); ("temperature", VFloat 0.5)]
         [("project_id", VStr "p1")] "ibm/granite-13b" false)
      [] []
    = Ok payload
    /\ Dict.get "parameters" payload
       = Some (VDict [("temperature", VFloat 0.5); ("top_k", VInt 3)]).
Proof.
  destruct (@extra_body_flattened Sample.watsonx
              [("top_k", VInt 3); ("temperature", VFloat 0.5)]
              [("project_id", VStr "p1")] "ibm/granite-13b" false [] [] []
              "top_k" (VInt 3) "top_k")
    as (merged & Hmerged & _ & _ & Hpayload).
  { repeat constructor; simpl; intuition discriminate. }
  { simpl. tauto. }
  { reflexivity. }
  injection Hmerged as <-.
  destruct (Hpayload "" [("project_id", VStr "p1"); ("space_id", VNone)]
              [("temperature", VFloat 0.5); ("top_k", VInt 3)] (VStr "p1")
              eq_refl eq_refl eq_refl eq_refl eq_refl)
    as (payload & parameters & Hp & _).
  exists payload. split; [exact Hp|].
  injection Hp as <-. reflexivity.
Defined.

Lemma moderations_lifted_witness :
  exists payload,
    @transform_request Sample.watsonx "ibm/granite-13b" []
      [("project_id", VStr "p1"); ("moderations", VDict [("hap", VBool true)])]
      [] []
    = Ok payload
    /\ Dict.get "moderations" payload = Some (VDict [("hap", VBool true)])
    /\ Dict.get "parameters" payload = Some (VDict []).
Proof.
  destruct (@moderations_lifted Sample.watsonx "ibm/granite-13b" []
              [("project_id", VStr "p1"); ("moderations", VDict [("hap", VBool true)])]
              [] [] ""
              [("project_id", VStr "p1"); ("moderations", VDict [("hap", VBool true)])]
              [("project_id", VStr "p1"); ("space_id", VNone)]
              [("moderations", VDict [("hap", VBool true)])] (VStr "p1")
              eq_refl eq_refl eq_refl eq_refl)
    as (payload & parameters & Hp & Hm & _).
  exists payload. split; [exact Hp|]. split; [exact Hm|].
  injection Hp as <-. reflexivity.
Defined.

Lemma rstrip_slash_app_slash u : Str.rstrip_slash (u ++ "/") = Str.rstrip_slash u.
Proof.
  induction u as [|c u IH]; [reflexivity|].
  cbn [append Str.rstrip_slash]. now rewrite IH.
Qed.

Lemma url_errors_differ : url_not_set <> space_id_required.
Proof. discriminate. Qed.

Section CompleteUrl.
Context `{SecretManager} `{WatsonxCollaborators}.

Lemma resolve_url_explicit u : u <> "" -> resolve_url (Some u) = Some u.
Proof.
  intros Hu. unfold resolve_url, or_. simpl.
  apply String.eqb_neq in Hu. now rewrite Hu.
Qed.

(** X8. A slash at the end of the base URL makes no difference: the URL
    built on [u ++ "/"] is the URL built on [u]. *)
Theorem trailing_slash_ignored (u model : string) (optional_params : dict)
    (stream : value) :
  u <> "" ->
  get_complete_url (Some (u ++ "/")) model optional_params stream
  = get_complete_url (Some u) model optional_params stream.
Proof.
  intros Hu. unfold get_complete_url.
  rewrite (resolve_url_explicit u Hu).
  rewrite resolve_url_explicit by (now destruct u).
  now rewrite rstrip_slash_app_slash.
Qed.

(** X9. [get_complete_url] fails in two ways only. It raises the
    URL-not-set error exactly when no base URL resolves, that is when
    [api_base] and the first three environment names are unset or empty and
    WML_URL is unset; it raises the space-id error exactly when a base URL
    resolves, the model is a deployment and [optional_params] has no
    [space_id]; in every other case it returns a URL. *)
Theorem get_complete_url_outcome (api_base : option string) (model : string)
    (optional_params : dict) (stream : value) :
  (resolve_url api_base = None <->
   truthy_str api_base = false
   /\ truthy_str (get_secret_str "WATSONX_API_BASE") = false
   /\ truthy_str (get_secret_str "WATSONX_URL") = false
   /\ truthy_str (get_secret_str "WX_URL") = false
   /\ get_secret_str "WML_URL" = None)
  /\ (get_complete_url api_base model optional_params stream
      = Raise url_not_set <-> resolve_url api_base = None)
  /\ (get_complete_url api_base model optional_params stream
      = Raise space_id_required <->
      resolve_url api_base <> None
      /\ Str.startswith "deployment/" model = true
      /\ is_none (Dict.get "space_id" optional_params) = true)
  /\ (returns (get_complete_url api_base model optional_params stream) = true <->
      resolve_url api_base <> None
      /\ (Str.startswith "deployment/" model = false
          \/ is_none (Dict.get "space_id" optional_params) = false)).
Proof.
  split.
  { unfold resolve_url, or_.
    destruct (truthy_str api_base) eqn:E0.
    { split; [intros Hn; rewrite Hn in E0; discriminate|intuition discriminate]. }
    destruct (truthy_str (get_secret_str "WATSONX_API_BASE")) eqn:E1.
    { split; [intros Hn; rewrite Hn in E1; discriminate|intuition discriminate]. }
    destruct (truthy_str (get_secret_str "WATSONX_URL")) eqn:E2.
    { split; [intros Hn; rewrite Hn in E2; discriminate|intuition discriminate]. }
    destruct (truthy_str (get_secret_str "WX_URL")) eqn:E3.
    { split; [intros Hn; rewrite Hn in E3; discriminate|intuition discriminate]. }
    tauto. }
  unfold get_complete_url.
  destruct (resolve_url api_base) as [url|].
  - assert (Hsome : Some url <> None) by discriminate.
    destruct (Str.startswith "deployment/" model).
    + destruct (is_none (Dict.get "space_id" optional_params)); cbn [bind].
      * cbn [returns]. split; [|split].
        -- split; [intros E; exfalso; apply url_errors_differ; congruence
                  |discriminate].
        -- tauto.
        -- split; [discriminate|intros [_ [E|E]]; discriminate].
      * destruct (Dict.pop "api_version" _ optional_params) as [v left].
        cbn [returns]. split; [|split].
        -- split; discriminate.
        -- split; [discriminate|intros (_ & _ & E); discriminate].
        -- tauto.
    + cbn [bind].
      destruct (Dict.pop "api_version" _ optional_params) as [v left].
      cbn [returns]. split; [|split].
      * split; discriminate.
      * split; [discriminate|intros (_ & E & _); discriminate].
      * tauto.
  - cbn [returns]. split; [|split].
    + tauto.
    + split; [intros E; exfalso; apply url_errors_differ; congruence
             |intros [E _]; congruence].
    + split; [discriminate|intros [E _]; congruence].
Qed.

(** X10. When [get_complete_url] returns, the URL ends with [?version=]
    and the [api_version] of [optional_params], or the default version when
    there is none, and the parameters it leaves are those it received without
    [api_version]. *)
Theorem api_version_consumed (api_base : option string) (model : string)
    (optional_params : dict) (stream : value) (url : string) (left : dict) :
  get_complete_url api_base model optional_params stream = Ok (url, left) ->
  Dict.get "api_version" left = None
  /\ (forall k, k <> "api_version" ->
                Dict.get k left = Dict.get k optional_params)
  /\ exists stem,
      url = stem ++ "?version="
            ++ py_str (match Dict.get "api_version" optional_params with
                       | Some v => v
                       | None => VStr WATSONX_DEFAULT_API_VERSION
                       end).
Proof.
  unfold get_complete_url.
  destruct (resolve_url api_base) as [base|]; [|discriminate].
  match goal with
  | |- context [bind ?e _] => destruct e as [endpoint|e']; [|discriminate]
  end.
  cbn [bind].
  pose proof (DictFacts.get_pop_same "api_version"
                (VStr WATSONX_DEFAULT_API_VERSION) optional_params) as Hsame.
  pose proof (fun k => DictFacts.get_pop_other "api_version" k
                (VStr WATSONX_DEFAULT_API_VERSION) optional_params) as Hother.
  assert (Hfst : fst (Dict.pop "api_version" (VStr WATSONX_DEFAULT_API_VERSION)
                        optional_params)
                 = match Dict.get "api_version" optional_params with
                   | Some v => v
                   | None => VStr WATSONX_DEFAULT_API_VERSION
                   end)
    by (unfold Dict.pop; now destruct (Dict.get "api_version" optional_params)).
  destruct (Dict.pop "api_version" (VStr WATSONX_DEFAULT_API_VERSION)
              optional_params) as [v left'].
  simpl in Hsame, Hother, Hfst. intros Hok. apply Ok_inj in Hok.
  injection Hok as <- <-. subst v. split; [exact Hsame|]. split.
  - intros k Hk. apply Hother. congruence.
  - eexists. reflexivity.
Qed.

End CompleteUrl.

Lemma trailing_slash_ignored_witness :
  @get_complete_url (Sample.secrets []) Sample.watsonx
    (Some "https://wx.example/") "ibm/granite-13b" [] VNone
  = Ok ("https://wx.example/ml/v1/text/generation?version=2024-03-13", []).
Proof.
  assert (Hu : "https://wx.example" <> "") by discriminate.
  exact (eq_trans
           (@trailing_slash_ignored (Sample.secrets []) Sample.watsonx
              "https://wx.example" "ibm/granite-13b" [] VNone Hu)
           eq_refl).
Defined.

Lemma get_complete_url_outcome_witness :
  @resolve_url (Sample.secrets [("WATSONX_URL", ""); ("WX_URL", "https://wx")])
    (Some "") <> None
  /\ returns
       (@get_complete_url
          (Sample.secrets [("WATSONX_URL", ""); ("WX_URL", "https://wx")])
          Sample.watsonx (Some "") "deployment/abc" [("space_id", VStr "s")]
          VNone) = true.
Proof.
  destruct (@get_complete_url_outcome
              (Sample.secrets [("WATSONX_URL", ""); ("WX_URL", "https://wx")])
              Sample.watsonx (Some "") "deployment/abc" [("space_id", VStr "s")]
              VNone) as (Hnone & _ & _ & Hreturns).
  assert (Hresolved :
            @resolve_url
              (Sample.secrets [("WATSONX_URL", ""); ("WX_URL", "https://wx")])
              (Some "") <> None).
  { intros Hn. apply Hnone in Hn. destruct Hn as (_ & _ & _ & Hwx & _).
    discriminate Hwx. }
  split; [exact Hresolved|].
  apply Hreturns. split; [exact Hresolved|]. right. reflexivity.
Defined.

Lemma api_version_consumed_witness :
  exists stem,
    "https://wx/ml/v1/text/generation?version=2025-01-01"
    = stem ++ "?version=2025-01-01".
Proof.
  destruct (@api_version_consumed (Sample.secrets []) Sample.watsonx
              (Some "https://wx") "ibm/granite-13b"
              [("api_version", VStr "2025-01-01"); ("temperature", VFloat 0.5)]
              VNone "https://wx/ml/v1/text/generation?version=2025-01-01"
              [("temperature", VFloat 0.5)] eq_refl)
    as (_ & _ & stem & Hstem).
  exists stem. exact Hstem.
Defined.

(** ** More on the pass-through routes *)

Lemma prefix_app p s : String.prefix p (p ++ s) = true.
Proof.
  induction p as [|a p IH]; simpl.
  - now destruct s.
  - destruct (ascii_dec a a); [exact IH|congruence].
Qed.

Lemma prefix_inv p : forall s, String.prefix p s = true -> exists b, s = p ++ b.
Proof.
  induction p as [|a p IH]; intros s Hp.
  - now exists s.
  - destruct s as [|c s]; [discriminate|]. simpl in Hp.
    destruct (ascii_dec a c) as [->|]; [|discriminate].
    destruct (IH s Hp) as [b ->]. now exists b.
Qed.

Lemma contains_unfold needle s :
  Str.contains needle s =
    if String.prefix needle s then true
    else match s with
         | EmptyString => false
         | String _ s' => Str.contains needle s'
         end.
Proof. now destruct s. Qed.

(** [needle in s] holds exactly when [needle] occurs in [s]. *)
Lemma contains_iff needle s :
  Str.contains needle s = true <-> exists a b, s = a ++ needle ++ b.
Proof.
  split.
  - induction s as [|c s IH]; rewrite contains_unfold;
      destruct (String.prefix needle _) eqn:Hp.
    + intros _. apply prefix_inv in Hp. destruct Hp as [b ->]. now exists "", b.
    + discriminate.
    + intros _. apply prefix_inv in Hp. destruct Hp as [b Hb].
      exists "", b. exact Hb.
    + intros Hc. destruct (IH Hc) as (a & b & ->). now exists (String c a), b.
  - intros (a & b & ->). induction a as [|c a IH].
    + rewrite contains_unfold. cbn [append]. now rewrite prefix_app.
    + rewrite contains_unfold. cbn [append].
      destruct (String.prefix needle _); [reflexivity|exact IH].
Qed.

Section RouteFacts.
Context `{SecretManager} `{PassThroughCollaborators} `{GatewayAuth}.

Lemma updated_url_path base endpoint :
  exists path,
    updated_url base endpoint = url_copy_with_path base path
    /\ Str.startswith "/" path = true
    /\ (Str.startswith "/" (url_path endpoint) = true -> path = url_path endpoint)
    /\ (Str.startswith "/" (url_path endpoint) = false ->
        path = "/" ++ url_path endpoint).
Proof.
  unfold updated_url. cbv zeta.
  destruct (Str.startswith "/" (url_path endpoint)) eqn:Hs; cbn [negb].
  - exists (url_path endpoint). repeat split; trivial. discriminate.
  - exists ("/" ++ url_path endpoint). repeat split; trivial.
    + unfold Str.startswith. simpl. now destruct (url_path endpoint).
    + discriminate.
Qed.

(** X11. Every route puts on the upstream base URL a path that begins with
    a slash: the path of the inbound endpoint as it is when it has the slash,
    with one slash added in front when it has not. *)
Theorem upstream_path_normalised (endpoint : string) (request : Request)
    (base_target_url api_key : string) :
  exists path,
    Str.startswith "/" path = true
    /\ (path = url_path endpoint \/ path = "/" ++ url_path endpoint)
    /\ (Str.startswith "/" (url_path endpoint) = true -> path = url_path endpoint)
    /\ (exists call,
           _base_openai_pass_through_handler endpoint request base_target_url
             api_key = Ok call
           /\ call_target call = url_copy_with_path base_target_url path)
    /\ (exists call,
           cohere_proxy_route endpoint request = Ok call
           /\ call_target call
              = url_copy_with_path "https://api.cohere.com" path)
    /\ (forall call,
           anthropic_proxy_route endpoint request = Ok call ->
           call_target call
           = url_copy_with_path "https://api.anthropic.com" path)
    /\ (forall call,
           gemini_proxy_route endpoint request = Ok call ->
           call_target call
           = url_copy_with_path "https://generativelanguage.googleapis.com" path).
Proof.
  set (path := if negb (Str.startswith "/" (url_path endpoint))
               then "/" ++ url_path endpoint else url_path endpoint).
  assert (Hurl : forall base, updated_url base endpoint
                              = url_copy_with_path base path) by reflexivity.
  exists path. split; [|split; [|split; [|split; [|split; [|split]]]]].
  - subst path. destruct (Str.startswith "/" (url_path endpoint)) eqn:Hs;
      cbn [negb]; trivial.
    unfold Str.startswith. simpl. now destruct (url_path endpoint).
  - subst path. destruct (Str.startswith "/" (url_path endpoint)); cbn [negb];
      auto.
  - subst path. now intros ->.
  - eexists. split; [reflexivity|]. apply Hurl.
  - eexists. split; [reflexivity|]. apply Hurl.
  - intros call. unfold anthropic_proxy_route. cbv zeta.
    match goal with
    | |- context [bind ?e _] => destruct e as [flag|e']; [|discriminate]
    end.
    cbn [bind]. intros Hc. apply Ok_inj in Hc. subst call. apply Hurl.
  - intros call. unfold gemini_proxy_route. cbv zeta.
    destruct (user_api_key_auth request _); [|discriminate]. cbn [bind].
    destruct (get_credentials "gemini" None); [|discriminate].
    intros Hc. apply Ok_inj in Hc. subst call. apply Hurl.
Qed.

(** X12. The openai, azure and gemini routes build no call without their
    credential: the openai route returns exactly when the openai credential
    resolves; the azure route exactly when both AZURE_API_BASE and the azure
    credential resolve, a missing base being reported first; and the gemini
    route fails with the error of the caller's authentication when that
    fails, and otherwise returns exactly when the gemini credential
    resolves. *)
Theorem credentials_required (endpoint : string) (request : Request) :
  let caller_key :=
    "Bearer "
    ++ format_opt
         (or_ (Query.get "key" (request_query_params request))
            (Query.get "x-goog-api-key" (request_headers request))) in
  (returns (openai_proxy_route endpoint request) = true <->
   get_credentials "openai" None <> None)
  /\ (returns (azure_proxy_route endpoint request) = true <->
      get_secret_str "AZURE_API_BASE" <> None
      /\ get_credentials "azure" None <> None)
  /\ (get_secret_str "AZURE_API_BASE" = None ->
      azure_proxy_route endpoint request
      = Raise (Exception "Required 'AZURE_API_BASE' in environment to make pass-through calls to Azure."))
  /\ (forall auth,
         user_api_key_auth request caller_key = Ok auth ->
         (returns (gemini_proxy_route endpoint request) = true <->
          get_credentials "gemini" None <> None))
  /\ (forall e,
         user_api_key_auth request caller_key = Raise e ->
         gemini_proxy_route endpoint request = Raise e).
Proof.
  intros caller_key. split; [|split; [|split; [|split]]].
  - unfold openai_proxy_route. cbv zeta.
    destruct (get_credentials "openai" None) as [key|]; cbn [returns].
    + split; [discriminate|reflexivity].
    + split; [discriminate|congruence].
  - unfold azure_proxy_route.
    destruct (get_secret_str "AZURE_API_BASE") as [base|].
    + destruct (get_credentials "azure" None) as [key|]; cbn [returns].
      * split; [intros _; split; discriminate|reflexivity].
      * split; [discriminate|intros [_ Hk]; congruence].
    + cbn [returns]. split; [discriminate|intros [Hb _]; congruence].
  - intros Hbase. unfold azure_proxy_route. now rewrite Hbase.
  - intros auth Hauth. unfold gemini_proxy_route. cbv zeta.
    fold caller_key. rewrite Hauth. cbn [bind].
    destruct (get_credentials "gemini" None) as [key|]; cbn [returns].
    + split; [discriminate|reflexivity].
    + split; [discriminate|congruence].
  - intros e Hauth. unfold gemini_proxy_route. cbv zeta.
    fold caller_key. now rewrite Hauth.
Qed.

End RouteFacts.

Lemma query_get_set_same k v q : Query.get k (Query.set k v q) = Some v.
Proof.
  induction q as [|[k' v'] q IH]; simpl.
  - now rewrite String.eqb_refl.
  - destruct (k' =? k) eqn:E; simpl.
    + now rewrite String.eqb_refl.
    + now rewrite E.
Qed.

Lemma query_get_set_other k k' v q :
  k <> k' -> Query.get k' (Query.set k v q) = Query.get k' q.
Proof.
  intros Hne. induction q as [|[k0 v0] q IH]; simpl.
  - apply String.eqb_neq in Hne. now rewrite Hne.
  - destruct (k0 =? k) eqn:E; simpl.
    + apply String.eqb_eq in E. subst k0.
      apply String.eqb_neq in Hne. now rewrite Hne.
    + now rewrite IH.
Qed.

Section MoreRouteFacts.
Context `{SecretManager} `{PassThroughCollaborators} `{GatewayAuth}.

(** X13. Each provider gets its own authentication header, built from
    whatever the credential lookup returns: cohere [Authorization: Bearer
    <key>], anthropic [x-api-key: <key>] with the caller's headers forwarded,
    assemblyai [Authorization: <key>] with no [Bearer], the key being that of
    the [eu] region on the EU route. None of the three checks the lookup, so
    a missing credential is sent upstream as the text [None]. *)
Theorem provider_auth_headers (endpoint : string) (request : Request) :
  (exists call,
      cohere_proxy_route endpoint request = Ok call
      /\ call_custom_headers call
         = [("Authorization",
             VStr ("Bearer " ++ format_opt (get_credentials "cohere" None)))])
  /\ (forall call,
         anthropic_proxy_route endpoint request = Ok call ->
         call_custom_headers call
         = [("x-api-key", VStr (format_opt (get_credentials "anthropic" None)))]
         /\ call_forward_headers call = true)
  /\ (forall call,
         assemblyai_proxy_route endpoint request = Ok call ->
         call_custom_headers call
         = [("Authorization",
             VStr (format_opt
                     (get_credentials "assemblyai"
                        (if Str.contains "eu.assemblyai" (request_url request)
                         then Some "eu" else None))))])
  /\ (get_credentials "cohere" None = None ->
      exists call,
        cohere_proxy_route endpoint request = Ok call
        /\ Dict.get "Authorization" (call_custom_headers call)
           = Some (VStr "Bearer None"))
  /\ (get_credentials "anthropic" None = None ->
      request_method request <> "POST" ->
      exists call,
        anthropic_proxy_route endpoint request = Ok call
        /\ Dict.get "x-api-key" (call_custom_headers call)
           = Some (VStr "None")).
Proof.
  split; [|split; [|split; [|split]]].
  - eexists. split; reflexivity.
  - intros call. unfold anthropic_proxy_route. cbv zeta.
    match goal with
    | |- context [bind ?e _] => destruct e as [flag|e']; [|discriminate]
    end.
    cbn [bind]. intros Hc. apply Ok_inj in Hc. subst call. split; reflexivity.
  - intros call. unfold assemblyai_proxy_route. cbv zeta.
    match goal with
    | |- context [bind ?e _] => destruct e as [flag|e']; [|discriminate]
    end.
    cbn [bind]. intros Hc. apply Ok_inj in Hc. subst call. reflexivity.
  - intros Hnone. eexists. split; [reflexivity|].
    unfold cohere_proxy_route. cbv zeta. rewrite Hnone. reflexivity.
  - intros Hnone Hmethod. unfold anthropic_proxy_route. cbv zeta.
    apply String.eqb_neq in Hmethod. rewrite Hmethod, Hnone. cbn [bind].
    eexists. split; reflexivity.
Qed.

(** X14. On the gemini route the provider's key wins over the caller's: the
    forwarded query parameters hold the gemini credential under [key],
    whatever [key] the caller sent, and every other query parameter as the
    caller sent it; the caller's own key, from the [key] query parameter or
    else the [x-goog-api-key] header, only authenticates the caller. *)
Theorem gemini_key_injected (endpoint : string) (request : Request)
    (gemini_api_key : string) (auth : unit) :
  user_api_key_auth request
    ("Bearer "
     ++ format_opt
          (or_ (Query.get "key" (request_query_params request))
             (Query.get "x-goog-api-key" (request_headers request))))
  = Ok auth ->
  get_credentials "gemini" None = Some gemini_api_key ->
  exists call merged_params,
    gemini_proxy_route endpoint request = Ok call
    /\ call_query_params call = Some merged_params
    /\ Query.get "key" merged_params = Some gemini_api_key
    /\ (forall k, k <> "key" ->
                  Query.get k merged_params
                  = Query.get k (request_query_params request))
    /\ call_custom_headers call = [].
Proof.
  intros Hauth Hkey. unfold gemini_proxy_route. cbv zeta.
  rewrite Hauth. cbn [bind]. rewrite Hkey.
  eexists. eexists. split; [reflexivity|]. cbn.
  split; [reflexivity|]. split; [apply query_get_set_same|].
  split; [|reflexivity].
  intros k Hk. apply query_get_set_other. congruence.
Qed.

(** X15. The openai, azure, cohere and gemini routes take a call for a
    streaming call exactly when the text [stream] occurs somewhere in the
    upstream URL; neither the method nor the body of the request plays a
    part. *)
Theorem url_stream_detection (endpoint : string) (request : Request)
    (base_target_url api_key : string) (call : PassThroughCall) :
  _base_openai_pass_through_handler endpoint request base_target_url api_key
  = Ok call
  \/ cohere_proxy_route endpoint request = Ok call
  \/ gemini_proxy_route endpoint request = Ok call ->
  call_stream call = true <->
  exists a b, call_target call = a ++ "stream" ++ b.
Proof.
  intros [Hc|[Hc|Hc]].
  - apply Ok_inj in Hc. subst call. apply contains_iff.
  - apply Ok_inj in Hc. subst call. apply contains_iff.
  - revert Hc. unfold gemini_proxy_route. cbv zeta.
    destruct (user_api_key_auth request _); [|discriminate]. cbn [bind].
    destruct (get_credentials "gemini" None); [|discriminate].
    intros Hc. apply Ok_inj in Hc. subst call. apply contains_iff.
Qed.

End MoreRouteFacts.

(** X16. An endpoint is sent to the bedrock agent runtime exactly when one
    of the agent-runtime routes occurs in it. *)
Theorem bedrock_agent_runtime_route (routes : list string) (endpoint : string) :
  _is_bedrock_agent_runtime_route routes endpoint = true <->
  exists route a b, In route routes /\ endpoint = a ++ route ++ b.
Proof.
  unfold _is_bedrock_agent_runtime_route. rewrite existsb_exists. split.
  - intros (route & Hin & Hc). apply contains_iff in Hc.
    destruct Hc as (a & b & ->). eauto.
  - intros (route & a & b & Hin & ->). exists route. split; [exact Hin|].
    apply contains_iff. eauto.
Qed.

Lemma upstream_path_normalised_witness :
  exists call,
    @openai_proxy_route (Sample.pass_through [("openai", "abc")])
      "v1/chat/completions" (Sample.post (Ok (VDict []))) = Ok call
    /\ call_target call = "https://api.openai.com/v1/chat/completions".
Proof.
  destruct (@upstream_path_normalised (Sample.pass_through [("openai", "abc")])
              Fixture.allow_all "v1/chat/completions"
              (Sample.post (Ok (VDict []))) "https://api.openai.com" "abc")
    as (path & _ & _ & _ & (call & Hcall & Htarget) & _).
  exists call. split; [exact Hcall|].
  injection Hcall as <-. reflexivity.
Defined.

Lemma credentials_required_witness :
  returns
    (@openai_proxy_route (Sample.pass_through []) "v1/models"
       (Sample.get_ (Raise JSONDecodeError))) = false
  /\ returns
       (@gemini_proxy_route (Sample.pass_through [("gemini", "g-key")])
          (Fixture.only "Bearer sk-1234") "v1beta/models"
          (Fixture.request_with "GET" [("key", "sk-1234")] [])) = true.
Proof.
  split.
  - destruct (@credentials_required (Sample.secrets [])
                (Sample.pass_through []) Fixture.allow_all "v1/models"
                (Sample.get_ (Raise JSONDecodeError))) as (Hopenai & _).
    destruct (returns _) eqn:Hr; [|reflexivity].
    exfalso. apply (proj1 Hopenai); reflexivity.
  - destruct (@credentials_required (Sample.secrets [])
                (Sample.pass_through [("gemini", "g-key")])
                (Fixture.only "Bearer sk-1234") "v1beta/models"
                (Fixture.request_with "GET" [("key", "sk-1234")] []))
      as (_ & _ & _ & Hgemini & _).
    apply (Hgemini tt eq_refl). discriminate.
Defined.

Lemma provider_auth_headers_witness :
  exists call,
    @anthropic_proxy_route (Sample.pass_through []) "v1/models"
      (Sample.get_ (Raise JSONDecodeError)) = Ok call
    /\ Dict.get "x-api-key" (call_custom_headers call) = Some (VStr "None").
Proof.
  destruct (@provider_auth_headers (Sample.pass_through []) "v1/models"
              (Sample.get_ (Raise JSONDecodeError)))
    as (_ & _ & _ & _ & Hanthropic).
  apply Hanthropic; [reflexivity|discriminate].
Defined.

Lemma gemini_key_injected_witness :
  exists call,
    @gemini_proxy_route (Sample.pass_through [("gemini", "g-key")])
      (Fixture.only "Bearer sk-1234") "v1beta/models"
      (Fixture.request_with "GET" [("alt", "sse"); ("key", "sk-1234")] [])
    = Ok call
    /\ call_query_params call = Some [("alt", "sse"); ("key", "g-key")].
Proof.
  destruct (@gemini_key_injected (Sample.pass_through [("gemini", "g-key")])
              (Fixture.only "Bearer sk-1234") "v1beta/models"
              (Fixture.request_with "GET" [("alt", "sse"); ("key", "sk-1234")] [])
              "g-key" tt eq_refl eq_refl)
    as (call & merged & Hcall & Hq & _).
  exists call. split; [exact Hcall|].
  injection Hcall as <-. reflexivity.
Defined.

Lemma url_stream_detection_witness :
  exists call,
    @cohere_proxy_route (Sample.pass_through [("cohere", "c-key")])
      "v1/chat-stream-test" (Sample.get_ (Raise JSONDecodeError)) = Ok call
    /\ call_stream call = true.
Proof.
  eexists. split; [reflexivity|].
  apply (@url_stream_detection (Sample.pass_through [("cohere", "c-key")])
           Fixture.allow_all "v1/chat-stream-test"
           (Sample.get_ (Raise JSONDecodeError)) "" "").
  - right. left. reflexivity.
  - exists "https://api.cohere.com/v1/chat-", "-test". reflexivity.
Defined.

Lemma bedrock_agent_runtime_route_witness :
  _is_bedrock_agent_runtime_route ["agents/"; "knowledgebases/"]
    "/agents/AGENT1/agentAliases/A1/sessions/s1/text" = true.
Proof.
  apply bedrock_agent_runtime_route.
  exists "agents/", "/", "AGENT1/agentAliases/A1/sessions/s1/text".
  split; [simpl; tauto|reflexivity].
Defined.

(** ** More on the secret helpers *)

Lemma b64encode_length b :
  exists m, String.length (Base64.b64encode b) = (4 * m)%nat.
Proof.
  induction b as [|a|a b|a b c r IH] using bytes_ind3.
  - now exists 0%nat.
  - now exists 1%nat.
  - now exists 1%nat.
  - destruct IH as [m Hm]. exists (S m).
    cbn [Base64.b64encode]. cbv zeta. cbn [String.length]. rewrite Hm. lia.
Qed.

Lemma pystr_of_string_length b :
  List.length (pystr_of_string b) = String.length b.
Proof.
  unfold pystr_of_string. rewrite length_map.
  induction b as [|c b IH]; simpl; congruence.
Qed.

Lemma pystr_of_string_ascii b :
  Utf8.ascii_only b = true ->
  Forall (fun c => (c < 128)%N) (pystr_of_string b).
Proof.
  unfold pystr_of_string.
  induction b as [|c b IH]; cbn [Utf8.ascii_only list_ascii_of_string map];
    intros Hb; constructor.
  - apply andb_prop in Hb. now apply N.ltb_lt.
  - apply andb_prop in Hb. now apply IH.
Qed.

Section MoreSecrets.
Context `{Crypto}.

(** The helpers under two process states that resolve to the same signing
    key. *)
Lemma helper_round_trip (before after : ProxyState) (s key : pystr)
    (nonce : bytes) :
  (forall k n m, box_decrypt k (box_encrypt k n m) = Ok m) ->
  forallb Utf8.is_scalar s = true ->
  forallb Utf8.is_scalar key = true ->
  @_get_salt_key before = Some key ->
  @_get_salt_key after = Some key ->
  exists stored,
    @encrypt_value_helper _ before (OStr s) nonce = Ok (OStr stored)
    /\ @decrypt_value_helper _ after (OStr stored) = Ok (OStr s).
Proof.
  intros Hbox Hs Hkey Hbefore Hafter.
  destruct (encrypt_decrypt_value s key nonce Hbox Hs Hkey)
    as (encrypted & Henc & Hdec).
  exists (pystr_of_string (Base64.b64encode encrypted)). split.
  - unfold encrypt_value_helper. cbv zeta. rewrite Hbefore, Henc. cbn [bind].
    now rewrite decode_ascii by apply b64encode_ascii.
  - unfold decrypt_value_helper, Base64.b64decode. cbv zeta.
    rewrite Hafter, encode_ascii_codes by apply b64encode_ascii.
    rewrite a2b_base64_b64encode. cbn [bind]. now rewrite Hdec.
Qed.

(** X17. The salt key shields stored secrets from a change of master key:
    [_get_salt_key] is LITELLM_SALT_KEY whenever it is set and the master key
    only when it is not, so a value encrypted under a salt key is decrypted
    after the master key has changed, as long as the salt key has not. *)
Theorem salt_key_precedence (salt : pystr) (old_master new_master : option pystr)
    (s : pystr) (nonce : bytes) :
  (forall k n m, box_decrypt k (box_encrypt k n m) = Ok m) ->
  forallb Utf8.is_scalar s = true ->
  forallb Utf8.is_scalar salt = true ->
  let before := {| LITELLM_SALT_KEY := Some salt; master_key := old_master |} in
  let after := {| LITELLM_SALT_KEY := Some salt; master_key := new_master |} in
  @_get_salt_key before = Some salt
  /\ @_get_salt_key {| LITELLM_SALT_KEY := None; master_key := old_master |}
     = old_master
  /\ exists stored,
      @encrypt_value_helper _ before (OStr s) nonce = Ok (OStr stored)
      /\ @decrypt_value_helper _ after (OStr stored) = Ok (OStr s).
Proof.
  intros Hbox Hs Hsalt before after.
  split; [reflexivity|]. split; [reflexivity|].
  now apply (helper_round_trip before after s salt nonce).
Qed.

Section OneState.
Context `{ProxyState}.

(** X18. What [encrypt_value_helper] returns for a string is base64 text of
    the ciphertext: ASCII characters only, a multiple of four of them, and
    text that [base64.b64decode] turns back into the very bytes that
    [encrypt_value] produced. *)
Theorem stored_value_is_base64 (s : pystr) (nonce : bytes) (stored : obj) :
  encrypt_value_helper (OStr s) nonce = Ok stored ->
  exists text encrypted,
    stored = OStr text
    /\ encrypt_value s _get_salt_key nonce = Ok encrypted
    /\ Forall (fun c => (c < 128)%N) text
    /\ (exists m, List.length text = (4 * m)%nat)
    /\ Base64.b64decode text = Ok encrypted.
Proof.
  unfold encrypt_value_helper. cbv zeta.
  destruct (encrypt_value s _get_salt_key nonce) as [encrypted|e];
    [|discriminate].
  cbn [bind]. rewrite decode_ascii by apply b64encode_ascii. cbn [bind try_except].
  intros Hs. apply Ok_inj in Hs. subst stored.
  exists (pystr_of_string (Base64.b64encode encrypted)), encrypted.
  split; [reflexivity|]. split; [reflexivity|]. split; [|split].
  - apply pystr_of_string_ascii, b64encode_ascii.
  - rewrite pystr_of_string_length. apply b64encode_length.
  - unfold Base64.b64decode.
    rewrite encode_ascii_codes by apply b64encode_ascii.
    apply a2b_base64_b64encode.
Qed.

(** X19. A value that is not a string goes through both helpers unchanged,
    whatever the key. With neither a salt key nor a master key, the two
    helpers differ on a string: [encrypt_value_helper] raises
    [AttributeError], [decrypt_value_helper] returns [None]. *)
Theorem helpers_without_string_or_key (value : obj) (nonce : bytes) :
  ((forall s, value <> OStr s) ->
   encrypt_value_helper value nonce = Ok value
   /\ decrypt_value_helper value = Ok value)
  /\ (_get_salt_key = None ->
      forall s,
        encrypt_value_helper (OStr s) nonce = Raise AttributeError
        /\ decrypt_value_helper (OStr s) = Ok ONone).
Proof.
  split.
  - intros Hv. destruct value as [s| | |]; [now destruct (Hv s)| | |];
      split; reflexivity.
  - intros Hkey s. split.
    + unfold encrypt_value_helper, encrypt_value. cbv zeta.
      now rewrite Hkey.
    + unfold decrypt_value_helper, decrypt_value. cbv zeta. rewrite Hkey.
      now destruct (Base64.b64decode s).
Qed.

End OneState.
End MoreSecrets.

Lemma salt_key_precedence_witness :
  let salt := pystr_of_string "salt-1" in
  exists stored,
    @encrypt_value_helper Sample.plain_box
      (Sample.proxy (Some salt) (Some (pystr_of_string "sk-old")))
      (OStr (pystr_of_string "secret")) "nonce" = Ok (OStr stored)
    /\ @decrypt_value_helper Sample.plain_box
         (Sample.proxy (Some salt) (Some (pystr_of_string "sk-new")))
         (OStr stored) = Ok (OStr (pystr_of_string "secret")).
Proof.
  intros salt.
  destruct (@salt_key_precedence Sample.plain_box salt
              (Some (pystr_of_string "sk-old")) (Some (pystr_of_string "sk-new"))
              (pystr_of_string "secret") "nonce"
              (fun _ _ _ => eq_refl) eq_refl eq_refl)
    as (_ & _ & Hround).
  exact Hround.
Defined.

Lemma stored_value_is_base64_witness :
  exists text,
    @encrypt_value_helper Sample.plain_box
      (Sample.proxy None (Some (pystr_of_string "sk-1234")))
      (OStr (pystr_of_string "hi")) "nonce" = Ok (OStr text)
    /\ List.length text = 4%nat.
Proof.
  destruct (@stored_value_is_base64 Sample.plain_box
              (Sample.proxy None (Some (pystr_of_string "sk-1234")))
              (pystr_of_string "hi") "nonce"
              (OStr (pystr_of_string "aGk=")) eq_refl)
    as (text & encrypted & Htext & _).
  exists text. injection Htext as <-. split; reflexivity.
Defined.

Lemma helpers_without_string_or_key_witness :
  @encrypt_value_helper Sample.plain_box (Sample.proxy None None)
    (OStr (pystr_of_string "secret")) "nonce" = Raise AttributeError
  /\ @decrypt_value_helper Sample.plain_box (Sample.proxy None None) (OInt 5)
     = Ok (OInt 5).
Proof.
  destruct (@helpers_without_string_or_key Sample.plain_box
              (Sample.proxy None None) (OInt 5) "nonce") as (Hother & Hnokey).
  split.
  - apply (Hnokey eq_refl).
  - apply Hother. discriminate.
Defined.

(** ** Prompt management *)

Lemma update_nil_nodup (d : dict) :
  NoDup (Dict.keys d) -> forall acc,
  (forall k, In k (Dict.keys d) -> Dict.get k acc = None) ->
  Dict.update acc d = (acc ++ d)%list.
Proof.
  unfold Dict.update.
  induction d as [|[k v] d IH]; intros Hnd acc Hfresh; simpl.
  - now rewrite app_nil_r.
  - inversion Hnd as [|? ? Hnotin Hnd']; subst.
    assert (Hset : Dict.set k v acc = (acc ++ [(k, v)])%list).
    { assert (Hk : Dict.get k acc = None) by (apply Hfresh; now left).
      clear - Hk. induction acc as [|[k0 v0] acc IHa]; simpl in *; trivial.
      destruct (k0 =? k); [discriminate|]. now rewrite IHa. }
    rewrite Hset, IH; trivial.
    + now rewrite <- app_assoc.
    + intros k' Hin. rewrite <- Hset.
      rewrite DictFacts.get_set_other.
      * apply Hfresh. now right.
      * intros ->. contradiction.
Qed.

Lemma dict_copy (d : dict) : NoDup (Dict.keys d) -> Dict.update [] d = d.
Proof.
  intros Hnd. now rewrite update_nil_nodup.
Qed.

Lemma replace_skip (field by_ : string) (a s : string) :
  Str.replace_from (String.length a) field by_ (a ++ s)
  = Str.replace_from O field by_ s.
Proof.
  induction a as [|c a IH]; [reflexivity|].
  cbn [String.length append]. destruct s as [|c' s].
  - clear IH. induction a as [|c0 a IHa]; [reflexivity|].
    cbn [String.length append Str.replace_from] in *. exact IHa.
  - cbn [Str.replace_from]. exact IH.
Qed.

Lemma replace_prefix (p rest : string) :
  p <> "" ->
  Str.replace_from O p "" (p ++ rest) = Str.replace_from O p "" rest.
Proof.
  destruct p as [|c p]; [congruence|]. intros _.
  change (String c p ++ rest) with (String c (p ++ rest)).
  cbn [Str.replace_from].
  change (String c (p ++ rest)) with (String c p ++ rest).
  rewrite prefix_app. cbn [String.length Nat.sub append].
  rewrite Nat.sub_0_r. apply replace_skip.
Qed.

Lemma replace_absent (p s : string) :
  Str.contains p s = false -> Str.replace_from O p "" s = s.
Proof.
  induction s as [|c s IH]; [reflexivity|].
  rewrite contains_unfold. cbn [Str.replace_from].
  destruct (String.prefix p (String c s)); [discriminate|].
  intros Hc. now rewrite IH.
Qed.

Lemma prefix_short (m x y : string) :
  String.prefix m (x ++ y) = true -> String.length m <= String.length x ->
  String.prefix m x = true.
Proof.
  revert x. induction m as [|c m IH]; intros x Hp Hlen; [now destruct x|].
  destruct x as [|d x]; [simpl in Hlen; lia|].
  cbn [append] in Hp. simpl in Hp |- *.
  destruct (ascii_dec c d); [|discriminate].
  apply IH; trivial. simpl in Hlen. lia.
Qed.

Lemma length_append (a b : string) :
  String.length (a ++ b) = String.length a + String.length b.
Proof.
  induction a as [|c a IH]; [reflexivity|]. cbn [append String.length].
  now rewrite IH.
Qed.

(** [str.replace] with an empty replacement, at the leftmost occurrence of
    [name ++ "/"]: what is before it is kept, and the replacement goes on
    after it. *)
Lemma replace_leftmost (name a b : string) :
  Str.contains (name ++ "/") (a ++ name) = false ->
  Str.replace_from O (name ++ "/") "" (a ++ (name ++ "/") ++ b)
  = a ++ Str.replace_from O (name ++ "/") "" b.
Proof.
  induction a as [|c a IH]; intros Hfirst.
  - cbn [append]. apply replace_prefix. now destruct name.
  - rewrite contains_unfold in Hfirst.
    destruct (String.prefix (name ++ "/") (String c a ++ name)) eqn:Hp;
      [discriminate|].
    cbn [append] in Hfirst.
    assert (Hhere : String.prefix (name ++ "/")
                      (String c (a ++ (name ++ "/") ++ b)) = false).
    { destruct (String.prefix (name ++ "/")
                  (String c (a ++ (name ++ "/") ++ b))) eqn:Hq; trivial.
      rewrite <- Hp. symmetry.
      apply (prefix_short _ _ ("/" ++ b)).
      - change (String c a ++ name) with (String c (a ++ name)).
        cbn [append].
        replace ((a ++ name) ++ String "/" b) with (a ++ (name ++ "/") ++ b);
          [exact Hq|].
        rewrite <- (append_assoc_l name "/" b).
        now rewrite append_assoc_l.
      - rewrite !length_append. cbn [String.length]. lia. }
    cbn [append Str.replace_from]. rewrite Hhere.
    now rewrite IH.
Qed.

Section PromptFacts.
Context `{PromptManagement}.

Lemma compile_prompt_inv prompt_id prompt_variables client_messages compiled :
  compile_prompt prompt_id prompt_variables client_messages = Ok compiled ->
  exists client template,
    _compile_prompt_helper prompt_id prompt_variables = Ok client
    /\ Dict.get "prompt_template" client = Some (VList template)
    /\ compiled = Dict.set "completed_messages"
                    (VList (template ++ client_messages)) client.
Proof.
  unfold compile_prompt, dict_item.
  destruct (_compile_prompt_helper prompt_id prompt_variables) as [client|e];
    [|discriminate].
  cbn [bind].
  destruct (Dict.get "prompt_template" client) as [t|] eqn:Ht; [|discriminate].
  cbn [bind]. destruct t; try discriminate. cbn [list_add bind].
  intros Hc. apply Ok_inj in Hc. subst compiled.
  exists client, l. repeat split; trivial.
Qed.

Lemma or_completed (template messages : list value) :
  or_value (VList (template ++ messages)) (VList messages)
  = VList (template ++ messages).
Proof.
  unfold or_value. cbn [truthy].
  destruct (template ++ messages)%list eqn:E; [|reflexivity].
  apply app_eq_nil in E. destruct E as [_ ->]. reflexivity.
Qed.

(** X20. When prompt management runs, the messages that
    [get_chat_completion_prompt] returns are the prompt's template followed
    by the caller's messages, in this order. A [completed_messages] that the
    integration's helper had filled in is overwritten, and the fallback to
    the caller's messages alone never changes the result. *)
Theorem completed_messages_are_template_then_client
    (model : string) (messages : list value) (non_default_params : dict)
    (prompt_id : string) (prompt_variables : option dict)
    (dynamic_callback_params : dict) (m msgs : value) (params : dict) :
  should_run_prompt_management prompt_id dynamic_callback_params = true ->
  get_chat_completion_prompt model messages non_default_params prompt_id
    prompt_variables dynamic_callback_params = Ok (m, msgs, params) ->
  exists client template,
    _compile_prompt_helper prompt_id prompt_variables = Ok client
    /\ Dict.get "prompt_template" client = Some (VList template)
    /\ msgs = VList (template ++ messages).
Proof.
  intros Hrun. unfold get_chat_completion_prompt. rewrite Hrun. cbn [negb].
  destruct (compile_prompt prompt_id prompt_variables messages) as [compiled|e]
    eqn:Hc; [|discriminate].
  apply compile_prompt_inv in Hc.
  destruct Hc as (client & template & Hhelper & Htemplate & ->).
  cbn [bind]. unfold dict_item at 1.
  rewrite DictFacts.get_set_same. cbn [bind]. rewrite or_completed.
  destruct (dict_item _ "optional_params") as [optional|e]; [|discriminate].
  cbn [bind].
  destruct (dict_display _ _) as [updated|e]; [|discriminate].
  cbn [bind].
  destruct (_get_model_from_prompt _ _) as [model'|e]; [|discriminate].
  cbn [bind]. intros Hok. apply Ok_inj in Hok.
  injection Hok as _ <- _. now exists client, template.
Qed.

(** X21. The prompt's optional parameters win over the caller's: when the
    helper's prompt has a dictionary of [optional_params], a key of it is
    returned with the prompt's value and every other key with the caller's
    value; when its [optional_params] is [None] or empty, the caller's
    parameters are returned as they are. *)
Theorem template_params_override
    (model : string) (messages : list value) (non_default_params : dict)
    (prompt_id : string) (prompt_variables : option dict)
    (dynamic_callback_params : dict) (client : dict) (optional : value)
    (m msgs : value) (params : dict) :
  should_run_prompt_management prompt_id dynamic_callback_params = true ->
  NoDup (Dict.keys non_default_params) ->
  _compile_prompt_helper prompt_id prompt_variables = Ok client ->
  Dict.get "optional_params" client = Some optional ->
  get_chat_completion_prompt model messages non_default_params prompt_id
    prompt_variables dynamic_callback_params = Ok (m, msgs, params) ->
  (truthy optional = false -> params = non_default_params)
  /\ (forall template_params,
        optional = VDict template_params ->
        NoDup (Dict.keys template_params) ->
        forall k,
          Dict.get k params
          = match Dict.get k template_params with
            | Some v => Some v
            | None => Dict.get k non_default_params
            end).
Proof.
  intros Hrun Hnd Hhelper Hopt. unfold get_chat_completion_prompt.
  rewrite Hrun. cbn [negb].
  destruct (compile_prompt prompt_id prompt_variables messages) as [compiled|e]
    eqn:Hc; [|discriminate].
  apply compile_prompt_inv in Hc.
  destruct Hc as (client' & template & Hhelper' & Htemplate & ->).
  rewrite Hhelper in Hhelper'. apply Ok_inj in Hhelper'. subst client'.
  cbn [bind]. unfold dict_item at 1.
  rewrite DictFacts.get_set_same. cbn [bind].
  unfold dict_item at 1.
  rewrite DictFacts.get_set_other by discriminate. rewrite Hopt. cbn [bind].
  destruct (dict_display _ _) as [updated|e] eqn:Hd; [|discriminate].
  cbn [bind].
  destruct (_get_model_from_prompt _ _) as [model'|e]; [|discriminate].
  cbn [bind]. intros Hok. apply Ok_inj in Hok.
  injection Hok as _ _ <-. split.
  - intros Hfalsy. unfold or_value in Hd. rewrite Hfalsy in Hd.
    cbn [dict_display Dict.update fold_left] in Hd.
    apply Ok_inj in Hd. subst updated. now apply dict_copy.
  - intros template_params -> Hndt k. unfold or_value in Hd.
    destruct template_params as [|kv rest].
    + cbn [truthy dict_display Dict.update fold_left] in Hd.
      apply Ok_inj in Hd. subst updated.
      cbn [Dict.get]. now rewrite dict_copy.
    + cbn [truthy dict_display] in Hd. apply Ok_inj in Hd. subst updated.
      rewrite dict_copy by assumption.
      destruct (Dict.get k (kv :: rest)) as [v|] eqn:Hk.
      * now apply get_update_present.
      * now apply DictFacts.get_update_absent.
Qed.

(** X22. The model comes from the prompt whenever the prompt names one, even
    an empty one. When the prompt's model is [None], the caller's model is
    returned with the occurrences of the marker [<integration_name>/] cut
    out, from the left: a model in which the marker does not occur is
    returned unchanged; at the first occurrence, what is before it is kept
    and the cutting goes on in what is after it, so a model that starts with
    the marker loses it. The marker is cut wherever it is, not at the start
    only, and the result may hold it again where the cuts bring its pieces
    together. *)
Theorem model_from_prompt (client : dict) (model : string) :
  (forall m, Dict.get "model" client = Some m -> m <> VNone ->
             _get_model_from_prompt client model = Ok m)
  /\ (Dict.get "model" client = Some VNone ->
      (exists cut, _get_model_from_prompt client model = Ok (VStr cut))
      /\ (Str.contains (integration_name ++ "/") model = false ->
          _get_model_from_prompt client model = Ok (VStr model))
      /\ (forall before after,
             model = before ++ (integration_name ++ "/") ++ after ->
             Str.contains (integration_name ++ "/")
               (before ++ integration_name) = false ->
             exists cut,
               _get_model_from_prompt client after = Ok (VStr cut)
               /\ _get_model_from_prompt client model
                  = Ok (VStr (before ++ cut)))
      /\ (forall rest,
             model = (integration_name ++ "/") ++ rest ->
             _get_model_from_prompt client model
             = _get_model_from_prompt client rest))
  /\ (Dict.get "model" client = None ->
      _get_model_from_prompt client model = Raise (KeyError "model")).
Proof.
  unfold _get_model_from_prompt, dict_item. split; [|split].
  - intros m -> Hm. cbn [bind]. now destruct m.
  - intros ->. cbn [bind]. split; [|split; [|split]].
    + now eexists.
    + intros Hno. now rewrite replace_absent.
    + intros before after -> Hfirst. eexists. split; [reflexivity|].
      now rewrite replace_leftmost.
    + intros rest ->. rewrite replace_prefix; trivial.
      now destruct integration_name.
  - intros ->. reflexivity.
Qed.

(** X23. [get_chat_completion_prompt] returns exactly when prompt management
    is not to run, or the helper returns a prompt whose [prompt_template] is
    a list, whose [optional_params] is present and is a dictionary or falsy,
    and whose [model] is present. In the first case it returns its three
    inputs and the helper's result plays no part. *)
Theorem get_chat_completion_prompt_outcome
    (model : string) (messages : list value) (non_default_params : dict)
    (prompt_id : string) (prompt_variables : option dict)
    (dynamic_callback_params : dict) :
  (should_run_prompt_management prompt_id dynamic_callback_params = false ->
   get_chat_completion_prompt model messages non_default_params prompt_id
     prompt_variables dynamic_callback_params
   = Ok (VStr model, VList messages, non_default_params))
  /\ (should_run_prompt_management prompt_id dynamic_callback_params = true ->
      (returns (get_chat_completion_prompt model messages non_default_params
                  prompt_id prompt_variables dynamic_callback_params) = true
       <-> exists client template optional,
            _compile_prompt_helper prompt_id prompt_variables = Ok client
            /\ Dict.get "prompt_template" client = Some (VList template)
            /\ Dict.get "optional_params" client = Some optional
            /\ (truthy optional = false \/ exists d, optional = VDict d)
            /\ Dict.get "model" client <> None)).
Proof.
  unfold get_chat_completion_prompt. split.
  - now intros ->.
  - intros ->. cbn [negb].
    destruct (compile_prompt prompt_id prompt_variables messages) as [compiled|e]
      eqn:Hc.
    + apply compile_prompt_inv in Hc.
      destruct Hc as (client & template & Hhelper & Htemplate & ->).
      cbn [bind]. unfold dict_item at 1.
      rewrite DictFacts.get_set_same. cbn [bind].
      unfold dict_item at 1.
      rewrite DictFacts.get_set_other by discriminate.
      unfold _get_model_from_prompt, dict_item.
      rewrite DictFacts.get_set_other by discriminate.
      destruct (Dict.get "optional_params" client) as [optional|] eqn:Hopt.
      * cbn [bind]. rewrite or_completed. unfold or_value.
        destruct (truthy optional) eqn:Htruthy.
        -- destruct optional as [|b|z|f|s|l|d];
             try (cbn [dict_display bind returns]; split; [discriminate|];
                  intros (c & t & o & Hh & _ & Ho & [Hf|[d Hd]] & _);
                  rewrite Hhelper in Hh; apply Ok_inj in Hh; subst c;
                  rewrite Hopt in Ho; injection Ho as <-; congruence).
           cbn [dict_display bind].
           destruct (Dict.get "model" client) as [cm|] eqn:Hm.
           ++ cbn [bind]. split.
              ** intros _. exists client, template, (VDict d).
                 repeat split; trivial; [right; now exists d|].
                 rewrite Hm. discriminate.
              ** intros _. now destruct cm.
           ++ cbn [bind returns]. split; [discriminate|].
              intros (c & t & o & Hh & _ & _ & _ & Hmodel).
              rewrite Hhelper in Hh. apply Ok_inj in Hh. subst c.
              now rewrite Hm in Hmodel.
        -- cbn [dict_display bind].
           destruct (Dict.get "model" client) as [cm|] eqn:Hm.
           ++ cbn [bind]. split.
              ** intros _. exists client, template, optional.
                 repeat split; trivial; [now left|].
                 rewrite Hm. discriminate.
              ** intros _. now destruct cm.
           ++ cbn [bind returns]. split; [discriminate|].
              intros (c & t & o & Hh & _ & _ & _ & Hmodel).
              rewrite Hhelper in Hh. apply Ok_inj in Hh. subst c.
              now rewrite Hm in Hmodel.
      * cbn [bind returns]. split; [discriminate|].
        intros (c & t & o & Hh & _ & Ho & _).
        rewrite Hhelper in Hh. apply Ok_inj in Hh. subst c.
        rewrite Hopt in Ho. discriminate.
    + cbn [bind returns]. split; [discriminate|].
      intros (c & t & o & Hh & Ht & _).
      unfold compile_prompt, dict_item in Hc. rewrite Hh in Hc.
      cbn [bind] in Hc. rewrite Ht in Hc. discriminate.
Qed.

End PromptFacts.

Lemma completed_messages_are_template_then_client_witness :
  let client :=
    [("prompt_id", VStr "p1");
     ("prompt_template", VList [PromptFixture.system_message "Be brief."]);
     ("model", VNone); ("optional_params", VNone);
     ("completed_messages", VList [PromptFixture.user_message "stale"])] in
  exists c template,
    Dict.get "prompt_template" c = Some (VList template)
    /\ VList [PromptFixture.system_message "Be brief.";
              PromptFixture.user_message "hi"]
       = VList (template ++ [PromptFixture.user_message "hi"]).
Proof.
  intros client.
  destruct (@completed_messages_are_template_then_client
              (PromptFixture.langfuse true (Ok client))
              "langfuse/gpt-4o" [PromptFixture.user_message "hi"] [] "p1" None []
              (VStr "gpt-4o")
              (VList [PromptFixture.system_message "Be brief.";
                      PromptFixture.user_message "hi"])
              [] eq_refl eq_refl)
    as (c & template & _ & Htemplate & Hmsgs).
  now exists c, template.
Defined.

Lemma template_params_override_witness :
  let client :=
    [("prompt_template", VList []); ("model", VStr "gpt-4o");
     ("optional_params", VDict [("temperature", VInt 0)])] in
  let params := [("temperature", VInt 0); ("max_tokens", VInt 10)] in
  Dict.get "temperature" params = Some (VInt 0)
  /\ Dict.get "max_tokens" params = Some (VInt 10).
Proof.
  intros client params.
  assert (Hnd1 : NoDup (Dict.keys [("temperature", VInt 1); ("max_tokens", VInt 10)])).
  { repeat constructor; simpl; intuition discriminate. }
  assert (Hnd2 : NoDup (Dict.keys [("temperature", VInt 0)])).
  { repeat constructor; simpl; intuition discriminate. }
  destruct (@template_params_override
              (PromptFixture.langfuse true (Ok client))
              "langfuse/x" [] [("temperature", VInt 1); ("max_tokens", VInt 10)]
              "p1" None [] client (VDict [("temperature", VInt 0)])
              (VStr "gpt-4o") (VList []) params
              eq_refl Hnd1 eq_refl eq_refl eq_refl) as [_ Hget].
  split.
  - exact (Hget _ eq_refl Hnd2 "temperature").
  - exact (Hget _ eq_refl Hnd2 "max_tokens").
Defined.

Lemma model_from_prompt_witness :
  let langfuse := PromptFixture.langfuse true (Ok []) in
  @_get_model_from_prompt langfuse [("model", VNone)] "langfuse/gpt-4o"
  = Ok (VStr "gpt-4o")
  /\ @_get_model_from_prompt langfuse [("model", VNone)]
       "openai/langfuse/gpt-4o" = Ok (VStr "openai/gpt-4o")
  /\ @_get_model_from_prompt langfuse [("model", VNone)]
       "langfuse/lalangfuse/ngfuse/x" = Ok (VStr "langfuse/x")
  /\ @_get_model_from_prompt langfuse [("model", VStr "")] "langfuse/gpt-4o"
     = Ok (VStr "").
Proof.
  intros langfuse.
  destruct (@model_from_prompt langfuse [("model", VNone)] "langfuse/gpt-4o")
    as (_ & Hprefix & _).
  destruct (@model_from_prompt langfuse [("model", VNone)]
              "openai/langfuse/gpt-4o") as (_ & Hmiddle & _).
  destruct (@model_from_prompt langfuse [("model", VNone)]
              "langfuse/lalangfuse/ngfuse/x") as (_ & Htwice & _).
  destruct (@model_from_prompt langfuse [("model", VStr "")] "langfuse/gpt-4o")
    as (Hsome & _ & _).
  split; [|split; [|split]].
  - destruct (Hprefix eq_refl) as (_ & _ & _ & Hcut).
    rewrite (Hcut "gpt-4o" eq_refl). reflexivity.
  - destruct (Hmiddle eq_refl) as (_ & _ & Hcut & _).
    destruct (Hcut "openai/" "gpt-4o" eq_refl eq_refl) as (cut & Hafter & Hall).
    apply Ok_inj in Hafter. injection Hafter as <-. exact Hall.
  - destruct (Htwice eq_refl) as (_ & _ & Hcut & _).
    destruct (Hcut "" "lalangfuse/ngfuse/x" eq_refl eq_refl)
      as (cut & Hafter & Hall).
    apply Ok_inj in Hafter. injection Hafter as <-. exact Hall.
  - apply Hsome; [reflexivity|discriminate].
Defined.

Lemma get_chat_completion_prompt_outcome_witness :
  let client :=
    [("prompt_template", VList []); ("model", VNone);
     ("optional_params", VList [VInt 1])] in
  @get_chat_completion_prompt (PromptFixture.langfuse false (Raise ValueError))
    "gpt-4o" [] [] "p1" None [] = Ok (VStr "gpt-4o", VList [], [])
  /\ returns (@get_chat_completion_prompt
                (PromptFixture.langfuse true (Ok client))
                "gpt-4o" [] [] "p1" None []) = false.
Proof.
  intros client.
  destruct (@get_chat_completion_prompt_outcome
              (PromptFixture.langfuse false (Raise ValueError))
              "gpt-4o" [] [] "p1" None []) as [Hskip _].
  destruct (@get_chat_completion_prompt_outcome
              (PromptFixture.langfuse true (Ok client))
              "gpt-4o" [] [] "p1" None []) as [_ Hrun].
  split; [exact (Hskip eq_refl)|].
  destruct (returns _) eqn:Hr; [|reflexivity].
  destruct (proj1 (Hrun eq_refl) eq_refl)
    as (c & t & o & Hh & _ & Ho & [Hf|[d Hd]] & _);
    apply Ok_inj in Hh; subst c; injection Ho as <-; discriminate.
Defined.

(** ** The cache routes *)

Lemma is_redis_spec (c : Cache) :
  (type_ c =? "redis") && is_redis_cache c = true
  <-> type_ c = "redis" /\ is_redis_cache c = true.
Proof.
  rewrite andb_true_iff. now rewrite String.eqb_eq.
Qed.

Section CacheFacts.
Context `{RoutePrinting}.

(** X24. [cache_delete] has two outcomes only: the success object, or an
    [HTTPException] with status 500 whose detail wraps the text of the
    exception caught. It succeeds exactly when the cache is set, the body is
    an object, the cache type is [redis] and the deletion itself succeeds.
    The 503 raised for a cache that is not set is caught as well: the caller
    gets 500. The deletion is the only call made on the cache, at most once,
    on a [redis] cache only, with the [keys] of the body. *)
Theorem cache_delete_outcome (cache : option Cache) (request : Request) :
  let success := Returned (VDict [("status", VStr "success")]) in
  (snd (cache_delete cache request) = success
   \/ exists e,
       snd (cache_delete cache request)
       = Raised (HTTPError 500 ("Cache Delete Failed(" ++ str_exn e ++ ")")))
  /\ (snd (cache_delete cache request) = success <->
      exists c body keys,
        cache = Some c /\ request_json request = Ok body
        /\ value_get body "keys" = Ok keys /\ type_ c = "redis"
        /\ delete_cache_keys c keys = Ok tt)
  /\ (cache = None ->
      cache_delete cache request
      = ([], Raised (HTTPError 500
                       ("Cache Delete Failed(" ++ str_exn not_initialized
                        ++ ")"))))
  /\ (forall made, In made (fst (cache_delete cache request)) ->
      fst (cache_delete cache request) = [made]
      /\ exists c body keys,
          cache = Some c /\ request_json request = Ok body
          /\ value_get body "keys" = Ok keys /\ type_ c = "redis"
          /\ made = delete_cache_keys_call keys).
Proof.
  intros success. subst success. unfold cache_delete.
  destruct cache as [c|].
  2:{ cbn. repeat split; try discriminate; try contradiction.
      - right. now eexists.
      - intros (c & body & keys & Hc & _). discriminate. }
  destruct (request_json request) as [body|e] eqn:Hbody.
  2:{ cbn. repeat split; try discriminate; try contradiction.
      - right. now eexists.
      - intros (c' & body & keys & _ & Hb & _). discriminate. }
  destruct (value_get body "keys") as [keys|e] eqn:Hkeys.
  2:{ cbn [lift route_bind route_try route_ret route_raise fst snd app].
      rewrite Hkeys.
      cbn [lift route_bind route_try route_ret route_raise fst snd app].
      repeat split; try discriminate; try contradiction.
      - right. now eexists.
      - intros (c' & body' & keys & _ & Hb & Hk & _).
        apply Ok_inj in Hb. subst body'. rewrite Hkeys in Hk. discriminate. }
  cbn [lift route_bind route_try route_ret route_raise fst snd app].
  rewrite Hkeys.
  cbn [lift route_bind route_try route_ret route_raise fst snd app].
  destruct (type_ c =? "redis") eqn:Htype.
  - apply String.eqb_eq in Htype.
    destruct (delete_cache_keys c keys) as [[]|e] eqn:Hdel;
      cbn [call lift route_bind route_try route_ret route_raise fst snd app].
    + repeat split; try discriminate; trivial.
      * now left.
      * intros _. now exists c, body, keys.
      * match goal with Hin : In _ _ |- _ => destruct Hin as [<-|[]] end.
        reflexivity.
      * match goal with Hin : In _ _ |- _ => destruct Hin as [<-|[]] end.
        now exists c, body, keys.
    + repeat split; try discriminate; trivial.
      * right. now eexists.
      * intros (c' & body' & keys' & Hc & Hb & Hk & _ & Hd).
        injection Hc as <-. apply Ok_inj in Hb. subst body'.
        rewrite Hkeys in Hk. apply Ok_inj in Hk. subst keys'.
        rewrite Hdel in Hd. discriminate.
      * match goal with Hin : In _ _ |- _ => destruct Hin as [<-|[]] end.
        reflexivity.
      * match goal with Hin : In _ _ |- _ => destruct Hin as [<-|[]] end.
        now exists c, body, keys.
  - cbn [route_bind route_try route_ret route_raise fst snd app].
    repeat split; try discriminate; try contradiction.
    + right. now eexists.
    + intros (c' & _ & _ & Hc & _ & _ & Ht & _). injection Hc as <-.
      rewrite Ht in Htype. discriminate.
Qed.

(** X25. [cache_flushall] returns the success object or raises an
    [HTTPException] with status 503, nothing else: the 500 that it raises for
    a cache it cannot flush is caught and becomes a 503 too. It succeeds
    exactly when the cache is set, is of type [redis] over a [RedisCache],
    and the flush succeeds; [flushall] is called exactly on such a cache, and
    it is the only call. *)
Theorem cache_flushall_outcome (cache : option Cache) :
  let success := Returned (VDict [("status", VStr "success")]) in
  (snd (cache_flushall cache) = success
   \/ exists e,
       snd (cache_flushall cache)
       = Raised (HTTPError 503 ("Service Unhealthy (" ++ str_exn e ++ ")")))
  /\ (snd (cache_flushall cache) = success <->
      exists c, cache = Some c /\ type_ c = "redis"
                /\ is_redis_cache c = true /\ flushall c = Ok tt)
  /\ (fst (cache_flushall cache) = [flushall_call] <->
      exists c, cache = Some c /\ type_ c = "redis"
                /\ is_redis_cache c = true)
  /\ (fst (cache_flushall cache) = [flushall_call]
      \/ fst (cache_flushall cache) = [])
  /\ (forall c, cache = Some c ->
      (type_ c =? "redis") && is_redis_cache c = false ->
      cache_flushall cache
      = ([], Raised
               (HTTPError 503
                  ("Service Unhealthy ("
                   ++ str_exn (HTTPError 500
                                 ("Cache type " ++ type_format c
                                  ++ " does not support flushing"))
                   ++ ")")))).
Proof.
  intros success. subst success. unfold cache_flushall.
  destruct cache as [c|].
  2:{ cbn. repeat split; try discriminate; auto.
      - right. now eexists.
      - intros (c & Hc & _). discriminate.
      - intros (c & Hc & _). discriminate. }
  destruct ((type_ c =? "redis") && is_redis_cache c) eqn:Hredis.
  - apply is_redis_spec in Hredis. destruct Hredis as [Htype Hinner].
    destruct (flushall c) as [[]|e] eqn:Hflush;
      cbn [call lift route_bind route_try route_ret route_raise fst snd app].
    + repeat split; try discriminate; auto.
      * intros _. now exists c.
      * intros _. now exists c.
      * intros c' [= <-]. rewrite Htype, Hinner. discriminate.
    + repeat split; try discriminate; auto.
      * right. now eexists.
      * intros (c' & [= <-] & _ & _ & Hf). rewrite Hflush in Hf. discriminate.
      * intros _. now exists c.
      * intros c' [= <-]. rewrite Htype, Hinner. discriminate.
  - cbn [route_bind route_try route_ret route_raise fst snd app].
    repeat split; try discriminate; auto.
    + right. now eexists.
    + intros (c' & [= <-] & Ht & Hi & _).
      rewrite Ht, Hi in Hredis. discriminate.
    + intros (c' & [= <-] & Ht & Hi).
      rewrite Ht, Hi in Hredis. discriminate.
    + intros c' [= <-] _. reflexivity.
Qed.

(** X26. [cache_redis_info] returns the client list, its length and the
    server information, or raises an [HTTPException] with status 503. It
    asks for the information only after the client list was obtained, and
    makes no other call. On a cache that is not set, or is not [redis] over a
    [RedisCache], it fails exactly as [cache_flushall] does, with the detail
    that speaks of flushing. *)
Theorem cache_redis_info_outcome (cache : option Cache) :
  ((exists v, snd (cache_redis_info cache) = Returned v)
   \/ exists e,
       snd (cache_redis_info cache)
       = Raised (HTTPError 503 ("Service Unhealthy (" ++ str_exn e ++ ")")))
  /\ (forall v,
        snd (cache_redis_info cache) = Returned v <->
        exists c clients redis_info,
          cache = Some c /\ type_ c = "redis" /\ is_redis_cache c = true
          /\ client_list c = Ok clients /\ info c = Ok redis_info
          /\ v = VDict [("num_clients", VInt (Z.of_nat (List.length clients)));
                        ("clients", VList clients); ("info", redis_info)])
  /\ (fst (cache_redis_info cache) = [client_list_call; info_call] <->
      exists c clients,
        cache = Some c /\ type_ c = "redis" /\ is_redis_cache c = true
        /\ client_list c = Ok clients)
  /\ (fst (cache_redis_info cache) = [client_list_call; info_call]
      \/ fst (cache_redis_info cache) = [client_list_call]
      \/ fst (cache_redis_info cache) = [])
  /\ ((forall c, cache = Some c ->
                 (type_ c =? "redis") && is_redis_cache c = false) ->
      cache_redis_info cache = cache_flushall cache).
Proof.
  unfold cache_redis_info, cache_flushall.
  destruct cache as [c|].
  2:{ cbn. repeat split; try discriminate; auto.
      - right. now eexists.
      - intros (c & cl & i & Hc & _). discriminate.
      - intros (c & cl & Hc & _). discriminate. }
  destruct ((type_ c =? "redis") && is_redis_cache c) eqn:Hredis.
  - apply is_redis_spec in Hredis. destruct Hredis as [Htype Hinner].
    destruct (client_list c) as [clients|e] eqn:Hclients;
      cbn [call lift route_bind route_try route_ret route_raise fst snd app].
    + destruct (info c) as [redis_info|e] eqn:Hinfo;
        cbn [call lift route_bind route_try route_ret route_raise fst snd app].
      * repeat split; try discriminate; auto.
        -- left. now eexists.
        -- intros [= <-]. now exists c, clients, redis_info.
        -- intros (c' & cl & i & [= <-] & _ & _ & Hcl & Hi & ->).
           rewrite Hclients in Hcl. apply Ok_inj in Hcl. subst cl.
           rewrite Hinfo in Hi. apply Ok_inj in Hi. now subst i.
        -- intros _. now exists c, clients.
        -- intros Hall. specialize (Hall c eq_refl).
           rewrite Htype, Hinner in Hall. discriminate.
      * repeat split; try discriminate; auto.
        -- right. now eexists.
        -- intros (c' & cl & i & [= <-] & _ & _ & _ & Hi & _).
           rewrite Hinfo in Hi. discriminate.
        -- intros _. now exists c, clients.
        -- intros Hall. specialize (Hall c eq_refl).
           rewrite Htype, Hinner in Hall. discriminate.
    + repeat split; try discriminate; auto.
      * right. now eexists.
      * intros (c' & cl & i & [= <-] & _ & _ & Hcl & _).
        rewrite Hclients in Hcl. discriminate.
      * intros (c' & cl & [= <-] & _ & _ & Hcl).
        rewrite Hclients in Hcl. discriminate.
      * intros Hall. specialize (Hall c eq_refl).
        rewrite Htype, Hinner in Hall. discriminate.
  - cbn [route_bind route_try route_ret route_raise fst snd app].
    repeat split; try discriminate; auto.
    + right. now eexists.
    + intros (c' & cl & i & [= <-] & Ht & Hi & _).
      rewrite Ht, Hi in Hredis. discriminate.
    + intros (c' & cl & [= <-] & Ht & Hi & _).
      rewrite Ht, Hi in Hredis. discriminate.
Qed.

(** X27. [cache_ping] reports a cache as healthy or raises a
    [ProxyException] with code 503 and parameter [cache_ping], nothing else.
    A cache that is not of type [redis] is reported healthy without a single
    call on it. A [redis] cache is pinged and then written to, in this
    order, and not written to when the ping fails; it is healthy exactly
    when both calls succeed. The [cache] entry is never among the parameters
    reported. *)
Theorem cache_ping_outcome (cache : option Cache) :
  ((exists r, snd (cache_ping cache) = Returned r /\ status r = "healthy")
   \/ exists message,
       snd (cache_ping cache)
       = Raised (ProxyException message cache_ping_error "cache_ping" 503))
  /\ (forall c masked specific,
        cache = Some c ->
        masked_vars c = Ok masked ->
        (if cache_truthy c then masked_inner_vars c else Ok []) = Ok specific ->
        (type_ c <> "redis" ->
         fst (cache_ping cache) = []
         /\ exists r, snd (cache_ping cache) = Returned r
                      /\ ping_response r = None
                      /\ set_cache_response r = None)
        /\ (type_ c = "redis" ->
            ((exists r, snd (cache_ping cache) = Returned r) <->
             (exists pong, ping c = Ok pong) /\ async_add_cache c = Ok tt)
            /\ (fst (cache_ping cache)
                = [ping_call;
                   async_add_cache_call "test_key" "test-model" test_messages]
                <-> exists pong, ping c = Ok pong)
            /\ ((forall pong, ping c <> Ok pong) ->
                fst (cache_ping cache) = [ping_call])))
  /\ (forall r, snd (cache_ping cache) = Returned r ->
      exists params,
        litellm_cache_params r = Some (json_dumps params)
        /\ Dict.get "cache" params = None).
Proof.
  unfold cache_ping. destruct cache as [c|].
  2:{ cbn [route_raise fst snd]. split; [right; now eexists|].
      split; [intros c ? ? Hc; discriminate|intros r Hr; discriminate]. }
  destruct (masked_vars c) as [masked|e] eqn:Hmasked.
  2:{ cbn [route_raise fst snd]. split; [right; now eexists|].
      split; [|intros r Hr; discriminate].
      intros c' ? ? [= <-] Hm. rewrite Hmasked in Hm. discriminate. }
  cbv zeta.
  destruct (if cache_truthy c then masked_inner_vars c else Ok [])
    as [specific|e] eqn:Hspecific.
  2:{ cbn [route_raise fst snd]. split; [right; now eexists|].
      split; [|intros r Hr; discriminate].
      intros c' ? ? [= <-] _ Hs. rewrite Hspecific in Hs. discriminate. }
  destruct (type_ c =? "redis") eqn:Htype.
  - apply String.eqb_eq in Htype.
    destruct (ping c) as [pong|e] eqn:Hping;
      cbn [call lift route_bind route_try route_ret route_raise fst snd app].
    + destruct (async_add_cache c) as [[]|e] eqn:Hadd;
        cbn [call lift route_bind route_try route_ret route_raise fst snd app].
      * split; [|split].
        -- left. eexists. split; reflexivity.
        -- intros c' masked' specific' [= <-] _ _. split; [congruence|].
           intros _. split; [|split].
           ++ split; [intros _|intros _; now eexists].
              split; [now exists pong|assumption].
           ++ split; [intros _; now exists pong|reflexivity].
           ++ intros Hno. now destruct (Hno pong).
        -- intros r [= <-]. eexists. split; [reflexivity|].
           apply DictFacts.get_pop_same.
      * split; [|split].
        -- right. now eexists.
        -- intros c' masked' specific' [= <-] _ _. split; [congruence|].
           intros _. split; [|split].
           ++ split; [intros [r Hr]; discriminate|intros [_ Ha]; congruence].
           ++ split; [intros _; now exists pong|reflexivity].
           ++ intros Hno. now destruct (Hno pong).
        -- intros r Hr. discriminate.
    + split; [|split].
      * right. now eexists.
      * intros c' masked' specific' [= <-] _ _. split; [congruence|].
        intros _. split; [|split].
        -- split; [intros [r Hr]; discriminate
                  |intros [[pong Hp] _]; congruence].
        -- split; [discriminate|intros [pong Hp]; congruence].
        -- reflexivity.
      * intros r Hr. discriminate.
  - apply String.eqb_neq in Htype.
    cbn [call lift route_bind route_try route_ret route_raise fst snd app].
    split; [|split].
    + left. eexists. split; reflexivity.
    + intros c' masked' specific' [= <-] _ _. split; [|congruence].
      intros _. split; [reflexivity|]. eexists. repeat split.
    + intros r [= <-]. eexists. split; [reflexivity|].
      apply DictFacts.get_pop_same.
Qed.

End CacheFacts.

Lemma cache_ping_outcome_witness :
  fst (@cache_ping CacheFixture.printing (Some (CacheFixture.cache "local" false)))
  = []
  /\ fst (@cache_ping CacheFixture.printing
            (Some (CacheFixture.cache "redis" true)))
     = [ping_call; async_add_cache_call "test_key" "test-model" test_messages].
Proof.
  destruct (@cache_ping_outcome CacheFixture.printing
              (Some (CacheFixture.cache "local" false)))
    as (_ & Hlocal & _).
  destruct (@cache_ping_outcome CacheFixture.printing
              (Some (CacheFixture.cache "redis" true)))
    as (_ & Hredis & _).
  split.
  - destruct (Hlocal _ _ _ eq_refl eq_refl eq_refl) as [Hother _].
    apply Hother. discriminate.
  - destruct (Hredis _ _ _ eq_refl eq_refl eq_refl) as [_ Hr].
    destruct (Hr eq_refl) as (_ & Hcalls & _).
    apply Hcalls. now exists (VBool true).
Defined.

Lemma cache_flushall_outcome_witness :
  @cache_flushall CacheFixture.printing (Some (CacheFixture.cache "s3" false))
  = ([], Raised
           (HTTPError 503
              "Service Unhealthy (500: Cache type s3 does not support flushing)")).
Proof.
  destruct (@cache_flushall_outcome CacheFixture.printing
              (Some (CacheFixture.cache "s3" false)))
    as (_ & _ & _ & _ & Hunsupported).
  exact (Hunsupported _ eq_refl eq_refl).
Defined.

Lemma cache_redis_info_outcome_witness :
  @cache_redis_info CacheFixture.printing (Some (CacheFixture.cache "redis" false))
  = @cache_flushall CacheFixture.printing
      (Some (CacheFixture.cache "redis" false)).
Proof.
  destruct (@cache_redis_info_outcome CacheFixture.printing
              (Some (CacheFixture.cache "redis" false)))
    as (_ & _ & _ & _ & Hsame).
  apply Hsame. intros c [= <-]. reflexivity.
Defined.

Lemma cache_delete_outcome_witness :
  @cache_delete CacheFixture.printing None
    (CacheFixture.body (Ok (VDict [("keys", VList [VStr "key1"])])))
  = ([], Raised
           (HTTPError 500
              "Cache Delete Failed(503: Cache not initialized. litellm.cache is None)")).
Proof.
  destruct (@cache_delete_outcome CacheFixture.printing None
              (CacheFixture.body (Ok (VDict [("keys", VList [VStr "key1"])]))))
    as (_ & _ & Hnone & _).
  exact (Hnone eq_refl).
Defined.
